(** * SocketProvider: connection and event-distribution layer

    A shallow embedding of the [SocketProvider] component (the React context
    that owns the socket.io connection, the two subscriber sets and the unread
    counter) together with the properties its specification states.

    Modelling conventions.
    - The provider's mutable cells ([socketRef], the two [useRef] sets, the two
      [useState] cells), the pending [setTimeout] timers and an effect trace
      are gathered in one record [World].
    - A JavaScript [Set] of callbacks is an insertion-ordered list without
      repetition; callbacks are compared by reference, so a callback is a
      handle ([nat]) and what it does when called is looked up in a table.
    - A subscriber callback is an opaque consumer: when called it returns or
      throws.  Callbacks that call back into the provider while a dispatch is
      running are outside the model.
    - [console.log] lines are not recorded; [console.warn] and
      [console.error] are.
    - Wire payloads are either absent ([undefined]) or a flat object.
    - Code that may throw lives in the monad [M]: a state transformer that
      ends normally or with a thrown error; [try]/[catch] is [tryCatch].
      What can throw is a subscriber callback, a permission round trip and
      a property read on [undefined]; [Alert.alert], the notification
      service and the socket's own methods are recorded and return.
    - An [async] handler is run to its end in one step: what happens
      between an [await] and its continuation is not interleaved.
    - The unread counter is a natural number (a JavaScript number is exact
      on the integers a counter of messages can reach). *)

From Stdlib Require Import String Ascii List ZArith NArith QArith Lia Sorted.
From stdpp Require Import base strings gmap list.

Open Scope string_scope.
Open Scope list_scope.

(** ** JavaScript values *)

Inductive JsPrim : Type :=
| PUndefined
| PNull
| PBool (b : bool)
| PNum (z : Z)
| PStr (s : string).

(** A flat object: own enumerable properties, keyed by name. *)
Abbreviation Obj := (gmap string JsPrim).

Inductive JsVal : Type :=
| VUndefined
| VStr (s : string)
| VObj (o : Obj).

(** The argument a wire handler receives: [None] is [undefined]. *)
Abbreviation JsArg := (option Obj).

Inductive JsError : Type :=
| Err (msg : string).

(** Result of evaluating a call that may throw (or a promise that may
    reject). *)
Inductive Completion (A : Type) : Type :=
| Normal (a : A)
| Throw (e : JsError).
Arguments Normal {A} a.
Arguments Throw {A} e.

Module JsString.

(** [s.startsWith(p)] *)
Definition startsWith (s p : string) : bool := String.prefix p s.

(** [s.substring(start)]: the code units from index [start] to the end. *)
Fixpoint substring (start : nat) (s : string) : string :=
  match start, s with
  | O, _ => s
  | S _, EmptyString => EmptyString
  | S k, String _ rest => substring k rest
  end.

End JsString.

(** ** JavaScript [Set] of callbacks *)

(** A callback is a function reference; two references are the same
    callback exactly when the handles are equal. *)
Definition Callback := nat.

Module JsSet.

(** Elements in insertion order. *)
Definition t := list Callback.

Definition empty : t := [].

Definition has (cb : Callback) (s : t) : bool :=
  existsb (Nat.eqb cb) s.

(** [s.add(cb)]: appended unless already present. *)
Definition add (cb : Callback) (s : t) : t :=
  if has cb s then s else s ++ [cb].

(** [s.delete(cb)] *)
Definition delete (cb : Callback) (s : t) : t :=
  List.filter (fun x => negb (Nat.eqb cb x)) s.

End JsSet.

(** ** Connection options *)

Inductive Transport : Type := websocket | polling.

Record AuthOptions : Type := mkAuth { token : string }.

Record ManagerOptions : Type := mkOptions {
  auth : AuthOptions;
  transports : list Transport;
  timeout : N;
  reconnection : bool;
  reconnectionAttempts : N;
  reconnectionDelay : N;
  reconnectionDelayMax : N;
  randomizationFactor : Q;
  forceNew : bool
}.

(** The token handed to the handshake: the [Bearer ] prefix is dropped. *)
Definition processedToken (userToken : string) : string :=
  if JsString.startsWith userToken "Bearer "
  then JsString.substring 7 userToken
  else userToken.

(** The options object passed to [io(BASE_URL, ...)]. *)
Definition socketOptions (userToken : string) : ManagerOptions :=
  {| auth := {| token := processedToken userToken |};
     transports := [websocket; polling];
     timeout := 3000;
     reconnection := true;
     reconnectionAttempts := 30;
     reconnectionDelay := 100;
     reconnectionDelayMax := 800;
     randomizationFactor := 1 # 10;
     forceNew := false |}.

(** ** Platform collaborators *)

(** [Platform.OS]; [other_os] stands for the remaining values (web, ...). *)
Inductive Platform : Type := android | ios | other_os.

Inductive AppStateStatus : Type := active | background | inactive.

(** [RESULTS] of react-native-permissions. *)
Inductive PermissionStatus : Type :=
| UNAVAILABLE | DENIED | LIMITED | GRANTED | BLOCKED.

(** [PermissionsAndroid.RESULTS]. *)
Inductive AndroidPermissionStatus : Type :=
| granted | denied | never_ask_again.

(** What the device answers while one incoming call is handled: the
    platform, the application state, and the result of each permission
    round trip (a value, or a rejected promise). *)
Record Device : Type := mkDevice {
  OS : Platform;
  currentState : AppStateStatus;
  PermissionsAndroid_check : Completion bool;
  PermissionsAndroid_request : Completion AndroidPermissionStatus;
  check : Completion PermissionStatus;
  request : Completion PermissionStatus
}.

(** ** Effects and state *)

Inductive Category : Type := MessageCategory | CallCategory.

(** The [console.error] / [console.warn] call sites. *)
Inductive LogSite : Type :=
| SocketConnectError
| MessageCallbackFailed
| PermissionCheckFailed
| CallSubscriberFailed
| CallCancelledCallbackFailed
| SendMessageNotConnected
| JoinConversationNotConnected
| RejectCallNotConnected.

Inductive Effect : Type :=
| Invoke (cat : Category) (cb : Callback) (arg : JsArg)
| ConsoleError (site : LogSite) (e : JsError)
| ConsoleWarn (site : LogSite)
| PermissionCheck
| PermissionRequest
| Alert
| ShowIncomingCallNotification (callData : JsArg)
| Io (sock : nat) (opts : ManagerOptions)
| SocketConnect (sock : nat)
| SocketDisconnect (sock : nat)
| Emit (sock : nat) (ev : string) (args : list JsVal).

(** A socket.io [Socket] object: its identity and its [connected] flag
    ([disconnected] is the negation). *)
Record Socket : Type := mkSocket {
  sock_id : nat;
  connected : bool
}.

Definition disconnected (s : Socket) : bool := negb (connected s).

(** The bodies handed to [setTimeout]. *)
Inductive Task : Type :=
| GetOfflineMessages (sock : nat)
| VerifyListeners (sock : nat)
| WarmUp.

Record Timer : Type := mkTimer {
  due : N;
  task : Task
}.

Record World : Type := mkWorld {
  socketRef : option Socket;
  isConnected : bool;
  unreadMessageCount : N;
  messageSubscribersRef : JsSet.t;
  callSubscribersRef : JsSet.t;
  now : N;
  timers : list Timer;
  next_socket : nat;
  trace : list Effect
}.

Definition initial : World :=
  {| socketRef := None; isConnected := false; unreadMessageCount := 0;
     messageSubscribersRef := JsSet.empty; callSubscribersRef := JsSet.empty;
     now := 0; timers := []; next_socket := 0; trace := [] |}.

Definition log (e : Effect) (w : World) : World :=
  {| socketRef := socketRef w; isConnected := isConnected w;
     unreadMessageCount := unreadMessageCount w;
     messageSubscribersRef := messageSubscribersRef w;
     callSubscribersRef := callSubscribersRef w;
     now := now w; timers := timers w; next_socket := next_socket w;
     trace := trace w ++ [e] |}.

Definition setSocketRef (s : option Socket) (w : World) : World :=
  {| socketRef := s; isConnected := isConnected w;
     unreadMessageCount := unreadMessageCount w;
     messageSubscribersRef := messageSubscribersRef w;
     callSubscribersRef := callSubscribersRef w;
     now := now w; timers := timers w; next_socket := next_socket w;
     trace := trace w |}.

Definition setIsConnected (b : bool) (w : World) : World :=
  {| socketRef := socketRef w; isConnected := b;
     unreadMessageCount := unreadMessageCount w;
     messageSubscribersRef := messageSubscribersRef w;
     callSubscribersRef := callSubscribersRef w;
     now := now w; timers := timers w; next_socket := next_socket w;
     trace := trace w |}.

(** [setUnreadMessageCount(updater)] *)
Definition setUnreadMessageCount (f : N -> N) (w : World) : World :=
  {| socketRef := socketRef w; isConnected := isConnected w;
     unreadMessageCount := f (unreadMessageCount w);
     messageSubscribersRef := messageSubscribersRef w;
     callSubscribersRef := callSubscribersRef w;
     now := now w; timers := timers w; next_socket := next_socket w;
     trace := trace w |}.

Definition setMessageSubscribers (s : JsSet.t) (w : World) : World :=
  {| socketRef := socketRef w; isConnected := isConnected w;
     unreadMessageCount := unreadMessageCount w;
     messageSubscribersRef := s;
     callSubscribersRef := callSubscribersRef w;
     now := now w; timers := timers w; next_socket := next_socket w;
     trace := trace w |}.

Definition setCallSubscribers (s : JsSet.t) (w : World) : World :=
  {| socketRef := socketRef w; isConnected := isConnected w;
     unreadMessageCount := unreadMessageCount w;
     messageSubscribersRef := messageSubscribersRef w;
     callSubscribersRef := s;
     now := now w; timers := timers w; next_socket := next_socket w;
     trace := trace w |}.

Definition setNow (t : N) (w : World) : World :=
  {| socketRef := socketRef w; isConnected := isConnected w;
     unreadMessageCount := unreadMessageCount w;
     messageSubscribersRef := messageSubscribersRef w;
     callSubscribersRef := callSubscribersRef w;
     now := t; timers := timers w; next_socket := next_socket w;
     trace := trace w |}.

Definition setTimers (q : list Timer) (w : World) : World :=
  {| socketRef := socketRef w; isConnected := isConnected w;
     unreadMessageCount := unreadMessageCount w;
     messageSubscribersRef := messageSubscribersRef w;
     callSubscribersRef := callSubscribersRef w;
     now := now w; timers := q; next_socket := next_socket w;
     trace := trace w |}.

Definition setNextSocket (n : nat) (w : World) : World :=
  {| socketRef := socketRef w; isConnected := isConnected w;
     unreadMessageCount := unreadMessageCount w;
     messageSubscribersRef := messageSubscribersRef w;
     callSubscribersRef := callSubscribersRef w;
     now := now w; timers := timers w; next_socket := n;
     trace := trace w |}.

(** ** Timers *)

(** The pending timers are kept in firing order: by due time, and by
    registration order among equal due times. *)
Fixpoint enqueue (tm : Timer) (q : list Timer) : list Timer :=
  match q with
  | [] => [tm]
  | x :: q' => if (due x <=? due tm)%N then x :: enqueue tm q' else tm :: q
  end.

(** [setTimeout(task, delay)] *)
Definition setTimeout (tk : Task) (delay : N) (w : World) : World :=
  setTimers (enqueue {| due := (now w + delay)%N; task := tk |} (timers w)) w.

(** What a timer body does when it fires. *)
Definition runTask (tk : Task) (w : World) : World :=
  match tk with
  | GetOfflineMessages sock => log (Emit sock "get_offline_messages" []) w
  | VerifyListeners _ => w
  | WarmUp =>
      match socketRef w with
      | Some s =>
          if disconnected s then log (SocketConnect (sock_id s)) w else w
      | None => w
      end
  end.

(** Run, in order, the timers of [q] that are due at time [t]; the others
    stay pending. *)
Fixpoint fire (t : N) (q : list Timer) (w : World) : World :=
  match q with
  | [] => setTimers [] w
  | tm :: q' =>
      if (due tm <=? t)%N then fire t q' (runTask (task tm) w)
      else setTimers q w
  end.

(** The clock advances by [dt] milliseconds and the event loop runs every
    timer that has come due. *)
Definition elapse (dt : N) (w : World) : World :=
  let t := (now w + dt)%N in
  fire t (timers w) (setNow t w).

(** ** Computations that may throw *)

(** A piece of JavaScript: it changes the state and then either completes
    normally with a value or throws.  For an [async] function a thrown
    error is the rejection of the promise it returns. *)
Definition M (A : Type) : Type := World -> World * Completion A.

#[global] Instance M_ret : MRet M := fun A a w => (w, Normal a).

#[global] Instance M_bind : MBind M := fun A B k m w =>
  match m w with
  | (w1, Normal a) => k a w1
  | (w1, Throw e) => (w1, Throw e)
  end.

Definition effect (e : Effect) : M unit := fun w => (log e w, Normal tt).

Definition modify (f : World -> World) : M unit := fun w => (f w, Normal tt).

Definition gets {A : Type} (f : World -> A) : M A := fun w => (w, Normal (f w)).

(** A call into a collaborator whose outcome is given. *)
Definition await {A : Type} (c : Completion A) : M A := fun w => (w, c).

(** [try { body } catch (error) { handler(error) }] *)
Definition tryCatch {A : Type} (body : M A) (handler : JsError -> M A) : M A :=
  fun w =>
    match body w with
    | (w1, Normal a) => (w1, Normal a)
    | (w1, Throw error) => handler error w1
    end.

(** Calling an [async] function without awaiting it: the caller goes on
    whatever becomes of the promise. *)
Definition detach (m : M unit) : M unit :=
  fun w => ((m w).1, Normal tt).

(** State after running [m]. *)
Definition exec {A : Type} (m : M A) (w : World) : World := (m w).1.

(** How [m] completes. *)
Definition completion {A : Type} (m : M A) (w : World) : Completion A :=
  (m w).2.

(** ** The provider *)

(** [{ ...callData }]: the own properties of an object; nothing for
    [undefined]. *)
Definition spread (callData : JsArg) : Obj :=
  match callData with
  | Some o => o
  | None => ∅
  end.

(** [args[0]] *)
Definition arg0 (args : list JsArg) : JsArg :=
  match args with
  | [] => None
  | a :: _ => a
  end.

(** Truthiness of a handler argument: an object is truthy, [undefined] is
    not. *)
Definition truthy (a : JsArg) : bool :=
  match a with
  | Some _ => true
  | None => false
  end.

(** The named listeners. *)
Inductive Handler : Type :=
| HandleConnect
| HandleDisconnect
| HandleConnectError
| HandleReceiveMessage
| HandleIncomingCall
| HandleCallCancelled
| HandleOfflineMessagesDelivered.

(** The [socket.on(name, handler)] calls, in source order. *)
Definition bindings : list (string * Handler) :=
  [ ("connect", HandleConnect);
    ("disconnect", HandleDisconnect);
    ("connect_error", HandleConnectError);
    ("receive_message", HandleReceiveMessage);
    ("message", HandleReceiveMessage);
    ("incoming_call", HandleIncomingCall);
    ("call_cancelled", HandleCallCancelled);
    ("offline_messages_delivered", HandleOfflineMessagesDelivered) ].

(** [socket.listeners(name)] *)
Definition listeners (name : string) : list Handler :=
  map snd (List.filter (fun b => String.eqb (fst b) name) bindings).

(** Outcome of the microphone check that precedes an incoming call. *)
Inductive Gate : Type := Proceed | Dropped.

(** Reading a property of [undefined]. *)
Definition TypeError : JsError := Err "TypeError".

Section Provider.

(** What each subscriber callback does when called with an argument. *)
Variable behaviour : Callback -> JsArg -> Completion unit.

(** [callback(arg)] *)
Definition invoke (cat : Category) (callback : Callback) (arg : JsArg)
    : M unit :=
  effect (Invoke cat callback arg) ;; await (behaviour callback arg).

(** [set.forEach(body)] *)
Fixpoint forEach (body : Callback -> M unit) (set : JsSet.t) : M unit :=
  match set with
  | [] => mret tt
  | callback :: rest => body callback ;; forEach body rest
  end.

Definition handleConnect (socket : nat) : M unit :=
  modify (setIsConnected true) ;;
  modify (setTimeout (GetOfflineMessages socket) 1000).

Definition handleDisconnect : M unit :=
  modify (setIsConnected false).

Definition handleConnectError (error : JsArg) : M unit :=
  match error with
  | None => await (Throw TypeError)
  | Some o =>
      effect (ConsoleError SocketConnectError
                (Err match o !! "message" with
                     | Some (PStr m) => m
                     | _ => ""
                     end)) ;;
      modify (setIsConnected false)
  end.

Definition handleReceiveMessage (message : JsArg) : M unit :=
  subscribers ← gets messageSubscribersRef;
  forEach (fun callback =>
             tryCatch (invoke MessageCategory callback message)
               (fun error => effect (ConsoleError MessageCallbackFailed error)))
          subscribers ;;
  modify (setUnreadMessageCount (fun prev => (prev + 1)%N)).

(** Only logs; [data.count] needs [data] to be an object. *)
Definition handleOfflineMessagesDelivered (data : JsArg) : M unit :=
  match data with
  | None => await (Throw TypeError)
  | Some _ => mret tt
  end.

(** First permission round trip: is the microphone already granted? *)
Definition checkMicrophone (d : Device) : M bool :=
  effect PermissionCheck ;;
  match OS d with
  | android => await (PermissionsAndroid_check d)
  | _ =>
      permissionStatus ← await (check d);
      mret match permissionStatus with GRANTED => true | _ => false end
  end.

(** Second permission round trip: ask the user. *)
Definition requestMicrophone (d : Device) : M bool :=
  effect PermissionRequest ;;
  match OS d with
  | android =>
      result ← await (PermissionsAndroid_request d);
      mret match result with granted => true | _ => false end
  | _ =>
      result ← await (request d);
      mret match result with GRANTED => true | _ => false end
  end.

(** The [try { ... } catch] block at the head of [handleIncomingCall];
    [Dropped] is its early [return]. *)
Definition microphoneGate (d : Device) : M Gate :=
  tryCatch
    (hasPermission ← checkMicrophone d;
     if hasPermission : bool then mret Proceed
     else
       hasPermission ← requestMicrophone d;
       if hasPermission : bool then mret Proceed
       else effect Alert ;; mret Dropped)
    (fun error =>
       effect (ConsoleError PermissionCheckFailed error) ;; mret Proceed).

(** [if (socketRef.current?.disconnected) socketRef.current.connect()] *)
Definition warmUp : M unit := modify (runTask WarmUp).

(** Modelled from the spec: [IOSCallService] (services/IOSCallService) is
    not among the sources; the spec lists it as the local notification
    collaborator [showIncomingCallNotification(callData)], which alerts
    the user, so a call is recorded in the trace and returns. *)
Definition showIncomingCallNotification (callData : JsArg) : M unit :=
  effect (ShowIncomingCallNotification callData).

(** The [if (Platform.OS === 'ios')] block. *)
Definition iosFastPath (d : Device) (callData : JsArg) : M unit :=
  match OS d with
  | ios =>
      match currentState d with
      | active => warmUp
      | _ =>
          showIncomingCallNotification callData ;;
          modify (setTimeout WarmUp 50)
      end
  | _ => mret tt
  end.

(** The final [callSubscribersRef.current.forEach] of
    [handleIncomingCall]. *)
Definition notifyCallSubscribers (callData : JsArg) : M unit :=
  subscribers ← gets callSubscribersRef;
  forEach (fun callback =>
             tryCatch (invoke CallCategory callback callData)
               (fun error => effect (ConsoleError CallSubscriberFailed error)))
          subscribers.

Definition handleIncomingCall (d : Device) (callData : JsArg) : M unit :=
  gate ← microphoneGate d;
  match gate with
  | Dropped => mret tt
  | Proceed => iosFastPath d callData ;; notifyCallSubscribers callData
  end.

Definition handleCallCancelled (callData : JsArg) : M unit :=
  subscribers ← gets callSubscribersRef;
  forEach (fun callback =>
             tryCatch
               (invoke CallCategory callback
                  (Some (<["eventType" := PStr "call_cancelled"]>
                           (spread callData))))
               (fun error =>
                  effect (ConsoleError CallCancelledCallbackFailed error)))
          subscribers.

(** The listener registered with [socket.onAny]. *)
Definition onAnyListener (d : Device) (eventName : string)
    (args : list JsArg) : M unit :=
  if String.eqb eventName "incoming_call" then
    if truthy (arg0 args) then detach (handleIncomingCall d (arg0 args))
    else mret tt
  else if String.eqb eventName "call_cancelled" then
    if truthy (arg0 args) then handleCallCancelled (arg0 args)
    else mret tt
  else mret tt.

Definition runHandler (socket : nat) (d : Device) (h : Handler)
    (args : list JsArg) : M unit :=
  match h with
  | HandleConnect => handleConnect socket
  | HandleDisconnect => handleDisconnect
  | HandleConnectError => handleConnectError (arg0 args)
  | HandleReceiveMessage => handleReceiveMessage (arg0 args)
  | HandleIncomingCall => detach (handleIncomingCall d (arg0 args))
  | HandleCallCancelled => handleCallCancelled (arg0 args)
  | HandleOfflineMessagesDelivered =>
      handleOfflineMessagesDelivered (arg0 args)
  end.

Fixpoint runHandlers (socket : nat) (d : Device) (hs : list Handler)
    (args : list JsArg) : M unit :=
  match hs with
  | [] => mret tt
  | h :: rest => runHandler socket d h args ;; runHandlers socket d rest args
  end.

(** Delivery of one inbound event packet by socket.io-client
    ([Socket.emitEvent]): the listeners registered with [onAny] are called
    first, then the packet is emitted to the listeners bound to the
    event's name with [on], in binding order.  Both happen for every
    packet. *)
Definition onevent (socket : nat) (d : Device) (eventName : string)
    (args : list JsArg) : M unit :=
  onAnyListener d eventName args ;;
  runHandlers socket d (listeners eventName) args.

(** *** Public interface *)

Definition sendMessage (messageData : JsVal) : M unit :=
  current ← gets socketRef;
  connected ← gets isConnected;
  match current, connected with
  | Some s, true => effect (Emit (sock_id s) "send_message" [messageData])
  | _, _ => effect (ConsoleWarn SendMessageNotConnected)
  end.

Definition joinConversation (conversationId : string) : M unit :=
  current ← gets socketRef;
  connected ← gets isConnected;
  match current, connected with
  | Some s, true =>
      effect (Emit (sock_id s) "join_conversation" [VStr conversationId])
  | _, _ => effect (ConsoleWarn JoinConversationNotConnected)
  end.

Definition leaveConversation (conversationId : string) : M unit :=
  current ← gets socketRef;
  connected ← gets isConnected;
  match current, connected with
  | Some s, true =>
      effect (Emit (sock_id s) "leave_conversation" [VStr conversationId])
  | _, _ => mret tt
  end.

(** The function [subscribeToMessages] returns. *)
Definition unsubscribeFromMessages (callback : Callback) : M unit :=
  modify (fun w =>
    setMessageSubscribers (JsSet.delete callback (messageSubscribersRef w)) w).

Definition subscribeToMessages (callback : Callback) : M (M unit) :=
  modify (fun w =>
    setMessageSubscribers (JsSet.add callback (messageSubscribersRef w)) w) ;;
  mret (unsubscribeFromMessages callback).

(** The function [subscribeToIncomingCalls] returns. *)
Definition unsubscribeFromIncomingCalls (callback : Callback) : M unit :=
  modify (fun w =>
    setCallSubscribers (JsSet.delete callback (callSubscribersRef w)) w).

Definition subscribeToIncomingCalls (callback : Callback) : M (M unit) :=
  modify (fun w =>
    setCallSubscribers (JsSet.add callback (callSubscribersRef w)) w) ;;
  mret (unsubscribeFromIncomingCalls callback).

Definition addUnreadMessage : M unit :=
  modify (setUnreadMessageCount (fun prev => (prev + 1)%N)).

Definition clearUnreadMessages : M unit :=
  modify (setUnreadMessageCount (fun _ => 0%N)).

(** [conversationId] is optional: [None] is [undefined]. *)
Definition rejectCall (callId recipientId : string)
    (conversationId : option string) : M unit :=
  current ← gets socketRef;
  connected ← gets isConnected;
  match current, connected with
  | Some s, true =>
      effect (Emit (sock_id s) "reject_call"
                [VObj (<["callId" := PStr callId]>
                       (<["recipientId" := PStr recipientId]>
                        (<["conversationId" :=
                             match conversationId with
                             | Some c => PStr c
                             | None => PUndefined
                             end]> ∅)))])
  | _, _ => effect (ConsoleWarn RejectCallNotConnected)
  end.

(** *** The connection effect *)

(** Body of the [useEffect] keyed on [userToken], up to the listener
    bindings; the value is the options object given to [io], or [None]
    when no connection is created ([userToken] is [null] or empty). *)
Definition connectEffect (userToken : option string)
    : M (option ManagerOptions) :=
  match userToken with
  | Some (String c rest) =>
      let opts := socketOptions (String c rest) in
      socket ← gets next_socket;
      effect (Io socket opts) ;;
      modify (setSocketRef
                (Some {| sock_id := socket; connected := false |})) ;;
      modify (setNextSocket (S socket)) ;;
      modify (setTimeout (VerifyListeners socket) 100) ;;
      mret (Some opts)
  | _ =>
      current ← gets socketRef;
      match current with
      | Some s =>
          effect (SocketDisconnect (sock_id s)) ;;
          modify (setSocketRef None) ;;
          modify (setIsConnected false) ;;
          mret None
      | None => mret None
      end
  end.

(** The cleanup function the effect returns. *)
Definition cleanup (socket : nat) : M unit :=
  effect (SocketDisconnect socket) ;;
  modify (setSocketRef None) ;;
  modify (setIsConnected false).

End Provider.

Arguments handleConnect : simpl never.
Arguments handleReceiveMessage : simpl never.
Arguments handleIncomingCall : simpl never.
Arguments handleCallCancelled : simpl never.
Arguments microphoneGate : simpl never.
Arguments iosFastPath : simpl never.
Arguments notifyCallSubscribers : simpl never.

(** ** Histories *)

(** Everything that can happen to the provider: time passing, a listener
    being run by socket.io, the connection effect and its cleanup, and the
    calls a consumer can make through the context value. *)
Inductive Event : Type :=
| Elapse (dt : N)
| OnConnect (socket : nat)
| OnDisconnect
| OnConnectError (error : JsArg)
| OnReceiveMessage (message : JsArg)
| OnIncomingCall (d : Device) (callData : JsArg)
| OnCallCancelled (callData : JsArg)
| OnOfflineMessagesDelivered (data : JsArg)
| RunConnectEffect (userToken : option string)
| RunCleanup (socket : nat)
| CallSendMessage (messageData : JsVal)
| CallJoinConversation (conversationId : string)
| CallLeaveConversation (conversationId : string)
| CallRejectCall (callId recipientId : string) (conversationId : option string)
| CallSubscribeToMessages (callback : Callback)
| CallSubscribeToIncomingCalls (callback : Callback)
| CallUnsubscribe (k : nat)
| CallAddUnreadMessage
| CallClearUnreadMessages.

(** The provider together with the unsubscribe functions its consumers
    hold, in the order the subscriptions were made. *)
Record Client : Type := mkClient {
  world : World;
  handles : list (M unit)
}.

Definition start : Client := {| world := initial; handles := [] |}.

(** socket.io keeps the [connected] flag of a socket itself: it sets the
    flag before it emits [connect] and clears it before it emits
    [disconnect].  The listeners are bound to the socket the provider
    holds, so a [disconnect] concerns that socket. *)
Definition markConnected (socket : nat) (w : World) : World :=
  match socketRef w with
  | Some s =>
      if Nat.eqb (sock_id s) socket
      then setSocketRef (Some {| sock_id := sock_id s; connected := true |}) w
      else w
  | None => w
  end.

Definition markDisconnected (w : World) : World :=
  match socketRef w with
  | Some s =>
      setSocketRef (Some {| sock_id := sock_id s; connected := false |}) w
  | None => w
  end.

(** What socket.io did to the socket before it called the listener. *)
Definition noted (f : World -> World) (c : Client) : Client :=
  {| world := f (world c); handles := handles c |}.

Section History.

Variable behaviour : Callback -> JsArg -> Completion unit.

(** A subscription: the set changes and the consumer keeps the function
    it got back. *)
Definition subscribe (m : M (M unit)) (c : Client) : Client :=
  match m (world c) with
  | (w, Normal unsubscribe) =>
      {| world := w; handles := handles c ++ [unsubscribe] |}
  | (w, Throw _) => {| world := w; handles := handles c |}
  end.

Definition within {A : Type} (m : M A) (c : Client) : Client :=
  {| world := exec m (world c); handles := handles c |}.

Definition applyEvent (e : Event) (c : Client) : Client :=
  match e with
  | Elapse dt => {| world := elapse dt (world c); handles := handles c |}
  | OnConnect socket =>
      within (handleConnect socket) (noted (markConnected socket) c)
  | OnDisconnect => within handleDisconnect (noted markDisconnected c)
  | OnConnectError error => within (handleConnectError error) c
  | OnReceiveMessage message =>
      within (handleReceiveMessage behaviour message) c
  | OnIncomingCall d callData =>
      within (handleIncomingCall behaviour d callData) c
  | OnCallCancelled callData =>
      within (handleCallCancelled behaviour callData) c
  | OnOfflineMessagesDelivered data =>
      within (handleOfflineMessagesDelivered data) c
  | RunConnectEffect userToken => within (connectEffect userToken) c
  | RunCleanup socket => within (cleanup socket) c
  | CallSendMessage messageData => within (sendMessage messageData) c
  | CallJoinConversation conversationId =>
      within (joinConversation conversationId) c
  | CallLeaveConversation conversationId =>
      within (leaveConversation conversationId) c
  | CallRejectCall callId recipientId conversationId =>
      within (rejectCall callId recipientId conversationId) c
  | CallSubscribeToMessages callback =>
      subscribe (subscribeToMessages callback) c
  | CallSubscribeToIncomingCalls callback =>
      subscribe (subscribeToIncomingCalls callback) c
  | CallUnsubscribe k =>
      match handles c !! k with
      | Some unsubscribe => within unsubscribe c
      | None => c
      end
  | CallAddUnreadMessage => within addUnreadMessage c
  | CallClearUnreadMessages => within clearUnreadMessages c
  end.

Fixpoint run (events : list Event) (c : Client) : Client :=
  match events with
  | [] => c
  | e :: rest => run rest (applyEvent e c)
  end.

End History.

(** *** Elapsed time and settled connections *)

(** These two functions read a history the way the specification speaks
    of it; they do not run the provider. *)

Fixpoint totalElapsed (events : list Event) : N :=
  match events with
  | [] => 0
  | Elapse dt :: rest => dt + totalElapsed rest
  | _ :: rest => totalElapsed rest
  end.

(** The connect events of a history that lie at least one second before
    its end. *)
Fixpoint settledConnects (events : list Event) : nat :=
  match events with
  | [] => 0
  | OnConnect _ :: rest =>
      (if (1000 <=? totalElapsed rest)%N then 1 else 0) + settledConnects rest
  | _ :: rest => settledConnects rest
  end.

Definition isOfflineTimer (tm : Timer) : bool :=
  match task tm with
  | GetOfflineMessages _ => true
  | _ => false
  end.

(** The pending offline-backlog timers that are due at time [t]. *)
Definition pendingDue (t : N) (q : list Timer) : nat :=
  length (List.filter (fun tm => isOfflineTimer tm && (due tm <=? t)%N) q).

Definition dueOrder (a b : Timer) : Prop := (due a <= due b)%N.

(** The timer queue is in firing order and holds only timers of the
    future. *)
Definition timersOk (w : World) : Prop :=
  StronglySorted dueOrder (timers w)
  /\ Forall (fun tm => (now w < due tm)%N) (timers w).

(** ** Reading the trace *)

#[global] Instance Category_eq_dec : EqDecision Category.
Proof. solve_decision. Defined.

#[global] Instance LogSite_eq_dec : EqDecision LogSite.
Proof. solve_decision. Defined.

(** The callback invocations of a category, oldest first. *)
Definition calls (cat : Category) (tr : list Effect)
    : list (Callback * JsArg) :=
  omap (fun e =>
          match e with
          | Invoke c cb arg => if decide (c = cat) then Some (cb, arg) else None
          | _ => None
          end) tr.

(** The arguments one callback was invoked with, oldest first. *)
Definition deliveries (cat : Category) (cb : Callback) (tr : list Effect)
    : list JsArg :=
  omap (fun ca => if Nat.eqb (fst ca) cb then Some (snd ca) else None)
       (calls cat tr).

(** The errors written by [console.error] at one site. *)
Definition loggedErrors (site : LogSite) (tr : list Effect) : list JsError :=
  omap (fun e =>
          match e with
          | ConsoleError s err => if decide (s = site) then Some err else None
          | _ => None
          end) tr.

(** Number of [Alert.alert] prompts. *)
Definition alerts (tr : list Effect) : nat :=
  length (List.filter
            (fun e => match e with Alert => true | _ => false end) tr).

(** Number of permission round trips (checks and requests). *)
Definition permissionCalls (tr : list Effect) : nat :=
  length (List.filter (fun e => match e with
                           | PermissionCheck | PermissionRequest => true
                           | _ => false
                           end) tr).

(** The [socket.emit] calls: event name and arguments. *)
Definition emitted (tr : list Effect) : list (string * list JsVal) :=
  omap (fun e =>
          match e with
          | Emit _ ev args => Some (ev, args)
          | _ => None
          end) tr.

(** Number of offline-backlog requests sent. *)
Definition offlineRequests (tr : list Effect) : nat :=
  length (List.filter (fun ea => String.eqb (fst ea) "get_offline_messages")
                 (emitted tr)).

(** The effects [m] adds to the trace when run from [w]. *)
Definition produced {A : Type} (m : M A) (w : World) : list Effect :=
  drop (length (trace w)) (trace (exec m w)).

(** Appending several effects at once. *)
Definition logs (es : list Effect) (w : World) : World :=
  {| socketRef := socketRef w; isConnected := isConnected w;
     unreadMessageCount := unreadMessageCount w;
     messageSubscribersRef := messageSubscribersRef w;
     callSubscribersRef := callSubscribersRef w;
     now := now w; timers := timers w; next_socket := next_socket w;
     trace := trace w ++ es |}.

(** ** Vocabulary of the statements *)

Section DispatchEffects.

Variable behaviour : Callback -> JsArg -> Completion unit.
Variables (cat : Category) (site : LogSite) (arg : JsArg).

(** One iteration of the loop the three handlers share. *)
Definition guarded (callback : Callback) : M unit :=
  tryCatch (invoke behaviour cat callback arg)
           (fun error => effect (ConsoleError site error)).

(** What one iteration writes to the trace. *)
Definition iterationEffects (callback : Callback) : list Effect :=
  Invoke cat callback arg ::
  match behaviour callback arg with
  | Normal _ => []
  | Throw error => [ConsoleError site error]
  end.

Definition dispatchEffects (subscribers : JsSet.t) : list Effect :=
  flat_map iterationEffects subscribers.

End DispatchEffects.

(** The argument the subscribers get on a cancellation: the properties
    of the payload, if there is one, and the tag. *)
Definition cancellation (callData : JsArg) : JsArg :=
  Some (<["eventType" := PStr "call_cancelled"]>
          match callData with
          | Some payload => payload
          | None => ∅
          end).

(** The microphone check neither reads nor changes anything but the
    trace, so it can be described by its run from the initial state. *)
Definition gateEffects (d : Device) : list Effect :=
  produced (microphoneGate d) initial.

Definition gateDecision (d : Device) : Gate :=
  match completion (microphoneGate d) initial with
  | Normal gate => gate
  | Throw _ => Proceed
  end.

(** The effects of the iOS block. *)
Definition fastPathEffects (d : Device) (callData : JsArg) (w : World)
    : list Effect :=
  match OS d with
  | ios =>
      match currentState d with
      | active =>
          match socketRef w with
          | Some s => if disconnected s then [SocketConnect (sock_id s)] else []
          | None => []
          end
      | _ => [ShowIncomingCallNotification callData]
      end
  | _ => []
  end.

(** *** Answers of the permission provider *)

(** The two situations the specification distinguishes, as conditions on
    what the device answers. *)

Definition isGranted (s : PermissionStatus) : bool :=
  match s with
  | GRANTED => true
  | _ => false
  end.

(** The permission check resolves without the permission, the request
    that follows is made and resolves without it too. *)
Definition permissionDenied (d : Device) : bool :=
  match OS d with
  | android =>
      match PermissionsAndroid_check d, PermissionsAndroid_request d with
      | Normal false, Normal denied => true
      | Normal false, Normal never_ask_again => true
      | _, _ => false
      end
  | _ =>
      match check d, request d with
      | Normal s, Normal r => negb (isGranted s) && negb (isGranted r)
      | _, _ => false
      end
  end.

(** The permission check throws, or it resolves without the permission
    and the request throws. *)
Definition permissionFails (d : Device) : bool :=
  match OS d with
  | android =>
      match PermissionsAndroid_check d, PermissionsAndroid_request d with
      | Throw _, _ => true
      | Normal false, Throw _ => true
      | _, _ => false
      end
  | _ =>
      match check d, request d with
      | Throw _, _ => true
      | Normal s, Throw _ => negb (isGranted s)
      | _, _ => false
      end
  end.

(** *** Invariants of a history *)

(** Every offline-backlog request in the trace was sent without
    arguments. *)
Definition offlineEmitsBare (tr : list Effect) : Prop :=
  Forall (fun ea : string * list JsVal =>
            fst ea = "get_offline_messages" -> snd ea = [])
         (emitted tr).

(** The clock, the number of requests sent and the pending
    offline-backlog timers are unchanged, and the queue stays in order. *)
Definition quietStep (w w' : World) : Prop :=
  now w' = now w
  /\ offlineRequests (trace w') = offlineRequests (trace w)
  /\ (timersOk w -> timersOk w')
  /\ (forall t, pendingDue t (timers w') = pendingDue t (timers w))
  /\ (offlineEmitsBare (trace w) -> offlineEmitsBare (trace w')).

(** Every function a consumer holds came from a subscription. *)
Definition handlesOk (c : Client) : Prop :=
  Forall (fun u => exists callback,
              u = unsubscribeFromMessages callback
              \/ u = unsubscribeFromIncomingCalls callback)
         (handles c).

Definition subscribersOf (cat : Category) (w : World) : JsSet.t :=
  match cat with
  | MessageCategory => messageSubscribersRef w
  | CallCategory => callSubscribersRef w
  end.

(** A step that calls no subscriber and leaves both subscriber sets as
    they are. *)
Definition silentStep (w w' : World) : Prop :=
  (forall cat, calls cat (trace w') = calls cat (trace w))
  /\ (forall cat, subscribersOf cat w' = subscribersOf cat w).

(** *** What a history entitles a callback to *)

(** The registration a subscription event makes. *)
Definition subscriptionOf (e : Event) : option (Category * Callback) :=
  match e with
  | CallSubscribeToMessages callback => Some (MessageCategory, callback)
  | CallSubscribeToIncomingCalls callback => Some (CallCategory, callback)
  | _ => None
  end.

(** The event a handler run publishes, and the category it publishes to.
    An incoming call is published when the microphone check lets it
    through. *)
Definition publishedBy (e : Event) : option (Category * JsArg) :=
  match e with
  | OnReceiveMessage message => Some (MessageCategory, message)
  | OnIncomingCall d callData =>
      match gateDecision d with
      | Proceed => Some (CallCategory, callData)
      | Dropped => None
      end
  | OnCallCancelled callData => Some (CallCategory, cancellation callData)
  | _ => None
  end.

Definition sameRegistration (cat : Category) (cb : Callback)
    (r : Category * Callback) : bool :=
  bool_decide (fst r = cat) && Nat.eqb (snd r) cb.

(** The subscriptions made so far; the [k]-th entry is the registration
    the [k]-th returned unsubscribe function removes. *)
Definition madeAfter (made : list (Category * Callback)) (e : Event)
    : list (Category * Callback) :=
  match subscriptionOf e with
  | Some r => made ++ [r]
  | None => made
  end.

(** Is [cb] registered in [cat] once [e] has happened?  Subscribing
    registers it; calling any unsubscribe function obtained for it
    unregisters it. *)
Definition registeredAfter (cat : Category) (cb : Callback)
    (made : list (Category * Callback)) (registered : bool) (e : Event)
    : bool :=
  match e with
  | CallUnsubscribe k =>
      match made !! k with
      | Some r => if sameRegistration cat cb r then false else registered
      | None => registered
      end
  | _ =>
      match subscriptionOf e with
      | Some r => if sameRegistration cat cb r then true else registered
      | None => registered
      end
  end.

(** What [e] owes a callback of category [cat]: the published event,
    once, if the callback is registered. *)
Definition owedBy (cat : Category) (registered : bool) (e : Event)
    : list JsArg :=
  match publishedBy e with
  | Some (c, event) =>
      if registered && bool_decide (c = cat) then [event] else []
  | None => []
  end.

(** Specification of the router: the events a callback is to receive over
    a history, given the subscriptions [made] before it and whether the
    callback is [registered] at its start.  It reads the history only. *)
Fixpoint expectedDeliveries (cat : Category) (cb : Callback)
    (made : list (Category * Callback)) (registered : bool)
    (events : list Event) : list JsArg :=
  match events with
  | [] => []
  | e :: rest =>
      owedBy cat registered e
      ++ expectedDeliveries cat cb (madeAfter made e)
           (registeredAfter cat cb made registered e) rest
  end.

(** The unsubscribe function a registration comes with. *)
Definition unsubscribeOf (r : Category * Callback) : M unit :=
  match fst r with
  | MessageCategory => unsubscribeFromMessages (snd r)
  | CallCategory => unsubscribeFromIncomingCalls (snd r)
  end.

(** The consumers hold exactly the unsubscribe functions of the
    subscriptions made, and no set holds a callback twice. *)
Definition tracks (made : list (Category * Callback)) (c : Client) : Prop :=
  handles c = map unsubscribeOf made
  /\ forall cat, NoDup (subscribersOf cat (world c)).

(** *** Sample inputs *)

(** Callback 1 throws on every event; the others return. *)
Definition sampleBehaviour : Callback -> JsArg -> Completion unit :=
  fun callback _ =>
    if Nat.eqb callback 1 then Throw (Err "boom") else Normal tt.

Definition samplePayload : Obj :=
  <["callId" := PStr "c1"]> (<["callerId" := PStr "u7"]> ∅).

(** Two subscribers in each category, no socket yet. *)
Definition sampleWorld : World :=
  setCallSubscribers [1; 2] (setMessageSubscribers [1; 3] initial).

(** An Android phone in the foreground with the microphone granted. *)
Definition grantedDevice : Device :=
  {| OS := android; currentState := active;
     PermissionsAndroid_check := Normal true;
     PermissionsAndroid_request := Normal granted;
     check := Normal GRANTED; request := Normal GRANTED |}.

(** An iPhone in the background whose user refuses the microphone. *)
Definition deniedDevice : Device :=
  {| OS := ios; currentState := background;
     PermissionsAndroid_check := Normal false;
     PermissionsAndroid_request := Normal denied;
     check := Normal DENIED; request := Normal BLOCKED |}.

(** An Android phone whose permission check rejects. *)
Definition failingDevice : Device :=
  {| OS := android; currentState := active;
     PermissionsAndroid_check := Throw (Err "check failed");
     PermissionsAndroid_request := Normal denied;
     check := Normal DENIED; request := Normal DENIED |}.

(** ** Further vocabulary: histories of the provider *)

(** The unread counter a history leads to, read off the history alone:
    a message event and [addUnreadMessage] add one, [clearUnreadMessages]
    resets, nothing else counts. *)
Fixpoint unreadAfter (count : N) (events : list Event) : N :=
  match events with
  | [] => count
  | OnReceiveMessage _ :: rest => unreadAfter (count + 1) rest
  | CallAddUnreadMessage :: rest => unreadAfter (count + 1) rest
  | CallClearUnreadMessages :: rest => unreadAfter 0 rest
  | _ :: rest => unreadAfter count rest
  end.

Definition isConnectEvent (e : Event) : bool :=
  match e with
  | OnConnect _ => true
  | _ => false
  end.

(** The [socket.emit] calls made through the public interface: every
    emit but the offline-backlog request of the connect timer. *)
Definition sent (tr : list Effect) : list (string * list JsVal) :=
  List.filter (fun ea => negb (String.eqb (fst ea) "get_offline_messages"))
              (emitted tr).

(** The provider's cells other than the trace, the clock and the
    timers. *)
Definition cells (w : World)
    : option Socket * bool * N * JsSet.t * JsSet.t :=
  (socketRef w, isConnected w, unreadMessageCount w,
   messageSubscribersRef w, callSubscribersRef w).

(** The check grants, or it resolves without the permission and the
    request grants. *)
Definition permissionGranted (d : Device) : bool :=
  match OS d with
  | android =>
      match PermissionsAndroid_check d, PermissionsAndroid_request d with
      | Normal true, _ => true
      | Normal false, Normal granted => true
      | _, _ => false
      end
  | _ =>
      match check d, request d with
      | Normal s, r =>
          isGranted s
          || match r with
             | Normal s' => isGranted s'
             | Throw _ => false
             end
      | Throw _, _ => false
      end
  end.

(** The check resolves and does not grant. *)
Definition checkRefused (d : Device) : bool :=
  match OS d with
  | android =>
      match PermissionsAndroid_check d with
      | Normal b => negb b
      | Throw _ => false
      end
  | _ =>
      match check d with
      | Normal s => negb (isGranted s)
      | Throw _ => false
      end
  end.

Definition permissionChecks (tr : list Effect) : nat :=
  length (List.filter
            (fun e => match e with PermissionCheck => true | _ => false end)
            tr).

Definition permissionRequests (tr : list Effect) : nat :=
  length (List.filter
            (fun e => match e with PermissionRequest => true | _ => false end)
            tr).

(** The payloads handed to the local notification service. *)
Definition notifications (tr : list Effect) : list JsArg :=
  omap (fun e =>
          match e with
          | ShowIncomingCallNotification callData => Some callData
          | _ => None
          end) tr.

(** The sockets [connect()] was called on. *)
Definition connects (tr : list Effect) : list nat :=
  omap (fun e =>
          match e with
          | SocketConnect sock => Some sock
          | _ => None
          end) tr.

(** The sockets [disconnect()] was called on. *)
Definition disconnects (tr : list Effect) : list nat :=
  omap (fun e =>
          match e with
          | SocketDisconnect sock => Some sock
          | _ => None
          end) tr.

Definition isIOS (d : Device) : bool :=
  match OS d with
  | ios => true
  | _ => false
  end.

Definition isActive (d : Device) : bool :=
  match currentState d with
  | active => true
  | _ => false
  end.

(** ** Values shared by the screens and services *)

From Stdlib Require Import DecimalString.
From Stdlib Require DecimalFacts DecimalPos DecimalN.

(** Truthiness of a property value ([undefined] when the key is missing). *)
Definition truthyPrim (p : option JsPrim) : bool :=
  match p with
  | Some (PBool b) => b
  | Some (PNum z) => negb (Z.eqb z 0)
  | Some (PStr EmptyString) => false
  | Some (PStr _) => true
  | _ => false
  end.

(** [s.split(sep).pop()]: what follows the last separator; [current] is
    the piece being read. *)
Fixpoint lastPiece (sep : ascii) (current s : string) : string :=
  match s with
  | EmptyString => current
  | String c rest =>
      if Ascii.eqb c sep then lastPiece sep EmptyString rest
      else lastPiece sep (current +:+ String c EmptyString) rest
  end.

(** [toLowerCase] of one code unit below 256: the letters A to Z and the
    capital letters of Latin-1. *)
Definition lowerUnit (c : ascii) : ascii :=
  let n := nat_of_ascii c in
  if ((65 <=? n) && (n <=? 90)
      || (192 <=? n) && (n <=? 222) && negb (n =? 215))%nat
  then ascii_of_nat (n + 32)
  else c.

Fixpoint toLowerCase (s : string) : string :=
  match s with
  | EmptyString => EmptyString
  | String c rest => String (lowerUnit c) (toLowerCase rest)
  end.

(** [s.includes(pattern)] *)
Fixpoint includes (s pattern : string) : bool :=
  String.prefix pattern s
  || match s with
     | EmptyString => false
     | String _ rest => includes rest pattern
     end.

(** The number in a template string. *)
Definition decimal (z : Z) : string := NilZero.string_of_int (Z.to_int z).

(** ** The login screen *)

(** [AuthScreen]: the two field validators, the login handler and the
    text-change handlers.  Strings are sequences of code units.  The
    collaborators that are not among the sources ([useAuth().login], the
    push-notification services, [getNavigationFlow], the endpoint
    constants of [config/api]) enter as parameters: what they return or
    throw is given by an [Environment]. *)
Module AuthScreen.

(** The validation messages (four string literals in the source). *)
Inductive ValidationMessage : Type :=
| EnterPhoneNumber
| InvalidPhoneNumber
| EnterInviteCode
| MalformedInviteCode.

(** [errors]: both keys are optional. *)
Record Errors : Type := mkErrors {
  errors_phoneNumber : option ValidationMessage;
  errors_inviteCode : option ValidationMessage
}.

Record State : Type := mkState {
  phoneNumber : string;
  inviteCode : string;
  errors : Errors;
  loading : bool
}.

(** The [useState] initial values. *)
Definition initialState : State :=
  {| phoneNumber := ""; inviteCode := "6969";
     errors := {| errors_phoneNumber := None; errors_inviteCode := None |};
     loading := false |}.

(** *** The pattern [/^1\d{10}$/] *)

(** What the pattern is made of: a literal character, or [\d]. *)
Inductive Atom : Type :=
| Lit (c : ascii)
| Digit.

(** [\d] without the unicode flag: the ten ASCII digits. *)
Definition isDigit (c : ascii) : bool :=
  (48 <=? nat_of_ascii c)%nat && (nat_of_ascii c <=? 57)%nat.

Definition atomMatches (a : Atom) (c : ascii) : bool :=
  match a with
  | Lit x => Ascii.eqb x c
  | Digit => isDigit c
  end.

(** [/^atoms$/.test(s)]: anchored at both ends (no [m] flag), one code
    unit per atom. *)
Fixpoint test (atoms : list Atom) (s : string) : bool :=
  match atoms, s with
  | [], EmptyString => true
  | a :: atoms', String c s' => atomMatches a c && test atoms' s'
  | _, _ => false
  end.

Definition phonePattern : list Atom := Lit "1" :: repeat Digit 10.

(** *** What the screen does to the outside *)

Inductive Endpoint : Type := CUSTOMER_SERVICE_LOGIN | USER_LOGIN.

Inductive Route : Type :=
| MainTabs
| Permissions (phoneNumber inviteCode : string)
| UserAgreement
| PrivacyPolicy.

(** The text of the failure alert. *)
Inductive AlertText : Type :=
| ServerMessage (message : JsPrim)
| LoginFailedRetry
| NetworkFailure (message : string).

Inductive Action : Type :=
| Post (endpoint : Endpoint) (phoneNumber password inviteCode : string)
| Login (token : option JsPrim) (userData : Obj)
| ConfigurePushNotifications
| RequestPushPermissions
| LogPushFailure
| ResetTo (route : Route)
| Navigate (route : Route)
| AlertLoginFailed (text : AlertText).

(** The body of an answer, [response.data]: a flat object, or a value
    that is not an object.  For an answer without a body axios gives the
    empty string; for the JSON text [null] it gives [null]. *)
Inductive Body : Type :=
| ObjectBody (o : Obj)
| PlainBody (p : JsPrim).

(** A thrown value: an axios error, with the body of [error.response]
    when the server answered, or any other error. *)
Inductive Thrown : Type :=
| AxiosError (message : string) (response : option Body)
| OtherError (message : string).

Inductive Outcome (A : Type) : Type :=
| Returned (a : A)
| Raised (e : Thrown).
Arguments Returned {A} a.
Arguments Raised {A} e.

(** What the collaborators answer during one login. *)
Record Environment : Type := mkEnvironment {
  OS : Platform;
  post : Outcome Body;
  login : Outcome unit;
  configurePushNotificationsAfterLogin : Outcome unit;
  requestPermissionsAfterLogin : Outcome unit;
  afterLogin : string
}.

(** The component state and what has been done so far. *)
Record Screen : Type := mkScreen {
  state : State;
  actions : list Action
}.

Definition Step (A : Type) : Type := Screen -> Screen * Outcome A.

#[global] Instance Step_ret : MRet Step := fun A a s => (s, Returned a).

#[global] Instance Step_bind : MBind Step := fun A B k m s =>
  match m s with
  | (s1, Returned a) => k a s1
  | (s1, Raised e) => (s1, Raised e)
  end.

Definition act (a : Action) : Step unit :=
  fun s => ({| state := state s; actions := actions s ++ [a] |}, Returned tt).

Definition awaiting {A : Type} (o : Outcome A) : Step A := fun s => (s, o).

Definition raise {A : Type} (e : Thrown) : Step A := fun s => (s, Raised e).

Definition attempt {A : Type} (body : Step A) (handler : Thrown -> Step A)
    : Step A :=
  fun s =>
    match body s with
    | (s1, Returned a) => (s1, Returned a)
    | (s1, Raised e) => handler e s1
    end.

(** [setErrors(updater)] *)
Definition setErrors (f : Errors -> Errors) : Step unit :=
  fun s =>
    ({| state := {| phoneNumber := phoneNumber (state s);
                    inviteCode := inviteCode (state s);
                    errors := f (errors (state s));
                    loading := loading (state s) |};
        actions := actions s |}, Returned tt).

Definition setLoading (b : bool) : Step unit :=
  fun s =>
    ({| state := {| phoneNumber := phoneNumber (state s);
                    inviteCode := inviteCode (state s);
                    errors := errors (state s);
                    loading := b |};
        actions := actions s |}, Returned tt).

Definition setPhoneNumber (text : string) : Step unit :=
  fun s =>
    ({| state := {| phoneNumber := text;
                    inviteCode := inviteCode (state s);
                    errors := errors (state s);
                    loading := loading (state s) |};
        actions := actions s |}, Returned tt).

Definition setInviteCode (text : string) : Step unit :=
  fun s =>
    ({| state := {| phoneNumber := phoneNumber (state s);
                    inviteCode := text;
                    errors := errors (state s);
                    loading := loading (state s) |};
        actions := actions s |}, Returned tt).

(** [{...prev, phoneNumber: m}] *)
Definition withPhoneError (m : option ValidationMessage) (prev : Errors)
    : Errors :=
  {| errors_phoneNumber := m; errors_inviteCode := errors_inviteCode prev |}.

(** [{...prev, inviteCode: m}] *)
Definition withInviteError (m : option ValidationMessage) (prev : Errors)
    : Errors :=
  {| errors_phoneNumber := errors_phoneNumber prev; errors_inviteCode := m |}.

(** [validatePhone], for the [phoneNumber] its closure holds. *)
Definition validatePhone (phoneNumber : string) : Step bool :=
  match phoneNumber with
  | EmptyString =>
      setErrors (withPhoneError (Some EnterPhoneNumber)) ;; mret false
  | _ =>
      if negb (test phonePattern phoneNumber) then
        setErrors (withPhoneError (Some InvalidPhoneNumber)) ;; mret false
      else
        setErrors (withPhoneError None) ;; mret true
  end.

(** [validateInviteCode], for the [inviteCode] its closure holds. *)
Definition validateInviteCode (inviteCode : string) : Step bool :=
  match inviteCode with
  | EmptyString =>
      setErrors (withInviteError (Some EnterInviteCode)) ;; mret false
  | _ =>
      if (String.length inviteCode <? 4)%nat then
        setErrors (withInviteError (Some MalformedInviteCode)) ;; mret false
      else
        setErrors (withInviteError None) ;; mret true
  end.

(** Reading a property of [undefined]. *)
Definition typeError : Thrown := OtherError "TypeError".

Definition messageOf (e : Thrown) : string :=
  match e with
  | AxiosError message _ => message
  | OtherError message => message
  end.

(** [body.key], for a key that is a name (not [length], not an index):
    reading a property of [null] or [undefined] throws; a value that is
    not an object has no such property. *)
Definition named (body : Body) (key : string) : Outcome (option JsPrim) :=
  match body with
  | ObjectBody o => Returned (o !! key)
  | PlainBody PUndefined | PlainBody PNull => Raised typeError
  | PlainBody _ => Returned None
  end.

(** The characters of a string under their indices, from index [i]. *)
Fixpoint characters (i : nat) (s : string) : Obj :=
  match s with
  | EmptyString => ∅
  | String c rest =>
      <[decimal (Z.of_nat i) := PStr (String c EmptyString)]>
        (characters (S i) rest)
  end.

(** [{...body}]: the own enumerable properties; a string spreads its
    characters, any other value that is not an object spreads nothing. *)
Definition spreadBody (body : Body) : Obj :=
  match body with
  | ObjectBody o => o
  | PlainBody (PStr s) => characters 0 s
  | PlainBody _ => ∅
  end.

(** The [catch] block of [handleLogin]. *)
Definition loginFailed (error : Thrown) : Step unit :=
  setLoading false ;;
  match error with
  | AxiosError _ (Some errorResponse) =>
      message ← awaiting (named errorResponse "message");
      act (AlertLoginFailed
             (if truthyPrim message
              then ServerMessage (default PUndefined message)
              else LoginFailedRetry))
  | _ => act (AlertLoginFailed (NetworkFailure (messageOf error)))
  end.

(** The [if (Platform.OS === 'ios')] block after a successful login. *)
Definition configurePush (env : Environment) : Step unit :=
  match OS env with
  | ios =>
      attempt
        (act ConfigurePushNotifications ;;
         awaiting (configurePushNotificationsAfterLogin env) ;;
         act RequestPushPermissions ;;
         awaiting (requestPermissionsAfterLogin env))
        (fun _ => act LogPushFailure)
  | _ => mret tt
  end.

(** [handleLogin], for the field values its closure holds. *)
Definition handleLogin (env : Environment) (phoneNumber inviteCode : string)
    : Step unit :=
  validPhone ← validatePhone phoneNumber;
  if negb validPhone then mret tt
  else
    validCode ← validateInviteCode inviteCode;
    if negb validCode then mret tt
    else
      setLoading true ;;
      attempt
        (let isCustomerService := String.eqb inviteCode "1332" in
         let loginEndpoint :=
           if isCustomerService then CUSTOMER_SERVICE_LOGIN else USER_LOGIN in
         act (Post loginEndpoint phoneNumber "1332" inviteCode) ;;
         data ← awaiting (post env);
         token ← awaiting (named data "token");
         act (Login token
                (<["userType" :=
                     PStr (if isCustomerService then "customerService"
                           else "user")]> (spreadBody data))) ;;
         awaiting (login env) ;;
         setLoading false ;;
         configurePush env ;;
         if isCustomerService then act (ResetTo MainTabs)
         else if String.eqb (afterLogin env) "MainTabs"
              then act (ResetTo MainTabs)
              else act (Navigate (Permissions phoneNumber inviteCode)))
        loginFailed.

(** The button's [onPress]: the handler of the current render. *)
Definition pressLogin (env : Environment) : Step unit :=
  fun s => handleLogin env (phoneNumber (state s)) (inviteCode (state s)) s.

(** [onChangeText] of the phone field: the handler of the current render
    stores the text and, if a phone error is shown, calls that render's
    [validatePhone]. *)
Definition changePhoneText (text : string) : Step unit :=
  fun s =>
    (setPhoneNumber text ;;
     match errors_phoneNumber (errors (state s)) with
     | Some _ => validatePhone (phoneNumber (state s)) ;; mret tt
     | None => mret tt
     end) s.

(** [onChangeText] of the invite-code field. *)
Definition changeInviteCodeText (text : string) : Step unit :=
  fun s =>
    (setInviteCode text ;;
     match errors_inviteCode (errors (state s)) with
     | Some _ => validateInviteCode (inviteCode (state s)) ;; mret tt
     | None => mret tt
     end) s.

Definition handleUserAgreementPress : Step unit :=
  act (Navigate UserAgreement).

Definition handlePrivacyPolicyPress : Step unit :=
  act (Navigate PrivacyPolicy).

End AuthScreen.

(** *** Vocabulary of the statements about the login screen *)

Definition decimalDigits : list ascii := list_ascii_of_string "0123456789".

(** A mobile number as the statements describe it: the digit [1] followed
    by exactly ten decimal digits. *)
Definition mainlandNumber (p : string) : Prop :=
  exists rest,
    p = String "1" rest /\ String.length rest = 10%nat /\
    Forall (fun c => In c decimalDigits) (list_ascii_of_string rest).

(** The message under the phone field once a value has been validated. *)
Definition phoneVerdict (p : string) : option AuthScreen.ValidationMessage :=
  match p with
  | EmptyString => Some AuthScreen.EnterPhoneNumber
  | _ =>
      if AuthScreen.test AuthScreen.phonePattern p then None
      else Some AuthScreen.InvalidPhoneNumber
  end.

(** The message under the invite-code field once a value has been
    validated. *)
Definition inviteVerdict (c : string) : option AuthScreen.ValidationMessage :=
  match c with
  | EmptyString => Some AuthScreen.EnterInviteCode
  | _ =>
      if (String.length c <? 4)%nat then Some AuthScreen.MalformedInviteCode
      else None
  end.

(** What one run of a handler did, in order. *)
Definition performed {A : Type} (m : AuthScreen.Step A)
    (s : AuthScreen.Screen) : list AuthScreen.Action :=
  drop (length (AuthScreen.actions s)) (AuthScreen.actions (fst (m s))).

Definition posts (l : list AuthScreen.Action) : list AuthScreen.Action :=
  List.filter
    (fun a => match a with AuthScreen.Post _ _ _ _ => true | _ => false end)
    l.

Definition logins (l : list AuthScreen.Action) : list AuthScreen.Action :=
  List.filter
    (fun a => match a with AuthScreen.Login _ _ => true | _ => false end) l.

Definition navigations (l : list AuthScreen.Action)
    : list AuthScreen.Action :=
  List.filter
    (fun a =>
       match a with
       | AuthScreen.ResetTo _ | AuthScreen.Navigate _ => true
       | _ => false
       end) l.

Definition loginAlerts (l : list AuthScreen.Action)
    : list AuthScreen.AlertText :=
  omap
    (fun a =>
       match a with
       | AuthScreen.AlertLoginFailed text => Some text
       | _ => None
       end) l.

Definition pushSteps (l : list AuthScreen.Action) : list AuthScreen.Action :=
  List.filter
    (fun a =>
       match a with
       | AuthScreen.ConfigurePushNotifications
       | AuthScreen.RequestPushPermissions
       | AuthScreen.LogPushFailure => true
       | _ => false
       end) l.

(** The error that reaches the [catch] block of [handleLogin], if any:
    the request failed, its answer was [null] or [undefined], or saving
    the session failed. *)
Definition loginError (env : AuthScreen.Environment)
    : option AuthScreen.Thrown :=
  match AuthScreen.post env with
  | AuthScreen.Raised e => Some e
  | AuthScreen.Returned (AuthScreen.PlainBody PUndefined)
  | AuthScreen.Returned (AuthScreen.PlainBody PNull) =>
      Some AuthScreen.typeError
  | AuthScreen.Returned _ =>
      match AuthScreen.login env with
      | AuthScreen.Raised e => Some e
      | AuthScreen.Returned _ => None
      end
  end.

(** A screen on which nothing has been typed or done. *)
Definition freshScreen : AuthScreen.Screen :=
  {| AuthScreen.state := AuthScreen.initialState; AuthScreen.actions := [] |}.

Definition typed (p c : string) : AuthScreen.Screen :=
  {| AuthScreen.state :=
       {| AuthScreen.phoneNumber := p; AuthScreen.inviteCode := c;
          AuthScreen.errors := AuthScreen.errors AuthScreen.initialState;
          AuthScreen.loading := false |};
     AuthScreen.actions := [] |}.

Definition sampleEnvironment : AuthScreen.Environment :=
  {| AuthScreen.OS := ios;
     AuthScreen.post :=
       AuthScreen.Returned (AuthScreen.ObjectBody {["token" := PStr "t"]});
     AuthScreen.login := AuthScreen.Returned tt;
     AuthScreen.configurePushNotificationsAfterLogin :=
       AuthScreen.Raised (AuthScreen.OtherError "push");
     AuthScreen.requestPermissionsAfterLogin := AuthScreen.Returned tt;
     AuthScreen.afterLogin := "Permissions" |}.

(** A server that answers the login with the given outcome, on Android,
    where the session can be saved. *)
Definition answering (answer : AuthScreen.Outcome AuthScreen.Body)
    : AuthScreen.Environment :=
  {| AuthScreen.OS := android;
     AuthScreen.post := answer;
     AuthScreen.login := AuthScreen.Returned tt;
     AuthScreen.configurePushNotificationsAfterLogin :=
       AuthScreen.Returned tt;
     AuthScreen.requestPermissionsAfterLogin := AuthScreen.Returned tt;
     AuthScreen.afterLogin := "Permissions" |}.

(** A refusal with status 500 and no body: axios rejects with a response
    whose [data] is the empty string. *)
Definition refusedWithoutBody : AuthScreen.Environment :=
  answering
    (AuthScreen.Raised
       (AuthScreen.AxiosError "Request failed with status code 500"
          (Some (AuthScreen.PlainBody (PStr ""))))).

(** A refusal whose body is the JSON text [null]. *)
Definition refusedWithNull : AuthScreen.Environment :=
  answering
    (AuthScreen.Raised
       (AuthScreen.AxiosError "Request failed with status code 500"
          (Some (AuthScreen.PlainBody PNull)))).

(** ** The upload service *)

(** [MediaUploadService]: the retry loop behind the three uploads.
    Numbers are integers and a timer fires when it is due.  The server is
    given by a [Network]: what the k-th health check and the k-th upload
    request answer, and how long each takes.  The progress callback is
    handed to axios and is not observed here.  The two loops are bounded
    by the clock and by the attempt counter; their embeddings count
    iterations down from a bound computed from the same numbers and stop
    with [OutOfFuel] if the bound were ever too small. *)
Module MediaUploadService.

Local Open Scope Z_scope.

(** An error as the service inspects it: [code], [response.status] and
    [message]; or one of the two errors the service throws itself, for an
    answer the loop does not accept and for an audio path it refuses. *)
Inductive UploadError : Type :=
| AxiosFailure (code : option string) (response : option Z)
    (message : string)
| BadStatus (status : Z)
| InvalidAudioPath.

Definition code (error : UploadError) : option string :=
  match error with
  | AxiosFailure c _ _ => c
  | _ => None
  end.

Definition response (error : UploadError) : option Z :=
  match error with
  | AxiosFailure _ r _ => r
  | _ => None
  end.

(** The texts of [UploadResult.error]. *)
Inductive ErrorText : Type :=
| NetworkUnavailable
| UnknownError
| UploadTimedOut
| NetworkFailed
| BadFile
| AuthenticationFailed
| FileTooLarge
| ServerInternalError
| ServerError (status : Z)
| OwnMessage (error : UploadError)
| UploadFailed
| VoiceProcessingFailed (error : UploadError)
| ImageProcessingFailed.

Record UploadResult : Type := mkUploadResult {
  success : bool;
  url : option JsPrim;
  filename : option JsPrim;
  error : option ErrorText;
  attempts : option Z
}.

Inductive FormValue : Type :=
| FilePart (uri type name : string)
| TextPart (value : string).

Definition FormData : Type := list (string * FormValue).

(** [UploadOptions]; [onRetry] is given by what the callback throws, if
    anything, when called with the attempt and the maximum. *)
Record UploadOptions : Type := mkUploadOptions {
  token : string;
  onRetry : option (Z -> Z -> option UploadError);
  maxRetries : option Z;
  timeout : option Z;
  retryDelay : option Z
}.

Inductive HealthAnswer : Type :=
| HealthStatus (status : Z)
| HealthFailed (error : UploadError).

Inductive PostAnswer : Type :=
| Responded (status : Z) (data : option Obj)
| Rejected (error : UploadError).

Record Network : Type := mkNetwork {
  healthAnswer : nat -> HealthAnswer;
  healthTime : nat -> N;
  postAnswer : nat -> PostAnswer;
  postTime : nat -> N
}.

Inductive Waiting : Type := NetworkPoll | Backoff.

Inductive Step : Type :=
| HealthCheck
| Upload (endpoint : string) (formData : FormData) (token : string)
    (timeout : Z)
| Sleep (why : Waiting) (ms : Z)
| RetryNotified (attempt maxAttempts : Z).

(** The clock, how many requests of each kind have been made, and what
    has been done, in order. *)
Record Service : Type := mkService {
  clock : Z;
  healthChecks : nat;
  uploads : nat;
  steps : list Step
}.

Inductive Outcome (A : Type) : Type :=
| Returned (a : A)
| Raised (error : UploadError)
| OutOfFuel.
Arguments Returned {A} a.
Arguments Raised {A} error.
Arguments OutOfFuel {A}.

Definition Run (A : Type) : Type := Service -> Service * Outcome A.

#[global] Instance Run_ret : MRet Run := fun A a s => (s, Returned a).

#[global] Instance Run_bind : MBind Run := fun A B k m s =>
  match m s with
  | (s1, Returned a) => k a s1
  | (s1, Raised e) => (s1, Raised e)
  | (s1, OutOfFuel) => (s1, OutOfFuel)
  end.

Definition raise {A : Type} (error : UploadError) : Run A :=
  fun s => (s, Raised error).

Definition tryCatch {A : Type} (body : Run A)
    (handler : UploadError -> Run A) : Run A :=
  fun s =>
    match body s with
    | (s1, Raised e) => handler e s1
    | other => other
    end.

(** [await new Promise(resolve => setTimeout(resolve, ms))] *)
Definition sleep (why : Waiting) (ms : Z) : Run unit :=
  fun s =>
    ({| clock := clock s + Z.max 0 ms;
        healthChecks := healthChecks s;
        uploads := uploads s;
        steps := steps s ++ [Sleep why ms] |}, Returned tt).

(** [await axios.get(health, { timeout: 5000 })], giving the status. *)
Definition getHealth (net : Network) : Run Z :=
  fun s =>
    let s1 :=
      {| clock := clock s + Z.of_N (healthTime net (healthChecks s));
         healthChecks := S (healthChecks s);
         uploads := uploads s;
         steps := steps s ++ [HealthCheck] |} in
    match healthAnswer net (healthChecks s) with
    | HealthStatus status => (s1, Returned status)
    | HealthFailed e => (s1, Raised e)
    end.

Definition checkNetworkConnection (net : Network) : Run bool :=
  tryCatch (status ← getHealth net; mret (Z.eqb status 200))
    (fun _ => mret false).

(** The [while] loop of [waitForNetwork]. *)
Fixpoint waitLoop (fuel : nat) (net : Network) (startTime maxWait : Z)
    : Run bool :=
  fun s =>
    if clock s - startTime <? maxWait then
      match fuel with
      | O => (s, OutOfFuel)
      | S fuel' =>
          (online ← checkNetworkConnection net;
           if negb online then
             sleep NetworkPoll 1000 ;; waitLoop fuel' net startTime maxWait
           else mret true) s
      end
    else (s, Returned false).

Definition waitForNetwork (net : Network) (maxWait : option Z) : Run bool :=
  let maxWait := default 30000 maxWait in
  fun s => waitLoop (Z.to_nat (maxWait / 1000 + 1)) net (clock s) maxWait s.

(** [await axios.post(url, formData, { headers, timeout, ... })], giving
    the status and the body. *)
Definition postUpload (net : Network) (endpoint : string)
    (formData : FormData) (token : string) (timeout : Z)
    : Run (Z * option Obj) :=
  fun s =>
    let s1 :=
      {| clock := clock s + Z.of_N (postTime net (uploads s));
         healthChecks := healthChecks s;
         uploads := S (uploads s);
         steps := steps s ++ [Upload endpoint formData token timeout] |} in
    match postAnswer net (uploads s) with
    | Responded status data => (s1, Returned (status, data))
    | Rejected e => (s1, Raised e)
    end.

(** [onRetry(attempts, maxRetries)] *)
Definition notifyRetry (callback : Z -> Z -> option UploadError)
    (attempt maxAttempts : Z) : Run unit :=
  fun s =>
    let s1 :=
      {| clock := clock s;
         healthChecks := healthChecks s;
         uploads := uploads s;
         steps := steps s ++ [RetryNotified attempt maxAttempts] |} in
    match callback attempt maxAttempts with
    | None => (s1, Returned tt)
    | Some e => (s1, Raised e)
    end.

(** [a || b] on property values. *)
Definition orElse (a b : option JsPrim) : option JsPrim :=
  if truthyPrim a then a else b.

Definition hasResponse (error : UploadError) : bool :=
  match response error with
  | Some _ => true
  | None => false
  end.

Definition hasCode (error : UploadError) (name : string) : bool :=
  match code error with
  | Some c => String.eqb c name
  | None => false
  end.

(** [error.code === 'ECONNABORTED' || error.code === 'NETWORK_ERROR' ||
    !error.response] *)
Definition isNetworkError (error : UploadError) : bool :=
  hasCode error "ECONNABORTED" || hasCode error "NETWORK_ERROR"
  || negb (hasResponse error).

Definition getErrorMessage (error : option UploadError) : ErrorText :=
  match error with
  | None => UnknownError
  | Some error =>
      if hasCode error "ECONNABORTED" then UploadTimedOut
      else if hasCode error "NETWORK_ERROR"
              || negb (hasResponse error)
      then NetworkFailed
      else
        match response error with
        | Some status =>
            if status =? 400 then BadFile
            else if status =? 401 then AuthenticationFailed
            else if status =? 413 then FileTooLarge
            else if status =? 500 then ServerInternalError
            else ServerError status
        | None =>
            match error with
            | AxiosFailure _ _ EmptyString => UploadFailed
            | _ => OwnMessage error
            end
        end
  end.

(** The [try] block of one attempt; it returns when the answer is
    accepted. *)
Definition tryUpload (net : Network) (endpoint : string)
    (formData : FormData) (token : string)
    (onRetry : option (Z -> Z -> option UploadError))
    (maxRetries timeout : Z) (attempts : Z) : Run UploadResult :=
  (if 1 <? attempts then
     match onRetry with
     | Some callback => notifyRetry callback attempts maxRetries
     | None => mret tt
     end
   else mret tt) ;;
  let currentTimeout := timeout + (attempts - 1) * 10000 in
  answer ← postUpload net endpoint formData token currentTimeout;
  match snd answer with
  | Some data =>
      if fst answer =? 200 then
        mret {| success := true;
                url := orElse (data !! "audioUrl")
                         (orElse (data !! "imageUrl") (data !! "videoUrl"));
                filename := data !! "fileName";
                error := None;
                attempts := Some attempts |}
      else raise (BadStatus (fst answer))
  | None => raise (BadStatus (fst answer))
  end.

(** The [catch] block of one attempt, after [lastError = error]. *)
Definition recover (net : Network) (maxRetries retryDelay : Z)
    (attempts : Z) (error : UploadError) : Run unit :=
  (if isNetworkError error then
     online ← checkNetworkConnection net;
     if negb online then waitForNetwork net (Some 10000) ;; mret tt
     else mret tt
   else mret tt) ;;
  if attempts <? maxRetries then
    sleep Backoff (retryDelay * 2 ^ (attempts - 1))
  else mret tt.

(** The [for] loop of [uploadWithRetry], from [attempts] on: [inl] is a
    [return] from inside the loop, [inr] the new [lastError]. *)
Fixpoint attemptLoop (fuel : nat) (net : Network) (endpoint : string)
    (formData : FormData) (token : string)
    (onRetry : option (Z -> Z -> option UploadError))
    (maxRetries timeout retryDelay : Z)
    (attempts : Z) (lastError : option UploadError) : Run UploadResult :=
  if attempts <=? maxRetries then
    match fuel with
    | O => fun s => (s, OutOfFuel)
    | S fuel' =>
        r ← tryCatch
              (result ← tryUpload net endpoint formData token onRetry
                          maxRetries timeout attempts;
               mret (inl result))
              (fun error =>
                 recover net maxRetries retryDelay attempts error ;;
                 mret (inr error));
        match r with
        | inl result => mret result
        | inr error =>
            attemptLoop fuel' net endpoint formData token onRetry
              maxRetries timeout retryDelay (attempts + 1) (Some error)
        end
    end
  else
    mret {| success := false; url := None; filename := None;
            error := Some (getErrorMessage lastError);
            attempts := Some attempts |}.

Definition uploadWithRetry (net : Network) (endpoint : string)
    (formData : FormData) (options : UploadOptions) : Run UploadResult :=
  let maxRetries := default 3 (maxRetries options) in
  let timeout := default 30000 (timeout options) in
  let retryDelay := default 2000 (retryDelay options) in
  let offline :=
    {| success := false; url := None; filename := None;
       error := Some NetworkUnavailable; attempts := Some 0 |} in
  let loop :=
    attemptLoop (Z.to_nat maxRetries) net endpoint formData
      (token options) (onRetry options) maxRetries timeout retryDelay 1
      None in
  online ← checkNetworkConnection net;
  if negb online then
    found ← waitForNetwork net None;
    if negb found then mret offline else loop
  else loop.

(** *** The voice and image uploads *)

(** [x || d] on an optional number. *)
Definition orNumber (x : option Z) (d : Z) : Z :=
  match x with
  | Some z => if z =? 0 then d else z
  | None => d
  end.

Definition processFileUri (uri : string) : string := uri.

(** [Date.now()] *)
Definition dateNow : Run Z := fun s => (s, Returned (clock s)).

(** The chain of [includes] tests of [performVoiceUpload]. *)
Definition voiceMimeType (fileName : string) : string :=
  let fileExtension := toLowerCase fileName in
  if includes fileExtension ".m4a" then "audio/m4a"
  else if includes fileExtension ".mp3" then "audio/mpeg"
  else if includes fileExtension ".wav" then "audio/wav"
  else if includes fileExtension ".aac" then "audio/aac"
  else if includes fileExtension ".mp4" then "audio/mp4"
  else "audio/mp3".

Definition performVoiceUpload (net : Network) (audioUri duration : string)
    (options : UploadOptions) : Run UploadResult :=
  tryCatch
    ((match audioUri with
      | EmptyString => raise InvalidAudioPath
      | _ =>
          if String.eqb audioUri "Already recording"
          then raise InvalidAudioPath
          else mret tt
      end : Run unit) ;;
     now ← dateNow;
     let fileName :=
       match lastPiece "/" EmptyString audioUri with
       | EmptyString => "voice_message_" +:+ decimal now +:+ ".mp3"
       | name => name
       end in
     let mimeType := voiceMimeType fileName in
     let formData :=
       ("audio", FilePart (processFileUri audioUri) mimeType fileName)
       :: match duration with
          | EmptyString => []
          | _ => [("duration", TextPart duration)]
          end in
     let voiceOptions :=
       {| token := token options;
          onRetry := onRetry options;
          maxRetries := Some (orNumber (maxRetries options) 5);
          timeout := Some (orNumber (timeout options) 30000);
          retryDelay := Some (orNumber (retryDelay options) 2000) |} in
     uploadWithRetry net "/api/upload/audio" formData voiceOptions)
    (fun error =>
       mret {| success := false; url := None; filename := None;
               error := Some (VoiceProcessingFailed error);
               attempts := None |}).

Definition performImageUpload (net : Network) (imageUri : string)
    (options : UploadOptions) : Run UploadResult :=
  tryCatch
    (let fileExt :=
       match lastPiece "." EmptyString imageUri with
       | EmptyString => "jpg"
       | ext => ext
       end in
     now ← dateNow;
     let fileName := "image_" +:+ decimal now +:+ "." +:+ fileExt in
     let formData :=
       [("image",
         FilePart (processFileUri imageUri) "image/jpeg" fileName)] in
     let imageOptions :=
       {| token := token options;
          onRetry := onRetry options;
          maxRetries := Some (orNumber (maxRetries options) 3);
          timeout := Some (orNumber (timeout options) 40000);
          retryDelay := retryDelay options |} in
     uploadWithRetry net "/api/upload/image" formData imageOptions)
    (fun _ =>
       mret {| success := false; url := None; filename := None;
               error := Some ImageProcessingFailed;
               attempts := None |}).

End MediaUploadService.

(** *** Vocabulary of the statements about the upload service *)

(** What one run did, in order. *)
Definition carriedOut {A : Type} (m : MediaUploadService.Run A)
    (s : MediaUploadService.Service) : list MediaUploadService.Step :=
  drop (length (MediaUploadService.steps s))
    (MediaUploadService.steps (fst (m s))).

(** The upload requests among some steps, with their timeouts. *)
Definition requests (l : list MediaUploadService.Step)
    : list (string * MediaUploadService.FormData * string * Z) :=
  omap
    (fun x =>
       match x with
       | MediaUploadService.Upload endpoint formData token timeout =>
           Some (endpoint, formData, token, timeout)
       | _ => None
       end) l.

(** The waits between two attempts. *)
Definition backoffs (l : list MediaUploadService.Step) : list Z :=
  omap
    (fun x =>
       match x with
       | MediaUploadService.Sleep MediaUploadService.Backoff ms => Some ms
       | _ => None
       end) l.

(** The calls of [onRetry]. *)
Definition retryNotices (l : list MediaUploadService.Step) : list (Z * Z) :=
  omap
    (fun x =>
       match x with
       | MediaUploadService.RetryNotified attempt maxAttempts =>
           Some (attempt, maxAttempts)
       | _ => None
       end) l.

(** Steps of the network checks: health requests and one-second polls. *)
Definition probing (l : list MediaUploadService.Step) : Prop :=
  Forall
    (fun x =>
       x = MediaUploadService.HealthCheck \/
       x = MediaUploadService.Sleep MediaUploadService.NetworkPoll 1000) l.

(** The body of an answer the loop accepts: status 200 with a body. *)
Definition accepted (a : MediaUploadService.PostAnswer) : option Obj :=
  match a with
  | MediaUploadService.Responded status (Some data) =>
      if (status =? 200)%Z then Some data else None
  | _ => None
  end.

(** The error an answer that is not accepted leaves in [lastError]. *)
Definition failureOf (a : MediaUploadService.PostAnswer)
    : MediaUploadService.UploadError :=
  match a with
  | MediaUploadService.Rejected e => e
  | MediaUploadService.Responded status _ =>
      MediaUploadService.BadStatus status
  end.

(** Among the [n] answers from request number [from] on, the first one
    that is accepted: how many answers precede it, and its body. *)
Fixpoint firstAccepted (net : MediaUploadService.Network) (from n : nat)
    : option (nat * Obj) :=
  match n with
  | O => None
  | S n' =>
      match accepted (MediaUploadService.postAnswer net from) with
      | Some data => Some (O, data)
      | None =>
          match firstAccepted net (S from) n' with
          | Some (i, data) => Some (S i, data)
          | None => None
          end
      end
  end.

(** [onRetry], if given, returns. *)
Definition quietRetries (options : MediaUploadService.UploadOptions)
    : Prop :=
  forall callback,
    MediaUploadService.onRetry options = Some callback ->
    forall attempt maxAttempts, callback attempt maxAttempts = None.

(** The check that opens [uploadWithRetry], and the wait that follows a
    failed check. *)
Definition networkFound (net : MediaUploadService.Network)
    : MediaUploadService.Run bool :=
  online ← MediaUploadService.checkNetworkConnection net;
  if negb online then MediaUploadService.waitForNetwork net None
  else mret true.

(** The result of an accepted answer. *)
Definition uploaded (data : Obj) (attempts : Z)
    : MediaUploadService.UploadResult :=
  {| MediaUploadService.success := true;
     MediaUploadService.url :=
       MediaUploadService.orElse (data !! "audioUrl")
         (MediaUploadService.orElse (data !! "imageUrl")
            (data !! "videoUrl"));
     MediaUploadService.filename := data !! "fileName";
     MediaUploadService.error := None;
     MediaUploadService.attempts := Some attempts |}.

(** The result of a failed upload. *)
Definition failed (text : MediaUploadService.ErrorText) (attempts : Z)
    : MediaUploadService.UploadResult :=
  {| MediaUploadService.success := false;
     MediaUploadService.url := None;
     MediaUploadService.filename := None;
     MediaUploadService.error := Some text;
     MediaUploadService.attempts := Some attempts |}.

(** A server that is reachable and rejects every upload with status 500;
    every request takes 100 ms. *)
Definition failingNetwork : MediaUploadService.Network :=
  {| MediaUploadService.healthAnswer :=
       fun _ => MediaUploadService.HealthStatus 200;
     MediaUploadService.healthTime := fun _ => 100%N;
     MediaUploadService.postAnswer :=
       fun _ => MediaUploadService.Rejected
                  (MediaUploadService.AxiosFailure None (Some 500%Z)
                     "Request failed");
     MediaUploadService.postTime := fun _ => 100%N |}.

(** A server that cannot be reached. *)
Definition unreachableNetwork : MediaUploadService.Network :=
  {| MediaUploadService.healthAnswer :=
       fun _ => MediaUploadService.HealthFailed
                  (MediaUploadService.AxiosFailure (Some "NETWORK_ERROR")
                     None "Network Error");
     MediaUploadService.healthTime := fun _ => 5000%N;
     MediaUploadService.postAnswer :=
       fun _ => MediaUploadService.Rejected
                  (MediaUploadService.AxiosFailure (Some "NETWORK_ERROR")
                     None "Network Error");
     MediaUploadService.postTime := fun _ => 100%N |}.

(** A server that accepts the third upload. *)
Definition recoveringNetwork : MediaUploadService.Network :=
  {| MediaUploadService.healthAnswer :=
       fun _ => MediaUploadService.HealthStatus 200;
     MediaUploadService.healthTime := fun _ => 100%N;
     MediaUploadService.postAnswer :=
       fun k =>
         if (k <? 2)%nat then
           MediaUploadService.Rejected
             (MediaUploadService.AxiosFailure (Some "ECONNABORTED") None
                "timeout")
         else
           MediaUploadService.Responded 200
             (Some {["audioUrl" := PStr "/uploads/a.m4a"]});
     MediaUploadService.postTime := fun _ => 100%N |}.

Definition defaultOptions : MediaUploadService.UploadOptions :=
  {| MediaUploadService.token := "t";
     MediaUploadService.onRetry := None;
     MediaUploadService.maxRetries := None;
     MediaUploadService.timeout := None;
     MediaUploadService.retryDelay := None |}.

Definition idleService : MediaUploadService.Service :=
  {| MediaUploadService.clock := 0;
     MediaUploadService.healthChecks := 0;
     MediaUploadService.uploads := 0;
     MediaUploadService.steps := [] |}.

(** The [onRetry] calls of [n] attempts in a row, the first of them being
    attempt number [attempt]: every attempt but the very first. *)
Fixpoint noticesFrom (maxAttempts attempt : Z) (n : nat) : list (Z * Z) :=
  match n with
  | O => []
  | S n' =>
      (if (1 <? attempt)%Z then [(attempt, maxAttempts)] else [])
      ++ noticesFrom maxAttempts (attempt + 1) n'
  end.

(** Where the upload requests among some steps went: endpoint, token and
    timeout of each. *)
Definition destinations (l : list MediaUploadService.Step)
    : list (string * string * Z) :=
  map (fun r => (r.1.1.1, r.1.2, r.2)) (requests l).

(** What the upload requests among some steps carried. *)
Definition forms (l : list MediaUploadService.Step)
    : list MediaUploadService.FormData :=
  map (fun r => r.1.1.2) (requests l).

(** The result of a voice upload that is refused before any request. *)
Definition refused : MediaUploadService.UploadResult :=
  {| MediaUploadService.success := false;
     MediaUploadService.url := None;
     MediaUploadService.filename := None;
     MediaUploadService.error :=
       Some (MediaUploadService.VoiceProcessingFailed
               MediaUploadService.InvalidAudioPath);
     MediaUploadService.attempts := None |}.

(** Options that ask for no retry, no timeout and no delay. *)
Definition zeroOptions : MediaUploadService.UploadOptions :=
  {| MediaUploadService.token := "t";
     MediaUploadService.onRetry := None;
     MediaUploadService.maxRetries := Some 0%Z;
     MediaUploadService.timeout := Some 0%Z;
     MediaUploadService.retryDelay := Some 0%Z |}.

(** ** The voice recorder *)

(** [useVoiceRecorder]: the record-back listener, [stopRecording] and
    [cancelRecording].  Positions are whole milliseconds.  Each callback
    is the one of the current render: it reads the state as it is when it
    is called.  The recorder, the file system and the caller's [onError]
    are given by an [Environment]; [OnError error] stands for
    [onError(error, message)], whose message is always the same text in
    [stopRecording]. *)
Module VoiceRecorder.

Record State : Type := mkState {
  isRecording : bool;
  recordTime : string;
  showPreview : bool;
  recordingUri : string;
  isPlaying : bool
}.

(** The [useState] initial values. *)
Definition initialState : State :=
  {| isRecording := false; recordTime := "00:00"; showPreview := false;
     recordingUri := ""; isPlaying := false |}.

(** A thrown value: one of the two errors [stopRecording] creates, or
    whatever a collaborator throws. *)
Inductive Thrown : Type :=
| RecordingSaveFailed
| RecordingFileMissing
| Foreign (message : string).

Inductive Action : Type :=
| StopRecorder
| RemoveRecordBackListener
| StopPulseAnimation
| FileExists (path : string)
| Unlink (path : string)
| AlertTooShort
| OnError (error : Thrown)
| StopPlayer.

Inductive Outcome (A : Type) : Type :=
| Returned (a : A)
| Raised (e : Thrown).
Arguments Returned {A} a.
Arguments Raised {A} e.

(** What the collaborators answer.  [stopRecorder] resolves with a
    string, or with a value that is not a string. *)
Record Environment : Type := mkEnvironment {
  stopRecorder : Outcome (option string);
  exists_ : string -> Outcome bool;
  unlink : string -> Outcome unit;
  stopPlayer : Outcome unit;
  onError : Outcome unit
}.

(** The hook's state and what has been done so far. *)
Record Hook : Type := mkHook {
  state : State;
  actions : list Action
}.

Definition Task (A : Type) : Type := Hook -> Hook * Outcome A.

#[global] Instance Task_ret : MRet Task := fun A a h => (h, Returned a).

#[global] Instance Task_bind : MBind Task := fun A B k m h =>
  match m h with
  | (h1, Returned a) => k a h1
  | (h1, Raised e) => (h1, Raised e)
  end.

Definition act (a : Action) : Task unit :=
  fun h => ({| state := state h; actions := actions h ++ [a] |}, Returned tt).

Definition awaiting {A : Type} (o : Outcome A) : Task A := fun h => (h, o).

Definition raise {A : Type} (e : Thrown) : Task A := fun h => (h, Raised e).

Definition attempt {A : Type} (body : Task A) (handler : Thrown -> Task A)
    : Task A :=
  fun h =>
    match body h with
    | (h1, Raised e) => handler e h1
    | other => other
    end.

Definition update (f : State -> State) : Task unit :=
  fun h => ({| state := f (state h); actions := actions h |}, Returned tt).

Definition setIsRecording (b : bool) : Task unit :=
  update (fun s =>
    {| isRecording := b; recordTime := recordTime s;
       showPreview := showPreview s; recordingUri := recordingUri s;
       isPlaying := isPlaying s |}).

Definition setRecordTime (t : string) : Task unit :=
  update (fun s =>
    {| isRecording := isRecording s; recordTime := t;
       showPreview := showPreview s; recordingUri := recordingUri s;
       isPlaying := isPlaying s |}).

Definition setShowPreview (b : bool) : Task unit :=
  update (fun s =>
    {| isRecording := isRecording s; recordTime := recordTime s;
       showPreview := b; recordingUri := recordingUri s;
       isPlaying := isPlaying s |}).

Definition setRecordingUri (uri : string) : Task unit :=
  update (fun s =>
    {| isRecording := isRecording s; recordTime := recordTime s;
       showPreview := showPreview s; recordingUri := uri;
       isPlaying := isPlaying s |}).

Definition setIsPlaying (b : bool) : Task unit :=
  update (fun s =>
    {| isRecording := isRecording s; recordTime := recordTime s;
       showPreview := showPreview s; recordingUri := recordingUri s;
       isPlaying := b |}).

(** [n < 10 ? '0' + n : n] inside the template string. *)
Definition twoDigits (n : Z) : string :=
  if (n <? 10)%Z then "0" +:+ decimal n else decimal n.

(** The text the record-back listener computes from
    [e.currentPosition]; [%] takes the sign of the dividend. *)
Definition formatRecordTime (currentPosition : Z) : string :=
  let seconds := (currentPosition / 1000)%Z in
  let minutes := (seconds / 60)%Z in
  let remainingSeconds := Z.rem seconds 60 in
  twoDigits minutes +:+ ":" +:+ twoDigits remainingSeconds.

(** The listener [startRecording] installs. *)
Definition recordBackListener (currentPosition : Z) : Task unit :=
  setRecordTime (formatRecordTime currentPosition).

(** [typeof result !== 'string' || result.includes('Already stopped') ||
    result.includes('error') || result.length < 10] *)
Definition invalidResult (result : option string) : bool :=
  match result with
  | None => true
  | Some path =>
      includes path "Already stopped" || includes path "error"
      || (String.length path <? 10)%nat
  end.

Definition stopRecording (env : Environment) : Task unit :=
  fun h =>
    attempt
      (if negb (isRecording (state h)) then mret tt
       else
         act StopRecorder ;;
         result ← awaiting (stopRecorder env);
         act RemoveRecordBackListener ;;
         setIsRecording false ;;
         act StopPulseAnimation ;;
         if invalidResult result then raise RecordingSaveFailed
         else
           let path := default EmptyString result in
           fileExists ← attempt
                          (act (FileExists path) ;;
                           awaiting (exists_ env path))
                          (fun _ => mret false);
           if negb fileExists then raise RecordingFileMissing
           else if String.eqb (recordTime (state h)) "00:00"
                   || String.eqb (recordTime (state h)) "0:00"
           then
             attempt (act (Unlink path) ;; awaiting (unlink env path))
               (fun _ => mret tt) ;;
             act AlertTooShort ;;
             setRecordTime "00:00" ;;
             setRecordingUri ""
           else setShowPreview true)
      (fun error =>
         act (OnError error) ;;
         awaiting (onError env) ;;
         setIsRecording false ;;
         setRecordTime "00:00" ;;
         setRecordingUri "" ;;
         act StopPulseAnimation) h.

Definition cancelRecording (env : Environment) : Task unit :=
  fun h =>
    attempt
      ((if isRecording (state h) then
          act StopRecorder ;;
          awaiting (stopRecorder env) ;;
          act RemoveRecordBackListener ;;
          setIsRecording false ;;
          act StopPulseAnimation
        else mret tt) ;;
       (match recordingUri (state h) with
        | EmptyString => mret tt
        | uri =>
            attempt (act (Unlink uri) ;; awaiting (unlink env uri))
              (fun _ => mret tt)
        end) ;;
       setShowPreview false ;;
       setRecordingUri "" ;;
       setRecordTime "00:00" ;;
       setIsPlaying false ;;
       attempt (act StopPlayer ;; awaiting (stopPlayer env))
         (fun _ => mret tt))
      (fun _ => mret tt) h.

End VoiceRecorder.

(** *** Vocabulary of the statements about the voice recorder *)

(** What one run of a callback did, in order. *)
Definition recorded {A : Type} (m : VoiceRecorder.Task A)
    (h : VoiceRecorder.Hook) : list VoiceRecorder.Action :=
  drop (length (VoiceRecorder.actions h)) (VoiceRecorder.actions (fst (m h))).

(** The errors handed to [onError]. *)
Definition reported (l : list VoiceRecorder.Action)
    : list VoiceRecorder.Thrown :=
  omap
    (fun a =>
       match a with
       | VoiceRecorder.OnError e => Some e
       | _ => None
       end) l.

(** The files the hook asked to delete. *)
Definition deleted (l : list VoiceRecorder.Action) : list string :=
  omap
    (fun a =>
       match a with
       | VoiceRecorder.Unlink path => Some path
       | _ => None
       end) l.

(** How often the "too short" alert was shown. *)
Definition tooShortAlerts (l : list VoiceRecorder.Action) : nat :=
  length
    (List.filter
       (fun a =>
          match a with
          | VoiceRecorder.AlertTooShort => true
          | _ => false
          end) l).

(** How often the recorder was told to stop. *)
Definition recorderStops (l : list VoiceRecorder.Action) : nat :=
  length
    (List.filter
       (fun a =>
          match a with
          | VoiceRecorder.StopRecorder => true
          | _ => false
          end) l).

(** What becomes of a recording that is being stopped: it is kept for the
    preview, discarded as too short, or lost to an error. *)
Inductive Verdict : Type :=
| Kept (path : string)
| TooShort (path : string)
| Lost (error : VoiceRecorder.Thrown).

(** The verdict, read from what the recorder and the file system answer
    and from the time shown. *)
Definition verdict (env : VoiceRecorder.Environment) (time : string)
    : Verdict :=
  match VoiceRecorder.stopRecorder env with
  | VoiceRecorder.Raised e => Lost e
  | VoiceRecorder.Returned None => Lost VoiceRecorder.RecordingSaveFailed
  | VoiceRecorder.Returned (Some path) =>
      if VoiceRecorder.invalidResult (Some path)
      then Lost VoiceRecorder.RecordingSaveFailed
      else
        match VoiceRecorder.exists_ env path with
        | VoiceRecorder.Returned true =>
            if String.eqb time "00:00" || String.eqb time "0:00"
            then TooShort path
            else Kept path
        | _ => Lost VoiceRecorder.RecordingFileMissing
        end
  end.

(** A recorder whose file is in place but cannot be deleted. *)
Definition stubbornFiles : VoiceRecorder.Environment :=
  {| VoiceRecorder.stopRecorder :=
       VoiceRecorder.Returned (Some "/data/cache/sound.m4a");
     VoiceRecorder.exists_ := fun _ => VoiceRecorder.Returned true;
     VoiceRecorder.unlink :=
       fun _ => VoiceRecorder.Raised (VoiceRecorder.Foreign "EBUSY");
     VoiceRecorder.stopPlayer :=
       VoiceRecorder.Raised (VoiceRecorder.Foreign "no player");
     VoiceRecorder.onError := VoiceRecorder.Returned tt |}.

(** A hook that is recording, with the given time shown. *)
Definition recordingFor (time : string) : VoiceRecorder.Hook :=
  {| VoiceRecorder.state :=
       {| VoiceRecorder.isRecording := true;
          VoiceRecorder.recordTime := time;
          VoiceRecorder.showPreview := false;
          VoiceRecorder.recordingUri := "/data/cache/sound.m4a";
          VoiceRecorder.isPlaying := false |};
     VoiceRecorder.actions := [] |}.

(** ** Basic facts *)

Lemma prefix_app (p rest : string) : String.prefix p (p +:+ rest) = true.
Proof.
  induction p as [|c p IH].
  - destruct rest; reflexivity.
  - change (String.prefix (String c p) (String c (p +:+ rest)) = true).
    simpl. destruct (Ascii.ascii_dec c c) as [_|n]; [exact IH | congruence].
Qed.

Lemma prefix_split (p s : string) :
  String.prefix p s = true -> s = p +:+ JsString.substring (String.length p) s.
Proof.
  revert s. induction p as [|c p IH]; intros s H.
  - reflexivity.
  - destruct s as [|d s]; simpl in H; [discriminate|].
    destruct (Ascii.ascii_dec c d) as [Hcd|_]; [|discriminate].
    subst d.
    change (String c s
            = String c (p +:+ JsString.substring (String.length p) s)).
    f_equal. apply IH. exact H.
Qed.

Lemma substring_app (p rest : string) :
  JsString.substring (String.length p) (p +:+ rest) = rest.
Proof. induction p as [|c p IH]; [reflexivity | exact IH]. Qed.

Lemma logs_nil (w : World) : logs [] w = w.
Proof. destruct w; unfold logs; simpl. by rewrite app_nil_r. Qed.

Lemma log_logs (e : Effect) (es : list Effect) (w : World) :
  logs es (log e w) = logs (e :: es) w.
Proof. unfold logs, log; simpl. by rewrite <- app_assoc. Qed.

Lemma logs_logs (es1 es2 : list Effect) (w : World) :
  logs es2 (logs es1 w) = logs (es1 ++ es2) w.
Proof. unfold logs; simpl. by rewrite <- app_assoc. Qed.

Lemma log_is_logs (e : Effect) (w : World) : log e w = logs [e] w.
Proof. reflexivity. Qed.

Lemma produced_of_trace {A : Type} (m : M A) (w : World) (es : list Effect) :
  trace (exec m w) = trace w ++ es -> produced m w = es.
Proof. intros H. unfold produced. rewrite H. apply drop_app_length. Qed.

Lemma produced_logs {A : Type} (m : M A) (w : World) (es : list Effect) :
  exec m w = logs es w -> produced m w = es.
Proof. intros H. apply produced_of_trace. by rewrite H. Qed.

Lemma calls_app (cat : Category) (t1 t2 : list Effect) :
  calls cat (t1 ++ t2) = calls cat t1 ++ calls cat t2.
Proof. apply omap_app. Qed.

Lemma deliveries_app (cat : Category) (cb : Callback) (t1 t2 : list Effect) :
  deliveries cat cb (t1 ++ t2) = deliveries cat cb t1 ++ deliveries cat cb t2.
Proof. unfold deliveries. by rewrite calls_app, omap_app. Qed.

Lemma loggedErrors_app (site : LogSite) (t1 t2 : list Effect) :
  loggedErrors site (t1 ++ t2) = loggedErrors site t1 ++ loggedErrors site t2.
Proof. apply omap_app. Qed.

Lemma alerts_app (t1 t2 : list Effect) :
  alerts (t1 ++ t2) = alerts t1 + alerts t2.
Proof. unfold alerts. by rewrite List.filter_app, length_app. Qed.

Lemma permissionCalls_app (t1 t2 : list Effect) :
  permissionCalls (t1 ++ t2) = permissionCalls t1 + permissionCalls t2.
Proof. unfold permissionCalls. by rewrite List.filter_app, length_app. Qed.

Lemma emitted_app (t1 t2 : list Effect) :
  emitted (t1 ++ t2) = emitted t1 ++ emitted t2.
Proof. apply omap_app. Qed.

Lemma offlineRequests_app (t1 t2 : list Effect) :
  offlineRequests (t1 ++ t2) = offlineRequests t1 + offlineRequests t2.
Proof.
  unfold offlineRequests.
  by rewrite emitted_app, List.filter_app, length_app.
Qed.

(** *** The guarded dispatch loop *)

Section Dispatch.

Variable behaviour : Callback -> JsArg -> Completion unit.
Variables (cat : Category) (site : LogSite) (arg : JsArg).

Lemma dispatchEffects_cons (callback : Callback) (rest : JsSet.t) :
  dispatchEffects behaviour cat site arg (callback :: rest)
  = iterationEffects behaviour cat site arg callback
    ++ dispatchEffects behaviour cat site arg rest.
Proof. reflexivity. Qed.

Lemma guarded_run (callback : Callback) (w : World) :
  guarded behaviour cat site arg callback w
  = (logs (iterationEffects behaviour cat site arg callback) w, Normal tt).
Proof.
  unfold guarded, tryCatch, invoke, iterationEffects, effect, await,
    mbind, M_bind.
  destruct (behaviour callback arg) as [[]|error]; [reflexivity|].
  by rewrite (log_is_logs (ConsoleError _ _)), log_logs.
Qed.

Lemma forEach_guarded (subscribers : JsSet.t) (w : World) :
  forEach (guarded behaviour cat site arg) subscribers w
  = (logs (dispatchEffects behaviour cat site arg subscribers) w, Normal tt).
Proof.
  revert w. induction subscribers as [|callback rest IH]; intros w.
  - simpl. by rewrite logs_nil.
  - change (forEach (guarded behaviour cat site arg) (callback :: rest) w)
      with (mbind (fun _ => forEach (guarded behaviour cat site arg) rest)
                  (guarded behaviour cat site arg callback) w).
    unfold mbind, M_bind. rewrite guarded_run, IH.
    by rewrite logs_logs.
Qed.

Lemma calls_dispatchEffects (subscribers : JsSet.t) :
  calls cat (dispatchEffects behaviour cat site arg subscribers)
  = map (fun callback => (callback, arg)) subscribers.
Proof.
  induction subscribers as [|callback rest IH]; [reflexivity|].
  rewrite dispatchEffects_cons, calls_app, IH.
  unfold iterationEffects, calls at 1. simpl.
  destruct (decide (cat = cat)) as [_|n]; [|congruence].
  by destruct (behaviour callback arg).
Qed.

Lemma loggedErrors_dispatchEffects (subscribers : JsSet.t) :
  loggedErrors site (dispatchEffects behaviour cat site arg subscribers)
  = omap (fun callback =>
            match behaviour callback arg with
            | Normal _ => None
            | Throw error => Some error
            end) subscribers.
Proof.
  induction subscribers as [|callback rest IH]; [reflexivity|].
  rewrite dispatchEffects_cons, loggedErrors_app, IH.
  unfold iterationEffects, loggedErrors at 1. simpl.
  destruct (behaviour callback arg) as [[]|error]; simpl; [reflexivity|].
  destruct (decide (site = site)) as [_|n]; [reflexivity|congruence].
Qed.

Lemma alerts_dispatchEffects (subscribers : JsSet.t) :
  alerts (dispatchEffects behaviour cat site arg subscribers) = 0.
Proof.
  induction subscribers as [|callback rest IH]; [reflexivity|].
  rewrite dispatchEffects_cons, alerts_app, IH.
  unfold iterationEffects. by destruct (behaviour callback arg).
Qed.

Lemma permissionCalls_dispatchEffects (subscribers : JsSet.t) :
  permissionCalls (dispatchEffects behaviour cat site arg subscribers) = 0.
Proof.
  induction subscribers as [|callback rest IH]; [reflexivity|].
  rewrite dispatchEffects_cons, permissionCalls_app, IH.
  unfold iterationEffects. by destruct (behaviour callback arg).
Qed.

Lemma emitted_dispatchEffects (subscribers : JsSet.t) :
  emitted (dispatchEffects behaviour cat site arg subscribers) = [].
Proof.
  induction subscribers as [|callback rest IH]; [reflexivity|].
  rewrite dispatchEffects_cons, emitted_app, IH.
  unfold iterationEffects. by destruct (behaviour callback arg).
Qed.

End Dispatch.

(** *** What each handler does *)

Ltac flatten_logs :=
  unfold log, logs; simpl; rewrite <- ?app_assoc; simpl.

(** Unfold the monad's operations down to state passing. *)
Ltac run_m :=
  repeat (progress
            (cbv beta iota delta
               [mbind M_bind mret M_ret gets effect modify await];
             simpl)).

Section Handlers.

Variable behaviour : Callback -> JsArg -> Completion unit.

Lemma handleReceiveMessage_run (message : JsArg) (w : World) :
  handleReceiveMessage behaviour message w
  = (setUnreadMessageCount (fun prev => (prev + 1)%N)
       (logs (dispatchEffects behaviour MessageCategory MessageCallbackFailed
                message (messageSubscribersRef w)) w),
     Normal tt).
Proof.
  unfold handleReceiveMessage, mbind, M_bind, gets at 1.
  fold (guarded behaviour MessageCategory MessageCallbackFailed message).
  by rewrite forEach_guarded.
Qed.

Lemma notifyCallSubscribers_run (callData : JsArg) (w : World) :
  notifyCallSubscribers behaviour callData w
  = (logs (dispatchEffects behaviour CallCategory CallSubscriberFailed
             callData (callSubscribersRef w)) w,
     Normal tt).
Proof.
  unfold notifyCallSubscribers, mbind, M_bind, gets.
  fold (guarded behaviour CallCategory CallSubscriberFailed callData).
  by rewrite forEach_guarded.
Qed.

Lemma handleCallCancelled_run (callData : JsArg) (w : World) :
  handleCallCancelled behaviour callData w
  = (logs (dispatchEffects behaviour CallCategory CallCancelledCallbackFailed
             (cancellation callData) (callSubscribersRef w)) w,
     Normal tt).
Proof.
  unfold handleCallCancelled, mbind, M_bind, gets.
  change (Some (<["eventType" := PStr "call_cancelled"]> (spread callData)))
    with (cancellation callData).
  fold (guarded behaviour CallCategory CallCancelledCallbackFailed
          (cancellation callData)).
  by rewrite forEach_guarded.
Qed.

Lemma microphoneGate_run (d : Device) (w : World) :
  microphoneGate d w = (logs (gateEffects d) w, Normal (gateDecision d)).
Proof.
  unfold gateEffects, gateDecision, produced, exec, completion.
  unfold microphoneGate, tryCatch, checkMicrophone, requestMicrophone,
    mbind, M_bind, mret, M_ret, effect, await.
  destruct d as [os st ac ar ic ir]; simpl.
  destruct os; simpl;
    repeat match goal with
           | |- context [match ?c with Normal _ => _ | Throw _ => _ end] =>
               is_var c; destruct c; simpl
           | |- context [if ?b then _ else _] => is_var b; destruct b; simpl
           | |- context [match ?s with GRANTED => _ | _ => _ end] =>
               is_var s; destruct s; simpl
           | |- context [match ?s with granted => _ | _ => _ end] =>
               is_var s; destruct s; simpl
           end;
    flatten_logs; reflexivity.
Qed.

Lemma iosFastPath_run (d : Device) (callData : JsArg) (w : World) :
  exists w',
    iosFastPath d callData w = (w', Normal tt)
    /\ trace w' = trace w ++ fastPathEffects d callData w
    /\ callSubscribersRef w' = callSubscribersRef w
    /\ messageSubscribersRef w' = messageSubscribersRef w
    /\ unreadMessageCount w' = unreadMessageCount w
    /\ isConnected w' = isConnected w
    /\ socketRef w' = socketRef w.
Proof.
  unfold iosFastPath, fastPathEffects, warmUp, modify, runTask,
    mbind, M_bind, mret, M_ret, effect.
  destruct (OS d); try (eexists; repeat split; simpl; by rewrite ?app_nil_r).
  destruct (currentState d);
    try (eexists; repeat split; simpl; reflexivity).
  destruct (socketRef w) as [s|] eqn:Hs;
    [destruct (disconnected s)|];
    eexists; repeat split; simpl; rewrite ?app_nil_r; try reflexivity; auto.
Qed.

Lemma fastPathEffects_quiet (d : Device) (callData : JsArg) (w : World) :
  (forall cat, calls cat (fastPathEffects d callData w) = [])
  /\ alerts (fastPathEffects d callData w) = 0
  /\ permissionCalls (fastPathEffects d callData w) = 0.
Proof.
  unfold fastPathEffects.
  destruct (OS d); try (repeat split; reflexivity).
  destruct (currentState d); try (repeat split; reflexivity).
  destruct (socketRef w) as [s|]; [destruct (disconnected s)|];
    repeat split; reflexivity.
Qed.

Lemma handleIncomingCall_dropped (d : Device) (callData : JsArg) (w : World) :
  gateDecision d = Dropped ->
  handleIncomingCall behaviour d callData w
  = (logs (gateEffects d) w, Normal tt).
Proof.
  intros Hg. unfold handleIncomingCall, mbind, M_bind.
  by rewrite microphoneGate_run, Hg.
Qed.

Lemma handleIncomingCall_proceed (d : Device) (callData : JsArg) (w : World) :
  gateDecision d = Proceed ->
  exists w',
    handleIncomingCall behaviour d callData w = (w', Normal tt)
    /\ trace w'
       = trace w ++ gateEffects d
         ++ fastPathEffects d callData (logs (gateEffects d) w)
         ++ dispatchEffects behaviour CallCategory CallSubscriberFailed
              callData (callSubscribersRef w)
    /\ callSubscribersRef w' = callSubscribersRef w
    /\ messageSubscribersRef w' = messageSubscribersRef w
    /\ unreadMessageCount w' = unreadMessageCount w
    /\ isConnected w' = isConnected w
    /\ socketRef w' = socketRef w.
Proof.
  intros Hg. unfold handleIncomingCall, mbind, M_bind.
  rewrite microphoneGate_run, Hg.
  destruct (iosFastPath_run d callData (logs (gateEffects d) w))
    as (w1 & Hrun & Htr & Hc & Hm & Hu & Hi & Hs).
  rewrite Hrun, notifyCallSubscribers_run.
  eexists; split; [reflexivity|].
  simpl. rewrite Htr, Hc. simpl. rewrite <- !app_assoc.
  repeat split; assumption.
Qed.

(** Whatever the device answers, the handler's promise is fulfilled. *)
Lemma handleIncomingCall_completes (d : Device) (callData : JsArg)
    (w : World) :
  completion (handleIncomingCall behaviour d callData) w = Normal tt.
Proof.
  unfold completion.
  destruct (gateDecision d) eqn:Hg.
  - destruct (handleIncomingCall_proceed d callData w Hg) as (w' & H & _).
    by rewrite H.
  - by rewrite handleIncomingCall_dropped.
Qed.

End Handlers.

(** *** The connection effect *)

Lemma connectEffect_produced (userToken : option string) (w : World) :
  produced (connectEffect userToken) w
  = match userToken with
    | Some (String c rest) =>
        [Io (next_socket w) (socketOptions (String c rest))]
    | _ =>
        match socketRef w with
        | Some s => [SocketDisconnect (sock_id s)]
        | None => []
        end
    end.
Proof.
  apply produced_of_trace. unfold exec, connectEffect.
  destruct userToken as [[|c rest]|]; run_m;
    try (destruct (socketRef w) as [s|]; simpl; by rewrite ?app_nil_r).
Qed.

Lemma connectEffect_completion (userToken : option string) (w : World) :
  completion (connectEffect userToken) w
  = Normal match userToken with
           | Some (String c rest) => Some (socketOptions (String c rest))
           | _ => None
           end.
Proof.
  unfold completion, connectEffect.
  destruct userToken as [[|c rest]|]; run_m;
    try (destruct (socketRef w) as [s|]; reflexivity).
Qed.

Lemma processedToken_bearer (rest : string) :
  processedToken ("Bearer " +:+ rest) = rest.
Proof.
  unfold processedToken, JsString.startsWith.
  rewrite prefix_app.
  change 7 with (String.length "Bearer ").
  apply substring_app.
Qed.

Lemma processedToken_other (s : string) :
  (forall rest, s <> "Bearer " +:+ rest) -> processedToken s = s.
Proof.
  intros Hs. unfold processedToken, JsString.startsWith.
  destruct (String.prefix "Bearer " s) eqn:Hp; [|reflexivity].
  exfalso. apply (Hs (JsString.substring (String.length "Bearer ") s)).
  by apply prefix_split.
Qed.

(** ** The connection: credential and reconnection policy *)

(** C7. The credential handed to the handshake is a function of the raw
    credential alone: a raw credential of the form ["Bearer " ++ rest] is
    normalized to [rest], a raw credential not of that form is left as it
    is, and whenever the effect opens a connection (the raw credential is
    a non-empty string, which always opens one) the [auth.token] field of
    the options given to [io] is the normalized credential. *)
Theorem C7_credential_normalization :
  (forall rest : string, processedToken ("Bearer " +:+ rest) = rest)
  /\ (forall s : string,
        (forall rest, s <> "Bearer " +:+ rest) -> processedToken s = s)
  /\ (forall (userToken : option string) (w : World) (sock : nat)
             (opts : ManagerOptions),
        In (Io sock opts) (produced (connectEffect userToken) w) ->
        exists raw, userToken = Some raw
                    /\ token (auth opts) = processedToken raw)
  /\ (forall (c : ascii) (rest : string) (w : World),
        produced (connectEffect (Some (String c rest))) w
        = [Io (next_socket w) (socketOptions (String c rest))]
        /\ token (auth (socketOptions (String c rest)))
           = processedToken (String c rest)).
Proof.
  split; [exact processedToken_bearer|].
  split; [exact processedToken_other|].
  split.
  - intros userToken w sock opts Hin.
    rewrite connectEffect_produced in Hin.
    destruct userToken as [[|c rest]|]; simpl in Hin.
    + destruct (socketRef w); simpl in Hin; [|contradiction].
      destruct Hin as [Hin|[]]; discriminate.
    + destruct Hin as [Hin|[]]. injection Hin as _ <-.
      exists (String c rest). split; reflexivity.
    + destruct (socketRef w); simpl in Hin; [|contradiction].
      destruct Hin as [Hin|[]]; discriminate.
  - intros c rest w. split; [|reflexivity].
    by rewrite connectEffect_produced.
Qed.

Lemma C7_credential_normalization_witness :
  processedToken "Bearer U_abc" = "U_abc"
  /\ processedToken "bearer U_abc" = "bearer U_abc"
  /\ (exists raw, Some "Bearer CS_1" = Some raw
                  /\ token (auth (socketOptions "Bearer CS_1"))
                     = processedToken raw).
Proof.
  destruct C7_credential_normalization as (Hstrip & Hkeep & Hauth & _).
  split; [exact (Hstrip "U_abc")|].
  split.
  - apply Hkeep. intros rest H. discriminate H.
  - apply (Hauth (Some "Bearer CS_1") initial 0
             (socketOptions "Bearer CS_1")).
    rewrite connectEffect_produced. simpl. left. reflexivity.
Defined.

(** C8. Every connection the effect opens is created with automatic
    reconnection switched on, 30 reconnection attempts (a bounded count in
    the tens), a 100 ms initial delay, an 800 ms maximum delay (not below
    the initial one), a randomization factor of 0.1 and a 3000 ms
    connection timeout. *)
Theorem C8_reconnection_policy
    (userToken : option string) (w : World) (sock : nat)
    (opts : ManagerOptions) :
  In (Io sock opts) (produced (connectEffect userToken) w) ->
  reconnection opts = true
  /\ reconnectionAttempts opts = 30%N
  /\ (10 <= reconnectionAttempts opts < 100)%N
  /\ reconnectionDelay opts = 100%N
  /\ reconnectionDelayMax opts = 800%N
  /\ (reconnectionDelay opts <= reconnectionDelayMax opts)%N
  /\ (randomizationFactor opts == 1 # 10)%Q
  /\ (0 < randomizationFactor opts)%Q
  /\ timeout opts = 3000%N.
Proof.
  intros Hin. rewrite connectEffect_produced in Hin.
  assert (Hopts : exists raw, opts = socketOptions raw).
  { destruct userToken as [[|c rest]|]; simpl in Hin.
    - destruct (socketRef w); simpl in Hin; [|contradiction].
      destruct Hin as [Hin|[]]; discriminate.
    - destruct Hin as [Hin|[]]. injection Hin as _ <-. by eexists.
    - destruct (socketRef w); simpl in Hin; [|contradiction].
      destruct Hin as [Hin|[]]; discriminate. }
  destruct Hopts as [raw ->]. simpl.
  repeat split; try reflexivity; try lia.
Qed.

Lemma C8_reconnection_policy_witness :
  reconnection (socketOptions "Bearer U_abc") = true
  /\ reconnectionAttempts (socketOptions "Bearer U_abc") = 30%N
  /\ (10 <= reconnectionAttempts (socketOptions "Bearer U_abc") < 100)%N
  /\ reconnectionDelay (socketOptions "Bearer U_abc") = 100%N
  /\ reconnectionDelayMax (socketOptions "Bearer U_abc") = 800%N
  /\ (reconnectionDelay (socketOptions "Bearer U_abc")
      <= reconnectionDelayMax (socketOptions "Bearer U_abc"))%N
  /\ (randomizationFactor (socketOptions "Bearer U_abc") == 1 # 10)%Q
  /\ (0 < randomizationFactor (socketOptions "Bearer U_abc"))%Q
  /\ timeout (socketOptions "Bearer U_abc") = 3000%N.
Proof.
  apply (C8_reconnection_policy (Some "Bearer U_abc") initial 0).
  rewrite connectEffect_produced. simpl. left. reflexivity.
Defined.

(** ** Event distribution *)

Section WireEvents.

Variable behaviour : Callback -> JsArg -> Completion unit.

(** An inbound message event, under either name, reaches
    [handleReceiveMessage] once: the catch-all listener ignores it. *)
Lemma onevent_message (socket : nat) (d : Device) (eventName : string)
    (args : list JsArg) (w : World) :
  eventName = "receive_message" \/ eventName = "message" ->
  onevent behaviour socket d eventName args w
  = (exec (handleReceiveMessage behaviour (arg0 args)) w, Normal tt).
Proof.
  intros [-> | ->]; unfold onevent, onAnyListener, exec; run_m;
    by rewrite handleReceiveMessage_run.
Qed.

(** A [call_cancelled] packet with a payload runs [handleCallCancelled]
    from the catch-all listener and again from the named listener. *)
Lemma onevent_call_cancelled (socket : nat) (d : Device)
    (payload : Obj) (rest : list JsArg) (w : World) :
  onevent behaviour socket d "call_cancelled" (Some payload :: rest) w
  = (logs (dispatchEffects behaviour CallCategory CallCancelledCallbackFailed
             (cancellation (Some payload)) (callSubscribersRef w)
           ++ dispatchEffects behaviour CallCategory
                CallCancelledCallbackFailed
                (cancellation (Some payload)) (callSubscribersRef w)) w,
     Normal tt).
Proof.
  unfold onevent, onAnyListener; run_m.
  rewrite handleCallCancelled_run, handleCallCancelled_run.
  by rewrite logs_logs.
Qed.

(** Without a payload only the named listener runs the handler. *)
Lemma onevent_call_cancelled_no_payload (socket : nat) (d : Device)
    (w : World) :
  onevent behaviour socket d "call_cancelled" [] w
  = (logs (dispatchEffects behaviour CallCategory CallCancelledCallbackFailed
             (cancellation None) (callSubscribersRef w)) w,
     Normal tt).
Proof.
  unfold onevent, onAnyListener; run_m. by rewrite handleCallCancelled_run.
Qed.

End WireEvents.

(** C2. One inbound message event, delivered under the name
    [receive_message] or under its alias [message], raises the unread
    counter by exactly one, whatever the subscriber sets hold and whatever
    the subscribers do. *)
Theorem C2_unread_counter_per_message
    (behaviour : Callback -> JsArg -> Completion unit)
    (socket : nat) (d : Device) (args : list JsArg) (w : World) :
  unreadMessageCount
    (exec (onevent behaviour socket d "receive_message" args) w)
  = (unreadMessageCount w + 1)%N
  /\ unreadMessageCount (exec (onevent behaviour socket d "message" args) w)
     = (unreadMessageCount w + 1)%N.
Proof.
  split; unfold exec at 1; rewrite onevent_message by auto;
    unfold exec; by rewrite handleReceiveMessage_run.
Qed.

Section Produced.

Variable behaviour : Callback -> JsArg -> Completion unit.

Lemma handleReceiveMessage_completion (message : JsArg) (w : World) :
  completion (handleReceiveMessage behaviour message) w = Normal tt.
Proof. unfold completion. by rewrite handleReceiveMessage_run. Qed.

Lemma handleReceiveMessage_produced (message : JsArg) (w : World) :
  produced (handleReceiveMessage behaviour message) w
  = dispatchEffects behaviour MessageCategory MessageCallbackFailed message
      (messageSubscribersRef w).
Proof.
  apply produced_of_trace. unfold exec.
  by rewrite handleReceiveMessage_run.
Qed.

Lemma handleCallCancelled_completion (callData : JsArg) (w : World) :
  completion (handleCallCancelled behaviour callData) w = Normal tt.
Proof. unfold completion. by rewrite handleCallCancelled_run. Qed.

Lemma handleCallCancelled_produced (callData : JsArg) (w : World) :
  produced (handleCallCancelled behaviour callData) w
  = dispatchEffects behaviour CallCategory CallCancelledCallbackFailed
      (cancellation callData) (callSubscribersRef w).
Proof.
  apply produced_logs. unfold exec. by rewrite handleCallCancelled_run.
Qed.

Lemma handleIncomingCall_produced (d : Device) (callData : JsArg)
    (w : World) :
  produced (handleIncomingCall behaviour d callData) w
  = gateEffects d
    ++ match gateDecision d with
       | Proceed =>
           fastPathEffects d callData (logs (gateEffects d) w)
           ++ dispatchEffects behaviour CallCategory CallSubscriberFailed
                callData (callSubscribersRef w)
       | Dropped => []
       end.
Proof.
  apply produced_of_trace. unfold exec.
  destruct (gateDecision d) eqn:Hg.
  - destruct (handleIncomingCall_proceed behaviour d callData w Hg)
      as (w' & Hrun & Htr & _).
    by rewrite Hrun.
  - rewrite handleIncomingCall_dropped by exact Hg.
    simpl. by rewrite app_nil_r.
Qed.

(** The microphone check calls no subscriber, sends nothing, and shows
    its prompt exactly when it drops the call. *)
Lemma gate_quiet (d : Device) :
  (forall cat, calls cat (gateEffects d) = [])
  /\ (forall site, site <> PermissionCheckFailed ->
                   loggedErrors site (gateEffects d) = [])
  /\ alerts (gateEffects d)
     = match gateDecision d with Dropped => 1 | Proceed => 0 end
  /\ emitted (gateEffects d) = [].
Proof.
  destruct d as [os st ac ar ic ir].
  destruct os, ac as [[]|], ar as [[]|], ic as [[]|], ir as [[]|];
    (split; [intros cat; reflexivity|]);
    (split; [intros site Hsite;
             match goal with
             | |- context [gateEffects ?dev] =>
                 let g := fresh "g" in
                 set (g := gateEffects dev); vm_compute in g; subst g
             end;
             unfold loggedErrors; simpl omap;
             repeat case_decide; congruence|]);
    split; reflexivity.
Qed.

Lemma fastPathEffects_no_errors (d : Device) (callData : JsArg) (w : World)
    (site : LogSite) :
  loggedErrors site (fastPathEffects d callData w) = [].
Proof.
  unfold fastPathEffects.
  destruct (OS d); try reflexivity.
  destruct (currentState d); try reflexivity.
  destruct (socketRef w) as [s|]; [destruct (disconnected s)|]; reflexivity.
Qed.

Lemma detach_completion (m : M unit) (w : World) :
  detach m w = (exec m w, Normal tt).
Proof. reflexivity. Qed.

(** Delivering a message or call event never ends in a thrown error. *)
Lemma onevent_completes (socket : nat) (d : Device) (eventName : string)
    (event : JsArg) (w : World) :
  In eventName ["receive_message"; "message"; "incoming_call";
                "call_cancelled"] ->
  completion (onevent behaviour socket d eventName [event]) w = Normal tt.
Proof.
  unfold completion.
  intros [<- | [<- | [<- | [<- | []]]]].
  - by rewrite onevent_message by auto.
  - by rewrite onevent_message by auto.
  - unfold onevent, onAnyListener; run_m.
    destruct event; run_m; rewrite ?detach_completion; reflexivity.
  - destruct event as [payload|].
    + by rewrite onevent_call_cancelled.
    + unfold onevent, onAnyListener; run_m.
      by rewrite handleCallCancelled_run.
Qed.

End Produced.

(** C1. A dispatch to the subscriber set calls every registered callback,
    in order, with the same event, whichever of them throw; every thrown
    error is written to [console.error]; and the handler, like the delivery
    of the wire event that ran it, completes normally.  This holds for the
    message handler, for the cancellation handler, and for the incoming
    call handler whenever the microphone check lets the call through. *)
Theorem C1_callback_errors_are_isolated
    (behaviour : Callback -> JsArg -> Completion unit)
    (socket : nat) (d : Device) (event : JsArg) (w : World) :
  let thrown (arg : JsArg) (callback : Callback) :=
    match behaviour callback arg with
    | Normal _ => None
    | Throw error => Some error
    end in
  (completion (handleReceiveMessage behaviour event) w = Normal tt
   /\ calls MessageCategory (produced (handleReceiveMessage behaviour event) w)
      = map (fun callback => (callback, event)) (messageSubscribersRef w)
   /\ loggedErrors MessageCallbackFailed
        (produced (handleReceiveMessage behaviour event) w)
      = omap (thrown event) (messageSubscribersRef w))
  /\ (completion (handleIncomingCall behaviour d event) w = Normal tt
      /\ calls CallCategory (produced (handleIncomingCall behaviour d event) w)
         = match gateDecision d with
           | Proceed => map (fun callback => (callback, event))
                            (callSubscribersRef w)
           | Dropped => []
           end
      /\ loggedErrors CallSubscriberFailed
           (produced (handleIncomingCall behaviour d event) w)
         = match gateDecision d with
           | Proceed => omap (thrown event) (callSubscribersRef w)
           | Dropped => []
           end)
  /\ (completion (handleCallCancelled behaviour event) w = Normal tt
      /\ calls CallCategory (produced (handleCallCancelled behaviour event) w)
         = map (fun callback => (callback, cancellation event))
               (callSubscribersRef w)
      /\ loggedErrors CallCancelledCallbackFailed
           (produced (handleCallCancelled behaviour event) w)
         = omap (thrown (cancellation event)) (callSubscribersRef w))
  /\ (forall eventName,
        In eventName ["receive_message"; "message"; "incoming_call";
                      "call_cancelled"] ->
        completion (onevent behaviour socket d eventName [event]) w
        = Normal tt).
Proof.
  intros thrown.
  split; [|split; [|split]].
  - split; [by rewrite handleReceiveMessage_completion|].
    rewrite handleReceiveMessage_produced.
    split; [apply calls_dispatchEffects | apply loggedErrors_dispatchEffects].
  - split; [apply handleIncomingCall_completes|].
    rewrite handleIncomingCall_produced.
    destruct (gate_quiet d) as (Hcalls & Herrors & _).
    destruct (fastPathEffects_quiet d event (logs (gateEffects d) w))
      as (Hfast & _).
    rewrite calls_app, loggedErrors_app, Hcalls.
    rewrite (Herrors CallSubscriberFailed) by discriminate.
    destruct (gateDecision d); [|split; reflexivity].
    rewrite calls_app, loggedErrors_app, Hfast, fastPathEffects_no_errors.
    split; [apply calls_dispatchEffects | apply loggedErrors_dispatchEffects].
  - split; [by rewrite handleCallCancelled_completion|].
    rewrite handleCallCancelled_produced.
    split; [apply calls_dispatchEffects | apply loggedErrors_dispatchEffects].
  - intros eventName Hin. apply onevent_completes. exact Hin.
Qed.

(** ** The cancellation handler *)

(** *** Deliveries to one callback *)

Lemma deliveries_of_map (cb : Callback) (arg : JsArg) (subscribers : JsSet.t) :
  NoDup subscribers ->
  omap (fun ca : Callback * JsArg =>
          if Nat.eqb (fst ca) cb then Some (snd ca) else None)
       (map (fun callback => (callback, arg)) subscribers)
  = if JsSet.has cb subscribers then [arg] else [].
Proof.
  intros Hnd.
  induction subscribers as [|x rest IH]; [reflexivity|].
  apply NoDup_cons in Hnd as [Hx Hrest]. specialize (IH Hrest).
  unfold omap in IH |- *. simpl. rewrite IH.
  rewrite (Nat.eqb_sym cb x).
  destruct (Nat.eqb x cb) eqn:Hxcb; simpl; [|reflexivity].
  apply Nat.eqb_eq in Hxcb. subst x.
  unfold JsSet.has.
  destruct (existsb (Nat.eqb cb) rest) eqn:Hex; [|reflexivity].
  exfalso. apply Hx. apply existsb_exists in Hex as (y & Hy & Heq).
  apply Nat.eqb_eq in Heq. subst y. by apply list_elem_of_In.
Qed.

Lemma deliveries_of_calls (cat : Category) (cb : Callback) (arg : JsArg)
    (subscribers : JsSet.t) (tr : list Effect) :
  calls cat tr = map (fun callback => (callback, arg)) subscribers ->
  NoDup subscribers ->
  deliveries cat cb tr = if JsSet.has cb subscribers then [arg] else [].
Proof.
  intros Hcalls Hnd. unfold deliveries. rewrite Hcalls.
  by apply deliveries_of_map.
Qed.

Lemma has_true_iff (cb : Callback) (s : JsSet.t) :
  JsSet.has cb s = true <-> In cb s.
Proof.
  unfold JsSet.has. rewrite existsb_exists. split.
  - intros (y & Hy & Heq). apply Nat.eqb_eq in Heq. by subst y.
  - intros Hin. exists cb. split; [exact Hin | apply Nat.eqb_refl].
Qed.

Lemma has_false_iff (cb : Callback) (s : JsSet.t) :
  JsSet.has cb s = false <-> ~ In cb s.
Proof.
  rewrite <- has_true_iff. destruct (JsSet.has cb s); naive_solver.
Qed.

(** *** The cancellation tag *)

Lemma cancellation_tagged (callData : JsArg) :
  exists tagged : Obj,
    cancellation callData = Some tagged
    /\ tagged !! "eventType" = Some (PStr "call_cancelled")
    /\ forall key : string,
         key <> "eventType" ->
         tagged !! key = match callData with
                         | Some payload => payload !! key
                         | None => None
                         end.
Proof.
  eexists. split; [reflexivity|]. split.
  - apply lookup_insert_eq.
  - intros key Hkey. rewrite lookup_insert_ne by done.
    by destruct callData.
Qed.

(** *** Examples *)

(** Callback 1 throws: the error is logged and callback 3 still runs. *)
Example isolation_example :
  handleReceiveMessage sampleBehaviour (Some samplePayload) sampleWorld
  = (setUnreadMessageCount (fun _ => 1%N)
       (logs [Invoke MessageCategory 1 (Some samplePayload);
              ConsoleError MessageCallbackFailed (Err "boom");
              Invoke MessageCategory 3 (Some samplePayload)] sampleWorld),
     Normal tt).
Proof. reflexivity. Qed.

(** Without the [try]/[catch] the loop would stop at the first error and
    the error would reach the caller. *)
Example unguarded_loop_aborts :
  forEach (fun callback => invoke sampleBehaviour MessageCategory callback None)
          [1; 3] sampleWorld
  = (log (Invoke MessageCategory 1 None) sampleWorld, Throw (Err "boom")).
Proof. reflexivity. Qed.

Lemma sampleWorld_call_NoDup : NoDup (callSubscribersRef sampleWorld).
Proof.
  simpl.
  repeat (apply NoDup_cons_2;
          [by intros ?%list_elem_of_In; simpl in *; lia|]).
  apply NoDup_nil_2.
Qed.

(** ** The microphone check before an incoming call *)

Lemma loggedErrors_dispatchEffects_other
    (behaviour : Callback -> JsArg -> Completion unit) (cat : Category)
    (site other : LogSite) (arg : JsArg) (subscribers : JsSet.t) :
  other <> site ->
  loggedErrors other (dispatchEffects behaviour cat site arg subscribers) = [].
Proof.
  intros Hne. induction subscribers as [|callback rest IH]; [reflexivity|].
  rewrite dispatchEffects_cons, loggedErrors_app, IH.
  unfold iterationEffects, loggedErrors. simpl.
  destruct (behaviour callback arg) as [[]|error]; simpl; [reflexivity|].
  destruct (decide (site = other)) as [Heq|_]; [congruence|reflexivity].
Qed.

Lemma permissionDenied_dropped (d : Device) :
  permissionDenied d = true ->
  gateDecision d = Dropped /\ permissionCalls (gateEffects d) = 2.
Proof.
  destruct d as [os st ac ar ic ir].
  destruct os, ac as [[]|], ar as [[]|], ic as [[]|], ir as [[]|];
    intros H; try discriminate H; split; reflexivity.
Qed.

Lemma permissionFails_proceed (d : Device) :
  permissionFails d = true ->
  gateDecision d = Proceed
  /\ length (loggedErrors PermissionCheckFailed (gateEffects d)) = 1.
Proof.
  destruct d as [os st ac ar ic ir].
  destruct os, ac as [[]|], ar as [[]|], ic as [[]|], ir as [[]|];
    intros H; try discriminate H; split; reflexivity.
Qed.

(** ** The catch-all listener *)

Section Fallback.

Variable behaviour : Callback -> JsArg -> Completion unit.

Lemma handleIncomingCall_frame (d : Device) (callData : JsArg) (w : World) :
  trace (exec (handleIncomingCall behaviour d callData) w)
  = trace w ++ produced (handleIncomingCall behaviour d callData) w
  /\ callSubscribersRef (exec (handleIncomingCall behaviour d callData) w)
     = callSubscribersRef w.
Proof.
  rewrite handleIncomingCall_produced. unfold exec.
  destruct (gateDecision d) eqn:Hg.
  - destruct (handleIncomingCall_proceed behaviour d callData w Hg)
      as (w' & Hrun & Htr & Hsubs & _).
    rewrite Hrun. simpl. split; assumption.
  - rewrite handleIncomingCall_dropped by exact Hg.
    simpl. by rewrite app_nil_r.
Qed.

(** An [incoming_call] packet with a payload starts
    [handleIncomingCall] from the catch-all listener and again from the
    named listener. *)
Lemma onevent_incoming_call (socket : nat) (d : Device) (payload : Obj)
    (rest : list JsArg) (w : World) :
  onevent behaviour socket d "incoming_call" (Some payload :: rest) w
  = (exec (handleIncomingCall behaviour d (Some payload))
       (exec (handleIncomingCall behaviour d (Some payload)) w),
     Normal tt).
Proof. unfold onevent, onAnyListener; run_m. reflexivity. Qed.

Lemma calls_incoming_call (d : Device) (callData : JsArg) (w : World) :
  calls CallCategory (produced (handleIncomingCall behaviour d callData) w)
  = match gateDecision d with
    | Proceed => map (fun callback => (callback, callData))
                     (callSubscribersRef w)
    | Dropped => []
    end.
Proof.
  rewrite handleIncomingCall_produced.
  destruct (gate_quiet d) as (Hcalls & _).
  destruct (fastPathEffects_quiet d callData (logs (gateEffects d) w))
    as (Hfast & _).
  rewrite calls_app, Hcalls.
  destruct (gateDecision d); [|reflexivity].
  by rewrite calls_app, Hfast, calls_dispatchEffects.
Qed.

Lemma alerts_incoming_call (d : Device) (callData : JsArg) (w : World) :
  alerts (produced (handleIncomingCall behaviour d callData) w)
  = match gateDecision d with Dropped => 1 | Proceed => 0 end.
Proof.
  rewrite handleIncomingCall_produced.
  destruct (gate_quiet d) as (_ & _ & Halerts & _).
  destruct (fastPathEffects_quiet d callData (logs (gateEffects d) w))
    as (_ & Hfast & _).
  rewrite alerts_app, Halerts.
  destruct (gateDecision d); [|reflexivity].
  by rewrite alerts_app, Hfast, alerts_dispatchEffects.
Qed.

Lemma onevent_incoming_call_produced (socket : nat) (d : Device)
    (payload : Obj) (rest : list JsArg) (w : World) :
  produced (onevent behaviour socket d "incoming_call"
              (Some payload :: rest)) w
  = produced (handleIncomingCall behaviour d (Some payload)) w
    ++ produced (handleIncomingCall behaviour d (Some payload))
         (exec (handleIncomingCall behaviour d (Some payload)) w).
Proof.
  apply produced_of_trace. unfold exec at 1.
  rewrite onevent_incoming_call. simpl.
  destruct (handleIncomingCall_frame d (Some payload)
              (exec (handleIncomingCall behaviour d (Some payload)) w))
    as [-> _].
  destruct (handleIncomingCall_frame d (Some payload) w) as [-> _].
  by rewrite <- app_assoc.
Qed.

End Fallback.

(** C5.  What the two listener paths do together: a [call_cancelled] or
    [incoming_call] packet that carries a payload runs its handler twice,
    once from the catch-all listener and once from the named listener, so
    one packet reaches every registered call subscriber twice (for an
    incoming call: when the microphone check lets it through; when it does
    not, the prompt is shown twice). *)
Theorem C5_fallback_listener_delivers_twice
    (behaviour : Callback -> JsArg -> Completion unit)
    (socket : nat) (d : Device) (payload : Obj) (rest : list JsArg)
    (w : World) :
  calls CallCategory
    (produced (onevent behaviour socket d "call_cancelled"
                 (Some payload :: rest)) w)
  = map (fun callback => (callback, cancellation (Some payload)))
        (callSubscribersRef w)
    ++ map (fun callback => (callback, cancellation (Some payload)))
           (callSubscribersRef w)
  /\ calls CallCategory
       (produced (onevent behaviour socket d "incoming_call"
                    (Some payload :: rest)) w)
     = match gateDecision d with
       | Proceed =>
           map (fun callback => (callback, Some payload))
               (callSubscribersRef w)
           ++ map (fun callback => (callback, Some payload))
                  (callSubscribersRef w)
       | Dropped => []
       end
  /\ alerts
       (produced (onevent behaviour socket d "incoming_call"
                    (Some payload :: rest)) w)
     = match gateDecision d with Dropped => 2 | Proceed => 0 end.
Proof.
  split; [|split].
  - rewrite (produced_logs _ _ _
               (f_equal fst (onevent_call_cancelled behaviour socket d
                               payload rest w))).
    by rewrite calls_app, calls_dispatchEffects.
  - rewrite onevent_incoming_call_produced, calls_app.
    rewrite !calls_incoming_call.
    destruct (handleIncomingCall_frame behaviour d (Some payload) w)
      as [_ ->].
    by destruct (gateDecision d).
  - rewrite onevent_incoming_call_produced, alerts_app.
    rewrite !alerts_incoming_call. by destruct (gateDecision d).
Qed.

(** One cancellation packet with one payload: subscriber 2 is called
    twice. *)
Example double_delivery_example :
  deliveries CallCategory 2
    (produced (onevent sampleBehaviour 0 grantedDevice "call_cancelled"
                 [Some samplePayload]) sampleWorld)
  = [cancellation (Some samplePayload); cancellation (Some samplePayload)].
Proof. vm_compute. reflexivity. Qed.

(** The same packet without a payload skips the catch-all path. *)
Example single_delivery_without_payload :
  deliveries CallCategory 2
    (produced (onevent sampleBehaviour 0 grantedDevice "call_cancelled" [])
              sampleWorld)
  = [cancellation None].
Proof. vm_compute. reflexivity. Qed.

(** ** Sending while disconnected *)

(** C10. While [socketRef.current] is null or [isConnected] is false,
    [sendMessage], [joinConversation], [leaveConversation] and [rejectCall]
    emit nothing, complete normally, and leave the socket reference, the
    connection flag, the unread counter and both subscriber sets as they
    were; at most a warning is written to the console. *)
Theorem C10_disconnected_calls_are_noops
    (messageData : JsVal) (conversationId callId recipientId : string)
    (optionalConversationId : option string) (w : World) :
  socketRef w = None \/ isConnected w = false ->
  forall op : M unit,
    In op [sendMessage messageData; joinConversation conversationId;
           leaveConversation conversationId;
           rejectCall callId recipientId optionalConversationId] ->
    completion op w = Normal tt
    /\ emitted (produced op w) = []
    /\ (forall e, In e (produced op w) -> exists site, e = ConsoleWarn site)
    /\ socketRef (exec op w) = socketRef w
    /\ isConnected (exec op w) = isConnected w
    /\ unreadMessageCount (exec op w) = unreadMessageCount w
    /\ messageSubscribersRef (exec op w) = messageSubscribersRef w
    /\ callSubscribersRef (exec op w) = callSubscribersRef w
    /\ timers (exec op w) = timers w.
Proof.
  intros Hoff op Hop.
  assert (Hcases :
    op w = (w, Normal tt)
    \/ exists site, op w = (log (ConsoleWarn site) w, Normal tt)).
  { simpl in Hop.
    destruct Hop as [<- | [<- | [<- | [<- | []]]]];
      unfold sendMessage, joinConversation, leaveConversation, rejectCall;
      run_m;
      destruct Hoff as [-> | ->]; try destruct (socketRef w);
      eauto. }
  unfold produced, completion, exec.
  destruct Hcases as [-> | [site ->]]; simpl.
  - rewrite drop_all. repeat split; try reflexivity. intros e [].
  - rewrite drop_app_length. repeat split; try reflexivity.
    intros e [<- | []]. by exists site.
Qed.

Lemma C10_disconnected_calls_are_noops_witness :
  emitted (produced (sendMessage (VStr "hello")) sampleWorld) = []
  /\ exec (leaveConversation "room") sampleWorld = sampleWorld.
Proof.
  split.
  - refine (proj1 (proj2 (C10_disconnected_calls_are_noops (VStr "hello")
                            "room" "c1" "u7" None sampleWorld
                            (or_introl eq_refl) _ _))).
    simpl. left. reflexivity.
  - reflexivity.
Defined.

(** *** Timers *)

Lemma runTask_frame (tk : Task) (w : World) :
  now (runTask tk w) = now w
  /\ timers (runTask tk w) = timers w
  /\ offlineRequests (trace (runTask tk w))
     = offlineRequests (trace w)
       + match tk with GetOfflineMessages _ => 1 | _ => 0 end.
Proof.
  destruct tk as [sock|sock|]; simpl.
  - repeat split. by rewrite offlineRequests_app.
  - repeat split. lia.
  - destruct (socketRef w) as [s|]; [destruct (disconnected s)|]; simpl;
      repeat split; rewrite ?offlineRequests_app; try reflexivity; lia.
Qed.

Lemma fire_now (t : N) (q : list Timer) (w : World) :
  now (fire t q w) = now w.
Proof.
  revert w. induction q as [|tm q IH]; intros w; simpl; [reflexivity|].
  destruct (due tm <=? t)%N; [|reflexivity].
  rewrite IH. apply runTask_frame.
Qed.

Lemma pendingDue_cons (t : N) (tm : Timer) (q : list Timer) :
  pendingDue t (tm :: q)
  = (if isOfflineTimer tm && (due tm <=? t)%N then 1 else 0) + pendingDue t q.
Proof.
  unfold pendingDue. simpl.
  by destruct (isOfflineTimer tm && (due tm <=? t)%N).
Qed.

Lemma pendingDue_later (t : N) (q : list Timer) :
  Forall (fun tm => (t < due tm)%N) q -> pendingDue t q = 0.
Proof.
  induction 1 as [|tm q Htm _ IH]; [reflexivity|].
  rewrite pendingDue_cons, IH.
  apply N.leb_gt in Htm. rewrite Htm. by rewrite andb_false_r.
Qed.

Lemma sorted_later (t : N) (tm : Timer) (q : list Timer) :
  StronglySorted dueOrder (tm :: q) -> (t < due tm)%N ->
  Forall (fun x => (t < due x)%N) (tm :: q).
Proof.
  intros Hs Ht. apply StronglySorted_inv in Hs as [_ Hall].
  constructor; [exact Ht|].
  eapply Forall_impl; [exact Hall|].
  unfold dueOrder. intros x Hx. simpl in Hx. lia.
Qed.

Lemma fire_count (t : N) (q : list Timer) (w : World) :
  StronglySorted dueOrder q ->
  offlineRequests (trace (fire t q w))
  = offlineRequests (trace w) + pendingDue t q.
Proof.
  revert w. induction q as [|tm q IH]; intros w Hs; simpl.
  - unfold pendingDue. simpl. lia.
  - destruct (due tm <=? t)%N eqn:Hdue.
    + rewrite IH by (by apply StronglySorted_inv in Hs as [? _]).
      destruct (runTask_frame (task tm) w) as (_ & _ & ->).
      rewrite pendingDue_cons, Hdue, andb_true_r.
      unfold isOfflineTimer. destruct (task tm); lia.
    + apply N.leb_gt in Hdue.
      rewrite (pendingDue_later t (tm :: q)) by (by apply sorted_later).
      simpl. lia.
Qed.

Lemma fire_pending (t T : N) (q : list Timer) (w : World) :
  StronglySorted dueOrder q -> (t <= T)%N ->
  pendingDue T (timers (fire t q w)) + pendingDue t q = pendingDue T q.
Proof.
  revert w. induction q as [|tm q IH]; intros w Hs HtT; simpl.
  - reflexivity.
  - destruct (due tm <=? t)%N eqn:Hdue.
    + rewrite !pendingDue_cons, Hdue.
      assert (HT : (due tm <=? T)%N = true).
      { apply N.leb_le. apply N.leb_le in Hdue. lia. }
      rewrite HT.
      rewrite <- (IH (runTask (task tm) w))
        by (try (by apply StronglySorted_inv in Hs as [? _]); exact HtT).
      lia.
    + apply N.leb_gt in Hdue.
      rewrite (pendingDue_later t (tm :: q)) by (by apply sorted_later).
      simpl. lia.
Qed.

Lemma fire_ok (t : N) (q : list Timer) (w : World) :
  StronglySorted dueOrder q ->
  StronglySorted dueOrder (timers (fire t q w))
  /\ Forall (fun tm => (t < due tm)%N) (timers (fire t q w)).
Proof.
  revert w. induction q as [|tm q IH]; intros w Hs; simpl.
  - split; constructor.
  - destruct (due tm <=? t)%N eqn:Hdue.
    + apply IH. by apply StronglySorted_inv in Hs as [? _].
    + apply N.leb_gt in Hdue. simpl. split; [exact Hs|].
      by apply sorted_later.
Qed.

Lemma enqueue_Forall (P : Timer -> Prop) (tm : Timer) (q : list Timer) :
  P tm -> Forall P q -> Forall P (enqueue tm q).
Proof.
  intros Htm. induction 1 as [|x q Hx Hq IH]; simpl.
  - by repeat constructor.
  - destruct (due x <=? due tm)%N; by repeat constructor.
Qed.

Lemma enqueue_sorted (tm : Timer) (q : list Timer) :
  StronglySorted dueOrder q -> StronglySorted dueOrder (enqueue tm q).
Proof.
  induction 1 as [|x q Hq IH Hall]; simpl.
  - repeat constructor.
  - destruct (due x <=? due tm)%N eqn:Hle.
    + constructor; [exact IH|].
      apply enqueue_Forall; [|exact Hall].
      unfold dueOrder. by apply N.leb_le.
    + apply N.leb_gt in Hle. constructor.
      * by constructor.
      * constructor; [unfold dueOrder; lia|].
        eapply Forall_impl; [exact Hall|].
        unfold dueOrder. intros y Hy. simpl in Hy. lia.
Qed.

Lemma pendingDue_enqueue (t : N) (tm : Timer) (q : list Timer) :
  pendingDue t (enqueue tm q)
  = pendingDue t q + (if isOfflineTimer tm && (due tm <=? t)%N then 1 else 0).
Proof.
  induction q as [|x q IH]; simpl.
  - rewrite pendingDue_cons. unfold pendingDue. simpl. lia.
  - destruct (due x <=? due tm)%N.
    + rewrite !pendingDue_cons, IH. lia.
    + rewrite !pendingDue_cons. lia.
Qed.

Lemma elapse_facts (dt : N) (w : World) :
  timersOk w ->
  timersOk (elapse dt w)
  /\ now (elapse dt w) = (now w + dt)%N
  /\ offlineRequests (trace (elapse dt w))
     = offlineRequests (trace w) + pendingDue (now w + dt) (timers w)
  /\ forall T, (now w + dt <= T)%N ->
       pendingDue T (timers (elapse dt w))
       + pendingDue (now w + dt) (timers w)
       = pendingDue T (timers w).
Proof.
  intros [Hs _]. unfold elapse, timersOk.
  rewrite fire_now. simpl.
  destruct (fire_ok (now w + dt) (timers w) (setNow (now w + dt) w) Hs)
    as [Hs' Hlater].
  split; [split; assumption|].
  split; [reflexivity|].
  split; [by rewrite fire_count|].
  intros T HT. by apply fire_pending.
Qed.

(** [setTimeout] with a positive delay keeps the queue in order. *)
Lemma setTimeout_ok (tk : Task) (delay : N) (w : World) :
  (0 < delay)%N -> timersOk w -> timersOk (setTimeout tk delay w).
Proof.
  intros Hd [Hs Hf]. unfold timersOk, setTimeout. simpl. split.
  - by apply enqueue_sorted.
  - apply enqueue_Forall; [simpl; lia | exact Hf].
Qed.

Lemma offlineEmitsBare_app (t1 t2 : list Effect) :
  offlineEmitsBare t1 -> offlineEmitsBare t2 -> offlineEmitsBare (t1 ++ t2).
Proof.
  unfold offlineEmitsBare. rewrite emitted_app, Forall_app. auto.
Qed.

Lemma offlineEmitsBare_silent (es : list Effect) :
  emitted es = [] -> offlineEmitsBare es.
Proof. unfold offlineEmitsBare. intros ->. constructor. Qed.

Lemma offlineEmitsBare_log (e : Effect) (tr : list Effect) :
  match e with
  | Emit _ ev args => ev = "get_offline_messages" -> args = []
  | _ => True
  end ->
  offlineEmitsBare tr -> offlineEmitsBare (tr ++ [e]).
Proof.
  intros He Htr. apply offlineEmitsBare_app; [exact Htr|].
  unfold offlineEmitsBare. destruct e; simpl; try constructor.
  - exact He.
  - constructor.
Qed.

Lemma fire_bare (t : N) (q : list Timer) (w : World) :
  offlineEmitsBare (trace w) -> offlineEmitsBare (trace (fire t q w)).
Proof.
  revert w. induction q as [|tm q IH]; intros w Hw; simpl; [exact Hw|].
  destruct (due tm <=? t)%N; [|exact Hw].
  apply IH. destruct (task tm) as [sock|sock|]; simpl.
  - by apply offlineEmitsBare_log.
  - exact Hw.
  - destruct (socketRef w) as [s|]; [destruct (disconnected s)|];
      simpl; try exact Hw.
    by apply offlineEmitsBare_log.
Qed.

(** *** Steps that leave the offline-backlog timers alone *)

Lemma quietStep_refl (w : World) : quietStep w w.
Proof. unfold quietStep. auto. Qed.

Lemma quietStep_trans (w1 w2 w3 : World) :
  quietStep w1 w2 -> quietStep w2 w3 -> quietStep w1 w3.
Proof.
  intros (Hn1 & Ho1 & Hk1 & Hp1 & Hb1) (Hn2 & Ho2 & Hk2 & Hp2 & Hb2).
  unfold quietStep. split; [|split; [|split; [|split]]].
  - congruence.
  - congruence.
  - auto.
  - intros t. by rewrite Hp2, Hp1.
  - auto.
Qed.

Lemma quietStep_logs (es : list Effect) (w : World) :
  emitted es = [] -> quietStep w (logs es w).
Proof.
  intros Hes. unfold quietStep, timersOk. simpl.
  rewrite offlineRequests_app. unfold offlineRequests at 2. rewrite Hes.
  simpl. split; [reflexivity|]. split; [lia|]. split; [tauto|].
  split; [reflexivity|].
  intros Hw. apply offlineEmitsBare_app; [exact Hw|].
  by apply offlineEmitsBare_silent.
Qed.

Lemma quietStep_setTimeout (tk : Task) (delay : N) (w : World) :
  (0 < delay)%N ->
  match tk with GetOfflineMessages _ => False | _ => True end ->
  quietStep w (setTimeout tk delay w).
Proof.
  intros Hd Htk. unfold quietStep.
  split; [reflexivity|]. split; [reflexivity|].
  split; [by apply setTimeout_ok|]. split; [|auto].
  intros t. unfold setTimeout. simpl. rewrite pendingDue_enqueue.
  unfold isOfflineTimer. simpl. destruct tk; simpl; try lia.
Qed.

Lemma offlineRequests_single (e : Effect) :
  offlineRequests [e]
  = match e with
    | Emit _ ev _ => if String.eqb ev "get_offline_messages" then 1 else 0
    | _ => 0
    end.
Proof.
  destruct e; try reflexivity.
  unfold offlineRequests. simpl.
  by destruct (String.eqb ev "get_offline_messages").
Qed.

Ltac quiet :=
  unfold quietStep; simpl;
  split; [reflexivity|];
  split; [rewrite ?offlineRequests_app, ?offlineRequests_single;
          first [reflexivity | simpl; lia]|];
  split; [unfold timersOk; simpl; tauto|];
  split; [intros; reflexivity|];
  first [ tauto
        | intros; apply offlineEmitsBare_log;
          [simpl; first [exact I | intros; discriminate] | assumption] ].

Lemma fastPathEffects_silent (d : Device) (callData : JsArg) (w : World) :
  emitted (fastPathEffects d callData w) = [].
Proof.
  unfold fastPathEffects.
  destruct (OS d); try reflexivity.
  destruct (currentState d); try reflexivity.
  destruct (socketRef w) as [s|]; [destruct (disconnected s)|]; reflexivity.
Qed.

Lemma iosFastPath_quiet (d : Device) (callData : JsArg) (w : World) :
  quietStep w (exec (iosFastPath d callData) w).
Proof.
  unfold exec, iosFastPath, warmUp.
  destruct (OS d); run_m; try apply quietStep_refl.
  destruct (currentState d); run_m.
  - destruct (socketRef w) as [s|]; [destruct (disconnected s)|]; quiet.
  - eapply quietStep_trans; [|by apply quietStep_setTimeout].
    quiet.
  - eapply quietStep_trans; [|by apply quietStep_setTimeout].
    quiet.
Qed.

(** What socket.io notes on the held socket changes the reference and
    nothing else. *)
Lemma markConnected_frame (socket : nat) (w : World) :
  exists s, markConnected socket w = setSocketRef s w.
Proof.
  unfold markConnected. destruct w as [[s|] ic un ms cs nw tm ns tr]; simpl.
  - destruct (Nat.eqb (sock_id s) socket); eexists; reflexivity.
  - by exists None.
Qed.

Lemma markDisconnected_frame (w : World) :
  exists s, markDisconnected w = setSocketRef s w.
Proof.
  unfold markDisconnected.
  destruct w as [[s|] ic un ms cs nw tm ns tr]; simpl.
  - eexists; reflexivity.
  - by exists None.
Qed.

Section QuietHandlers.

Variable behaviour : Callback -> JsArg -> Completion unit.

Lemma handleIncomingCall_quiet (d : Device) (callData : JsArg) (w : World) :
  quietStep w (exec (handleIncomingCall behaviour d callData) w).
Proof.
  unfold exec, handleIncomingCall, mbind, M_bind.
  rewrite microphoneGate_run.
  destruct (gate_quiet d) as (_ & _ & _ & Hsilent).
  assert (Hgate : quietStep w (logs (gateEffects d) w))
    by (by apply quietStep_logs).
  destruct (gateDecision d); [|exact Hgate].
  pose proof (iosFastPath_quiet d callData (logs (gateEffects d) w)) as Hfast.
  unfold exec in Hfast.
  destruct (iosFastPath d callData (logs (gateEffects d) w))
    as [w1 [[]|error]] eqn:Hrun; simpl in Hfast.
  - rewrite notifyCallSubscribers_run. simpl.
    eapply quietStep_trans; [exact Hgate|].
    eapply quietStep_trans; [exact Hfast|].
    apply quietStep_logs, emitted_dispatchEffects.
  - simpl. eapply quietStep_trans; [exact Hgate | exact Hfast].
Qed.

Lemma applyEvent_handlesOk (e : Event) (c : Client) :
  handlesOk c -> handlesOk (applyEvent behaviour e c).
Proof.
  intros Hc. unfold handlesOk in *.
  destruct e; simpl; try exact Hc.
  - unfold subscribe, subscribeToMessages; run_m.
    apply Forall_app. split; [exact Hc|]. repeat constructor. eauto.
  - unfold subscribe, subscribeToIncomingCalls; run_m.
    apply Forall_app. split; [exact Hc|]. repeat constructor. eauto.
  - destruct (handles c !! k); exact Hc.
Qed.

Lemma applyEvent_quiet (e : Event) (c : Client) :
  handlesOk c ->
  match e with
  | Elapse _ | OnConnect _ => True
  | _ => quietStep (world c) (world (applyEvent behaviour e c))
  end.
Proof.
  intros Hc. destruct e; try exact I; simpl; unfold exec.
  - destruct (markDisconnected_frame (world c)) as [s ->]. quiet.
  - unfold handleConnectError. destruct error; run_m; quiet.
  - rewrite handleReceiveMessage_run. simpl.
    eapply quietStep_trans;
      [apply quietStep_logs, emitted_dispatchEffects|].
    quiet.
  - apply handleIncomingCall_quiet.
  - rewrite handleCallCancelled_run. simpl.
    apply quietStep_logs, emitted_dispatchEffects.
  - unfold handleOfflineMessagesDelivered. destruct data; run_m; quiet.
  - unfold connectEffect. destruct userToken as [[|ch rest]|]; run_m.
    + destruct (socketRef (world c)); simpl; quiet.
    + eapply quietStep_trans; [|by apply quietStep_setTimeout].
      quiet.
    + destruct (socketRef (world c)); simpl; quiet.
  - unfold cleanup; run_m. quiet.
  - unfold sendMessage; run_m.
    destruct (socketRef (world c)), (isConnected (world c)); quiet.
  - unfold joinConversation; run_m.
    destruct (socketRef (world c)), (isConnected (world c)); quiet.
  - unfold leaveConversation; run_m.
    destruct (socketRef (world c)), (isConnected (world c)); quiet.
  - unfold rejectCall; run_m.
    destruct (socketRef (world c)), (isConnected (world c)); quiet.
  - unfold subscribe, subscribeToMessages; run_m. quiet.
  - unfold subscribe, subscribeToIncomingCalls; run_m. quiet.
  - destruct (handles c !! k) as [u|] eqn:Hk; [|apply quietStep_refl].
    unfold handlesOk in Hc. rewrite Forall_forall in Hc.
    destruct (Hc u) as [callback [-> | ->]].
    { apply list_elem_of_lookup. eauto. }
    + simpl. unfold exec. quiet.
    + simpl. unfold exec. quiet.
  - quiet.
  - quiet.
Qed.

End QuietHandlers.

(** *** The offline-backlog request *)

Section OfflineBacklog.

Variable behaviour : Callback -> JsArg -> Completion unit.

Lemma handleConnect_exec (socket : nat) (w : World) :
  exec (handleConnect socket) w
  = setTimeout (GetOfflineMessages socket) 1000 (setIsConnected true w).
Proof. reflexivity. Qed.

Lemma run_offlineRequests (events : list Event) (c : Client) :
  handlesOk c -> timersOk (world c) ->
  offlineRequests (trace (world (run behaviour events c)))
  = offlineRequests (trace (world c))
    + pendingDue (now (world c) + totalElapsed events) (timers (world c))
    + settledConnects events.
Proof.
  revert c. induction events as [|e rest IH]; intros c Hh Hok.
  - simpl. rewrite N.add_0_r.
    rewrite pendingDue_later by apply Hok. lia.
  - pose proof (applyEvent_handlesOk behaviour e c Hh) as Hh'.
    pose proof (applyEvent_quiet behaviour e c Hh) as Hq.
    simpl run.
    destruct e;
      try (destruct Hq as (Hn & Ho & Hk & Hp & _);
           rewrite (IH _ Hh' (Hk Hok)), Hn, Ho, Hp; reflexivity).
    + (* time passes *)
      destruct (elapse_facts dt (world c) Hok) as (Hk & Hn & Ho & Hp).
      rewrite (IH _ Hh' Hk). simpl world. rewrite Hn, Ho.
      simpl totalElapsed. simpl settledConnects.
      rewrite N.add_assoc.
      rewrite <- (Hp (now (world c) + dt + totalElapsed rest)%N) by lia.
      lia.
    + (* a connection is established *)
      destruct (markConnected_frame socket (world c)) as [s Hs].
      assert (Hk : timersOk
                     (world (applyEvent behaviour (OnConnect socket) c))).
      { simpl. rewrite Hs, handleConnect_exec. apply setTimeout_ok; [lia|].
        exact Hok. }
      rewrite (IH _ Hh' Hk). simpl world. rewrite Hs, handleConnect_exec.
      unfold setTimeout at 1 2 3. simpl.
      rewrite pendingDue_enqueue. simpl.
      destruct (N.leb_spec 1000 (totalElapsed rest));
        destruct (N.leb_spec (now (world c) + 1000)
                    (now (world c) + totalElapsed rest)); lia.
Qed.

Lemma run_bare (events : list Event) (c : Client) :
  handlesOk c -> offlineEmitsBare (trace (world c)) ->
  offlineEmitsBare (trace (world (run behaviour events c))).
Proof.
  revert c. induction events as [|e rest IH]; intros c Hh Hb; [exact Hb|].
  pose proof (applyEvent_handlesOk behaviour e c Hh) as Hh'.
  pose proof (applyEvent_quiet behaviour e c Hh) as Hq.
  simpl run. apply IH; [exact Hh'|].
  destruct e; try (destruct Hq as (_ & _ & _ & _ & Hq); by apply Hq).
  - simpl. unfold elapse. by apply fire_bare.
  - simpl. by destruct (markConnected_frame socket (world c)) as [s ->].
Qed.

End OfflineBacklog.

(** C9. The connect handler itself emits nothing: it registers one timer,
    due 1000 ms later, whose body sends [get_offline_messages].  Over any
    history of the provider that starts from its initial state, the number
    of offline-backlog requests sent is the number of connect events that
    lie at least 1000 ms before the end of the history: each connection
    gets exactly one request, and only once the delay has passed.  Every
    such request is sent without arguments. *)
Theorem C9_offline_backlog_request
    (behaviour : Callback -> JsArg -> Completion unit)
    (events : list Event) (socket : nat) (w : World) :
  emitted (produced (handleConnect socket) w) = []
  /\ timers (exec (handleConnect socket) w)
     = enqueue {| due := (now w + 1000)%N; task := GetOfflineMessages socket |}
               (timers w)
  /\ runTask (GetOfflineMessages socket) w
     = log (Emit socket "get_offline_messages" []) w
  /\ offlineRequests (trace (world (run behaviour events start)))
     = settledConnects events
  /\ (forall (ev : string) (args : list JsVal),
        In (ev, args) (emitted (trace (world (run behaviour events start)))) ->
        ev = "get_offline_messages" -> args = []).
Proof.
  split.
  { unfold produced. rewrite handleConnect_exec. simpl. by rewrite drop_all. }
  split; [reflexivity|]. split; [reflexivity|].
  assert (Hh : handlesOk start) by constructor.
  split.
  - rewrite run_offlineRequests; [reflexivity | exact Hh |].
    split; constructor.
  - intros ev args Hin Hev.
    assert (Hb : offlineEmitsBare (trace (world (run behaviour events start)))).
    { apply run_bare; [exact Hh | constructor]. }
    unfold offlineEmitsBare in Hb. rewrite Forall_forall in Hb.
    apply (Hb (ev, args)); [|exact Hev].
    by apply list_elem_of_In.
Qed.

(** ** Subscriptions over a history *)

Lemma silentStep_refl (w : World) : silentStep w w.
Proof. split; reflexivity. Qed.

Lemma silentStep_trans (w1 w2 w3 : World) :
  silentStep w1 w2 -> silentStep w2 w3 -> silentStep w1 w3.
Proof.
  intros [Hc1 Hs1] [Hc2 Hs2]. split; intros cat.
  - by rewrite Hc2, Hc1.
  - by rewrite Hs2, Hs1.
Qed.

Lemma silentStep_logs (es : list Effect) (w : World) :
  (forall cat, calls cat es = []) -> silentStep w (logs es w).
Proof.
  intros Hes. split; intros cat; [|by destruct cat].
  simpl. by rewrite calls_app, Hes, app_nil_r.
Qed.

Lemma calls_single (cat : Category) (e : Effect) :
  calls cat [e]
  = match e with
    | Invoke c cb arg => if decide (c = cat) then [(cb, arg)] else []
    | _ => []
    end.
Proof.
  destruct e; try reflexivity.
  unfold calls. simpl. by destruct (decide (cat0 = cat)).
Qed.

Ltac silent :=
  split;
  [ intros [|]; simpl; rewrite ?calls_app, ?calls_single, ?app_nil_r;
    reflexivity
  | intros [|]; reflexivity ].

Lemma runTask_silent (tk : Task) (w : World) : silentStep w (runTask tk w).
Proof.
  destruct tk as [sock|sock|]; simpl; try silent.
  destruct (socketRef w) as [s|]; [destruct (disconnected s)|]; silent.
Qed.

Lemma fire_silent (t : N) (q : list Timer) (w : World) :
  silentStep w (fire t q w).
Proof.
  revert w. induction q as [|tm q IH]; intros w; simpl; [silent|].
  destruct (due tm <=? t)%N; [|silent].
  eapply silentStep_trans; [apply runTask_silent | apply IH].
Qed.

Lemma elapse_silent (dt : N) (w : World) : silentStep w (elapse dt w).
Proof.
  unfold elapse.
  eapply silentStep_trans; [|apply fire_silent]. silent.
Qed.

Lemma calls_dispatchEffects_other
    (behaviour : Callback -> JsArg -> Completion unit) (cat other : Category)
    (site : LogSite) (arg : JsArg) (subscribers : JsSet.t) :
  other <> cat ->
  calls other (dispatchEffects behaviour cat site arg subscribers) = [].
Proof.
  intros Hne. induction subscribers as [|callback rest IH]; [reflexivity|].
  rewrite dispatchEffects_cons, calls_app, IH.
  unfold iterationEffects, calls. simpl.
  destruct (decide (cat = other)) as [Heq|_]; [congruence|].
  by destruct (behaviour callback arg).
Qed.

(** *** The set operations *)

Lemma has_add (cb b : Callback) (s : JsSet.t) :
  JsSet.has cb (JsSet.add b s) = Nat.eqb b cb || JsSet.has cb s.
Proof.
  unfold JsSet.add. destruct (JsSet.has b s) eqn:Hb.
  - destruct (Nat.eqb b cb) eqn:Hbc; [|reflexivity].
    apply Nat.eqb_eq in Hbc. subst b. by rewrite Hb.
  - unfold JsSet.has. rewrite existsb_app. simpl.
    rewrite orb_false_r, (Nat.eqb_sym cb b). apply orb_comm.
Qed.

Lemma has_delete (cb b : Callback) (s : JsSet.t) :
  JsSet.has cb (JsSet.delete b s) = negb (Nat.eqb b cb) && JsSet.has cb s.
Proof.
  unfold JsSet.has, JsSet.delete.
  induction s as [|x s IH]; simpl; [by rewrite andb_false_r|].
  destruct (Nat.eqb b x) eqn:Hbx; simpl.
  - rewrite IH. apply Nat.eqb_eq in Hbx. subst x.
    rewrite (Nat.eqb_sym cb b). by destruct (Nat.eqb b cb).
  - rewrite IH. destruct (Nat.eqb cb x) eqn:Hcx; simpl.
    + apply Nat.eqb_eq in Hcx. subst x. by rewrite Hbx.
    + reflexivity.
Qed.

Lemma add_NoDup (b : Callback) (s : JsSet.t) :
  NoDup s -> NoDup (JsSet.add b s).
Proof.
  intros Hs. unfold JsSet.add. destruct (JsSet.has b s) eqn:Hb; [exact Hs|].
  apply NoDup_app. split; [exact Hs|]. split.
  - intros x Hx Hx'. apply list_elem_of_singleton in Hx'. subst x.
    apply has_false_iff in Hb. apply Hb. by apply list_elem_of_In.
  - apply NoDup_singleton.
Qed.

Lemma delete_NoDup (b : Callback) (s : JsSet.t) :
  NoDup s -> NoDup (JsSet.delete b s).
Proof.
  intros Hs. unfold JsSet.delete.
  induction Hs as [|x s Hx Hs IH]; simpl; [constructor|].
  destruct (negb (Nat.eqb b x)); [|exact IH].
  constructor; [|exact IH].
  intros Hin. apply Hx. apply list_elem_of_In in Hin.
  apply list_elem_of_In. by apply List.filter_In in Hin as [? _].
Qed.

Section Subscriptions.

Variable behaviour : Callback -> JsArg -> Completion unit.

Lemma calls_incoming_call_any (cat : Category) (d : Device)
    (callData : JsArg) (w : World) :
  calls cat (produced (handleIncomingCall behaviour d callData) w)
  = match gateDecision d with
    | Proceed =>
        if bool_decide (CallCategory = cat)
        then map (fun callback => (callback, callData))
                 (callSubscribersRef w)
        else []
    | Dropped => []
    end.
Proof.
  destruct cat.
  - rewrite handleIncomingCall_produced.
    destruct (gate_quiet d) as (Hcalls & _).
    destruct (fastPathEffects_quiet d callData (logs (gateEffects d) w))
      as (Hfast & _).
    rewrite calls_app, Hcalls.
    destruct (gateDecision d); [|reflexivity].
    rewrite calls_app, Hfast.
    by rewrite calls_dispatchEffects_other by discriminate.
  - apply calls_incoming_call.
Qed.

Lemma handleIncomingCall_subscribers (d : Device) (callData : JsArg)
    (w : World) (cat : Category) :
  subscribersOf cat (exec (handleIncomingCall behaviour d callData) w)
  = subscribersOf cat w.
Proof.
  unfold exec. destruct (gateDecision d) eqn:Hg.
  - destruct (handleIncomingCall_proceed behaviour d callData w Hg)
      as (w' & Hrun & _ & Hc & Hm & _).
    rewrite Hrun. by destruct cat.
  - rewrite handleIncomingCall_dropped by exact Hg. by destruct cat.
Qed.

(** A handler run delivers what it publishes to the subscribers of that
    category, and nothing else. *)
Lemma applyEvent_calls (e : Event) (c : Client) (cat : Category) :
  handlesOk c ->
  calls cat (trace (world (applyEvent behaviour e c)))
  = calls cat (trace (world c))
    ++ match publishedBy e with
       | Some (category, event) =>
           if bool_decide (category = cat)
           then map (fun callback => (callback, event))
                    (subscribersOf category (world c))
           else []
       | None => []
       end.
Proof.
  intros Hc.
  assert (Hsilent : forall w',
    silentStep (world c) w' ->
    calls cat (trace w') = calls cat (trace (world c)) ++ []).
  { intros w' [Hs _]. by rewrite app_nil_r, Hs. }
  destruct e; simpl publishedBy; simpl world; unfold exec.
  - apply Hsilent, elapse_silent.
  - apply Hsilent.
    destruct (markConnected_frame socket (world c)) as [s ->]. silent.
  - apply Hsilent.
    destruct (markDisconnected_frame (world c)) as [s ->]. silent.
  - apply Hsilent.
    unfold handleConnectError. destruct error; run_m; silent.
  - rewrite handleReceiveMessage_run. simpl. rewrite calls_app. f_equal.
    destruct cat; simpl.
    + apply calls_dispatchEffects.
    + by apply calls_dispatchEffects_other.
  - destruct (handleIncomingCall_frame behaviour d callData (world c))
      as [Htr _].
    unfold exec in Htr. rewrite Htr, calls_app, calls_incoming_call_any.
    by destruct (gateDecision d).
  - rewrite handleCallCancelled_run. simpl. rewrite calls_app. f_equal.
    destruct cat; simpl.
    + by apply calls_dispatchEffects_other.
    + apply calls_dispatchEffects.
  - apply Hsilent.
    unfold handleOfflineMessagesDelivered. destruct data; run_m; silent.
  - apply Hsilent.
    unfold connectEffect. destruct userToken as [[|ch rest]|]; run_m;
      try (destruct (socketRef (world c))); silent.
  - apply Hsilent. unfold cleanup; run_m. silent.
  - apply Hsilent. unfold sendMessage; run_m.
    destruct (socketRef (world c)), (isConnected (world c)); silent.
  - apply Hsilent. unfold joinConversation; run_m.
    destruct (socketRef (world c)), (isConnected (world c)); silent.
  - apply Hsilent. unfold leaveConversation; run_m.
    destruct (socketRef (world c)), (isConnected (world c)); silent.
  - apply Hsilent. unfold rejectCall; run_m.
    destruct (socketRef (world c)), (isConnected (world c)); silent.
  - unfold subscribe, subscribeToMessages; run_m. by rewrite app_nil_r.
  - unfold subscribe, subscribeToIncomingCalls; run_m.
    by rewrite app_nil_r.
  - rewrite app_nil_r.
    destruct (handles c !! k) as [u|] eqn:Hk; [|reflexivity].
    unfold handlesOk in Hc. rewrite Forall_forall in Hc.
    destruct (Hc u) as [callback [-> | ->]]; [|reflexivity..].
    apply list_elem_of_lookup. eauto.
  - apply Hsilent. silent.
  - apply Hsilent. silent.
Qed.

End Subscriptions.

Section Registrations.

Variable behaviour : Callback -> JsArg -> Completion unit.

Lemma tracks_handlesOk (made : list (Category * Callback)) (c : Client) :
  tracks made c -> handlesOk c.
Proof.
  intros [Hh _]. unfold handlesOk. rewrite Hh.
  apply Forall_forall. intros u Hu.
  apply list_elem_of_fmap in Hu as ([[|] callback] & -> & _);
    exists callback; [left | right]; reflexivity.
Qed.

Lemma applyEvent_same_subscribers (e : Event) (c : Client) (cat : Category) :
  match e with
  | CallSubscribeToMessages _ | CallSubscribeToIncomingCalls _
  | CallUnsubscribe _ => True
  | _ => subscribersOf cat (world (applyEvent behaviour e c))
         = subscribersOf cat (world c)
  end.
Proof.
  destruct e; try exact I; simpl world; unfold exec.
  - apply elapse_silent.
  - destruct (markConnected_frame socket (world c)) as [s ->].
    by destruct cat.
  - destruct (markDisconnected_frame (world c)) as [s ->]. by destruct cat.
  - unfold handleConnectError. destruct error; run_m; by destruct cat.
  - rewrite handleReceiveMessage_run. by destruct cat.
  - apply handleIncomingCall_subscribers.
  - rewrite handleCallCancelled_run. by destruct cat.
  - unfold handleOfflineMessagesDelivered.
    destruct data; run_m; by destruct cat.
  - unfold connectEffect. destruct userToken as [[|ch rest]|]; run_m;
      try (destruct (socketRef (world c))); by destruct cat.
  - unfold cleanup; run_m. by destruct cat.
  - unfold sendMessage; run_m.
    destruct (socketRef (world c)), (isConnected (world c)); by destruct cat.
  - unfold joinConversation; run_m.
    destruct (socketRef (world c)), (isConnected (world c)); by destruct cat.
  - unfold leaveConversation; run_m.
    destruct (socketRef (world c)), (isConnected (world c)); by destruct cat.
  - unfold rejectCall; run_m.
    destruct (socketRef (world c)), (isConnected (world c)); by destruct cat.
  - by destruct cat.
  - by destruct cat.
Qed.

Lemma applyEvent_tracks (made : list (Category * Callback)) (e : Event)
    (c : Client) :
  tracks made c ->
  tracks (madeAfter made e) (applyEvent behaviour e c)
  /\ forall cat cb,
       JsSet.has cb (subscribersOf cat (world (applyEvent behaviour e c)))
       = registeredAfter cat cb made
           (JsSet.has cb (subscribersOf cat (world c))) e.
Proof.
  intros [Hh Hnd].
  pose proof (applyEvent_same_subscribers e c) as Hsame.
  destruct e;
    try (split;
         [ split; [exact Hh | intros cat; rewrite Hsame; apply Hnd]
         | intros cat cb; by rewrite Hsame ]).
  - (* subscribeToMessages *)
    unfold madeAfter. simpl. unfold subscribe, subscribeToMessages; run_m.
    split; [split|].
    + by rewrite Hh, map_app.
    + intros [|]; simpl; [|apply (Hnd CallCategory)].
      apply add_NoDup, (Hnd MessageCategory).
    + intros [|] cb; unfold registeredAfter, sameRegistration; simpl.
      * rewrite has_add. by destruct (Nat.eqb callback cb).
      * reflexivity.
  - (* subscribeToIncomingCalls *)
    unfold madeAfter. simpl.
    unfold subscribe, subscribeToIncomingCalls; run_m.
    split; [split|].
    + by rewrite Hh, map_app.
    + intros [|]; simpl; [apply (Hnd MessageCategory)|].
      apply add_NoDup, (Hnd CallCategory).
    + intros [|] cb; unfold registeredAfter, sameRegistration; simpl.
      * reflexivity.
      * rewrite has_add. by destruct (Nat.eqb callback cb).
  - (* an unsubscribe function is called *)
    unfold madeAfter, registeredAfter. simpl. rewrite Hh.
    rewrite list_lookup_fmap.
    destruct (made !! k) as [[[|] callback]|] eqn:Hk; simpl.
    + split; [split; [exact Hh|]|].
      * intros [|]; simpl; [|apply (Hnd CallCategory)].
        apply delete_NoDup, (Hnd MessageCategory).
      * intros [|] cb; unfold sameRegistration; simpl.
        -- rewrite has_delete. by destruct (Nat.eqb callback cb).
        -- reflexivity.
    + split; [split; [exact Hh|]|].
      * intros [|]; simpl; [apply (Hnd MessageCategory)|].
        apply delete_NoDup, (Hnd CallCategory).
      * intros [|] cb; unfold sameRegistration; simpl.
        -- reflexivity.
        -- rewrite has_delete. by destruct (Nat.eqb callback cb).
    + split; [split; [exact Hh | exact Hnd] | reflexivity].
Qed.

Lemma applyEvent_deliveries (made : list (Category * Callback)) (e : Event)
    (c : Client) (cat : Category) (cb : Callback) :
  tracks made c ->
  deliveries cat cb (trace (world (applyEvent behaviour e c)))
  = deliveries cat cb (trace (world c))
    ++ owedBy cat (JsSet.has cb (subscribersOf cat (world c))) e.
Proof.
  intros Ht. pose proof (tracks_handlesOk made c Ht) as Hh.
  destruct Ht as [_ Hnd].
  unfold deliveries. rewrite (applyEvent_calls behaviour e c cat Hh).
  rewrite omap_app. f_equal. unfold owedBy.
  destruct (publishedBy e) as [[category event]|]; [|reflexivity].
  destruct (bool_decide (category = cat)) eqn:Hcat.
  - apply bool_decide_eq_true in Hcat. subst category.
    rewrite andb_true_r. apply deliveries_of_map, Hnd.
  - by rewrite andb_false_r.
Qed.

Lemma run_deliveries (events : list Event)
    (made : list (Category * Callback)) (c : Client)
    (cat : Category) (cb : Callback) :
  tracks made c ->
  deliveries cat cb (trace (world (run behaviour events c)))
  = deliveries cat cb (trace (world c))
    ++ expectedDeliveries cat cb made
         (JsSet.has cb (subscribersOf cat (world c))) events.
Proof.
  revert made c. induction events as [|e rest IH]; intros made c Ht.
  - simpl. by rewrite app_nil_r.
  - destruct (applyEvent_tracks made e c Ht) as [Ht' Hreg].
    simpl. rewrite (IH _ _ Ht'), Hreg.
    rewrite (applyEvent_deliveries made e c cat cb Ht).
    by rewrite <- app_assoc.
Qed.

End Registrations.

(** C6. Over any history of subscriptions, calls of the returned
    unsubscribe functions and handler runs, started from the initial
    state, the events delivered to a callback in a category are exactly,
    in order and once each, the events published to that category while
    the callback was registered there: registered by a subscription (a
    second subscription of a registered callback changes nothing), no
    longer registered once an unsubscribe function obtained for it has
    been called. *)
Theorem C6_deliveries_follow_registration
    (behaviour : Callback -> JsArg -> Completion unit)
    (events : list Event) (cat : Category) (cb : Callback) :
  deliveries cat cb (trace (world (run behaviour events start)))
  = expectedDeliveries cat cb [] false events.
Proof.
  rewrite (run_deliveries behaviour events [] start cat cb).
  - by destruct cat.
  - split; [reflexivity|]. intros [|]; constructor.
Qed.

(** *** Sample histories *)

(** Callback 3 subscribes twice, receives one message once, is removed by
    the first unsubscribe function, misses a message, subscribes again and
    receives the next one. *)
Example subscription_history :
  deliveries MessageCategory 3
    (trace (world (run sampleBehaviour
                     [CallSubscribeToMessages 3; CallSubscribeToMessages 3;
                      OnReceiveMessage None; CallUnsubscribe 0;
                      OnReceiveMessage None; CallSubscribeToMessages 3;
                      OnReceiveMessage (Some samplePayload);
                      CallUnsubscribe 1; OnReceiveMessage None;
                      OnCallCancelled None] start)))
  = [None; Some samplePayload].
Proof. vm_compute. reflexivity. Qed.

(** Nothing is requested 999 ms after the connection, one request is out
    after 1000 ms, and a reconnection gets a request of its own. *)
Example offline_backlog_history :
  offlineRequests
    (trace (world (run sampleBehaviour [OnConnect 0; Elapse 999] start))) = 0
  /\ offlineRequests
       (trace (world (run sampleBehaviour [OnConnect 0; Elapse 1000] start)))
     = 1
  /\ offlineRequests
       (trace (world (run sampleBehaviour
                        [OnConnect 0; Elapse 500; OnDisconnect; OnConnect 0;
                         Elapse 600; Elapse 500] start)))
     = 2.
Proof. repeat split; vm_compute; reflexivity. Qed.

(** ** Further properties of the provider *)

(** *** Frames *)

Lemma runTask_cells (tk : Task) (w : World) : cells (runTask tk w) = cells w.
Proof.
  destruct tk as [sock|sock|]; simpl; try reflexivity.
  destruct (socketRef w) as [s|]; [destruct (disconnected s)|]; reflexivity.
Qed.

Lemma fire_cells (t : N) (q : list Timer) (w : World) :
  cells (fire t q w) = cells w.
Proof.
  revert w. induction q as [|tm q IH]; intros w; simpl; [reflexivity|].
  destruct (due tm <=? t)%N; [|reflexivity].
  by rewrite IH, runTask_cells.
Qed.

Lemma elapse_cells (dt : N) (w : World) : cells (elapse dt w) = cells w.
Proof. unfold elapse. by rewrite fire_cells. Qed.

Lemma sent_app (t1 t2 : list Effect) : sent (t1 ++ t2) = sent t1 ++ sent t2.
Proof. unfold sent. by rewrite emitted_app, List.filter_app. Qed.

Lemma sent_silent (es : list Effect) : emitted es = [] -> sent es = [].
Proof. unfold sent. by intros ->. Qed.

Lemma runTask_sent (tk : Task) (w : World) :
  sent (trace (runTask tk w)) = sent (trace w).
Proof.
  destruct tk as [sock|sock|]; simpl; try reflexivity.
  - rewrite sent_app. simpl. by rewrite app_nil_r.
  - destruct (socketRef w) as [s|]; [destruct (disconnected s)|];
      simpl; try reflexivity.
    rewrite sent_app. simpl. by rewrite app_nil_r.
Qed.

Lemma fire_sent (t : N) (q : list Timer) (w : World) :
  sent (trace (fire t q w)) = sent (trace w).
Proof.
  revert w. induction q as [|tm q IH]; intros w; simpl; [reflexivity|].
  destruct (due tm <=? t)%N; [|reflexivity].
  by rewrite IH, runTask_sent.
Qed.

Section IncomingCallFrame.

Variable behaviour : Callback -> JsArg -> Completion unit.

Lemma handleIncomingCall_emits_nothing (d : Device) (callData : JsArg)
    (w : World) :
  emitted (produced (handleIncomingCall behaviour d callData) w) = [].
Proof.
  rewrite handleIncomingCall_produced.
  destruct (gate_quiet d) as (_ & _ & _ & Hgate).
  rewrite emitted_app, Hgate.
  destruct (gateDecision d); [|reflexivity].
  by rewrite emitted_app, fastPathEffects_silent, emitted_dispatchEffects.
Qed.

Lemma handleIncomingCall_cells (d : Device) (callData : JsArg) (w : World) :
  cells (exec (handleIncomingCall behaviour d callData) w) = cells w.
Proof.
  unfold exec, cells. destruct (gateDecision d) eqn:Hg.
  - destruct (handleIncomingCall_proceed behaviour d callData w Hg)
      as (w' & Hrun & _ & Hc & Hm & Hu & Hi & Hs).
    rewrite Hrun. simpl. by rewrite Hc, Hm, Hu, Hi, Hs.
  - by rewrite handleIncomingCall_dropped by exact Hg.
Qed.

End IncomingCallFrame.

(** *** The unread counter over a history *)

Section UnreadCounter.

Variable behaviour : Callback -> JsArg -> Completion unit.

Lemma applyEvent_unread (e : Event) (c : Client) :
  handlesOk c ->
  unreadMessageCount (world (applyEvent behaviour e c))
  = unreadAfter (unreadMessageCount (world c)) [e].
Proof.
  intros Hc. destruct e; simpl; unfold exec.
  - pose proof (elapse_cells dt (world c)) as H. by injection H.
  - by destruct (markConnected_frame socket (world c)) as [s ->].
  - by destruct (markDisconnected_frame (world c)) as [s ->].
  - unfold handleConnectError. by destruct error.
  - by rewrite handleReceiveMessage_run.
  - pose proof (handleIncomingCall_cells behaviour d callData (world c)) as H.
    unfold exec in H. by injection H.
  - by rewrite handleCallCancelled_run.
  - unfold handleOfflineMessagesDelivered. by destruct data.
  - unfold connectEffect. destruct userToken as [[|ch rest]|]; run_m;
      try (destruct (socketRef (world c))); reflexivity.
  - reflexivity.
  - unfold sendMessage; run_m.
    by destruct (socketRef (world c)), (isConnected (world c)).
  - unfold joinConversation; run_m.
    by destruct (socketRef (world c)), (isConnected (world c)).
  - unfold leaveConversation; run_m.
    by destruct (socketRef (world c)), (isConnected (world c)).
  - unfold rejectCall; run_m.
    by destruct (socketRef (world c)), (isConnected (world c)).
  - reflexivity.
  - reflexivity.
  - destruct (handles c !! k) as [u|] eqn:Hk; [|reflexivity].
    unfold handlesOk in Hc. rewrite Forall_forall in Hc.
    destruct (Hc u) as [callback [-> | ->]]; [|reflexivity..].
    apply list_elem_of_lookup. eauto.
  - reflexivity.
  - reflexivity.
Qed.

Lemma unreadAfter_cons (count : N) (e : Event) (rest : list Event) :
  unreadAfter count (e :: rest) = unreadAfter (unreadAfter count [e]) rest.
Proof. by destruct e. Qed.

Lemma run_unread (events : list Event) (c : Client) :
  handlesOk c ->
  unreadMessageCount (world (run behaviour events c))
  = unreadAfter (unreadMessageCount (world c)) events.
Proof.
  revert c. induction events as [|e rest IH]; intros c Hc; [reflexivity|].
  simpl run. rewrite IH by (by apply applyEvent_handlesOk).
  by rewrite applyEvent_unread, <- unreadAfter_cons.
Qed.

End UnreadCounter.

(** X1. Over any history of the provider the unread counter is
    determined by three kinds of event alone: each run of the message
    handler and each [addUnreadMessage] adds one, [clearUnreadMessages]
    resets it to zero, and nothing else (call events, timers, sends,
    subscriptions, connection changes, logout) touches it. *)
Theorem unread_counter_over_history
    (behaviour : Callback -> JsArg -> Completion unit)
    (events : list Event) :
  unreadMessageCount (world (run behaviour events start))
  = unreadAfter 0 events.
Proof. apply run_unread. constructor. Qed.

(** *** Sending needs a connection *)

Section Offline.

Variable behaviour : Callback -> JsArg -> Completion unit.

Lemma applyEvent_offline (e : Event) (c : Client) :
  handlesOk c ->
  isConnected (world c) = false ->
  isConnectEvent e = false ->
  isConnected (world (applyEvent behaviour e c)) = false
  /\ sent (trace (world (applyEvent behaviour e c))) = sent (trace (world c)).
Proof.
  intros Hc Hoff He. destruct e; try discriminate He; simpl; unfold exec.
  - split.
    + pose proof (elapse_cells dt (world c)) as H. injection H. congruence.
    + unfold elapse. by rewrite fire_sent.
  - by destruct (markDisconnected_frame (world c)) as [s ->].
  - unfold handleConnectError. destruct error; run_m; split; try done.
    rewrite sent_app. simpl. by rewrite app_nil_r.
  - rewrite handleReceiveMessage_run. simpl. split; [exact Hoff|].
    by rewrite sent_app, (sent_silent _ (emitted_dispatchEffects _ _ _ _ _)),
      app_nil_r.
  - split.
    + pose proof (handleIncomingCall_cells behaviour d callData (world c))
        as H.
      unfold exec in H. injection H. congruence.
    + destruct (handleIncomingCall_frame behaviour d callData (world c))
        as [Htr _].
      unfold exec in Htr. rewrite Htr, sent_app.
      by rewrite (sent_silent _ (handleIncomingCall_emits_nothing
                                   behaviour d callData (world c))),
        app_nil_r.
  - rewrite handleCallCancelled_run. simpl. split; [exact Hoff|].
    by rewrite sent_app, (sent_silent _ (emitted_dispatchEffects _ _ _ _ _)),
      app_nil_r.
  - unfold handleOfflineMessagesDelivered. by destruct data.
  - unfold connectEffect. destruct userToken as [[|ch rest]|]; run_m;
      try (destruct (socketRef (world c))); simpl;
      rewrite ?sent_app; simpl; rewrite ?app_nil_r; by split.
  - run_m. rewrite sent_app. simpl. by rewrite app_nil_r.
  - unfold sendMessage; run_m. rewrite Hoff.
    destruct (socketRef (world c)); simpl; rewrite sent_app; simpl;
      by rewrite app_nil_r.
  - unfold joinConversation; run_m. rewrite Hoff.
    destruct (socketRef (world c)); simpl; rewrite sent_app; simpl;
      by rewrite app_nil_r.
  - unfold leaveConversation; run_m. rewrite Hoff.
    by destruct (socketRef (world c)).
  - unfold rejectCall; run_m. rewrite Hoff.
    destruct (socketRef (world c)); simpl; rewrite sent_app; simpl;
      by rewrite app_nil_r.
  - by split.
  - by split.
  - destruct (handles c !! k) as [u|] eqn:Hk; [|by split].
    unfold handlesOk in Hc. rewrite Forall_forall in Hc.
    destruct (Hc u) as [callback [-> | ->]]; [|by split..].
    apply list_elem_of_lookup. eauto.
  - by split.
  - by split.
Qed.

Lemma run_handlesOk (events : list Event) (c : Client) :
  handlesOk c -> handlesOk (run behaviour events c).
Proof.
  revert c. induction events as [|e rest IH]; intros c Hc; [exact Hc|].
  simpl. by apply IH, applyEvent_handlesOk.
Qed.

Lemma run_offline (events : list Event) (c : Client) :
  handlesOk c ->
  isConnected (world c) = false ->
  forallb (fun e => negb (isConnectEvent e)) events = true ->
  isConnected (world (run behaviour events c)) = false
  /\ sent (trace (world (run behaviour events c))) = sent (trace (world c)).
Proof.
  revert c. induction events as [|e rest IH]; intros c Hc Hoff Hev;
    [by split|].
  simpl in Hev. apply andb_true_iff in Hev as [He Hrest].
  apply negb_true_iff in He.
  destruct (applyEvent_offline e c Hc Hoff He) as [Hoff' Hsent].
  simpl run.
  destruct (IH (applyEvent behaviour e c)
               (applyEvent_handlesOk behaviour e c Hc) Hoff' Hrest)
    as [Hfinal Hsent'].
  split; [exact Hfinal | by rewrite Hsent', Hsent].
Qed.

End Offline.

(** X2. Once the connection flag is down (initially, after a disconnect,
    a connect error or a cleanup), nothing is sent through the public
    interface and the flag stays down until the next connect event:
    whatever else happens in between (sends, joins, rejects, timers,
    incoming events, subscriptions), the list of emitted
    [send_message] / [join_conversation] / [leave_conversation] /
    [reject_call] events does not grow. *)
Theorem sends_need_connection
    (behaviour : Callback -> JsArg -> Completion unit)
    (before after : list Event) :
  isConnected (world (run behaviour before start)) = false ->
  forallb (fun e => negb (isConnectEvent e)) after = true ->
  isConnected (world (run behaviour after (run behaviour before start)))
  = false
  /\ sent (trace (world (run behaviour after (run behaviour before start))))
     = sent (trace (world (run behaviour before start))).
Proof.
  intros Hoff Hafter. apply run_offline; [|exact Hoff|exact Hafter].
  apply run_handlesOk. constructor.
Qed.

Lemma sends_need_connection_witness :
  sent (trace (world (run sampleBehaviour
                        [CallSendMessage (VStr "late"); Elapse 2000;
                         CallRejectCall "c1" "u7" None]
                        (run sampleBehaviour
                           [RunConnectEffect (Some "Bearer U_abc");
                            OnConnect 0; CallSendMessage (VStr "hello");
                            OnDisconnect] start))))
  = [("send_message", [VStr "hello"])].
Proof.
  rewrite (proj2 (sends_need_connection sampleBehaviour
                    [RunConnectEffect (Some "Bearer U_abc"); OnConnect 0;
                     CallSendMessage (VStr "hello"); OnDisconnect]
                    [CallSendMessage (VStr "late"); Elapse 2000;
                     CallRejectCall "c1" "u7" None]
                    eq_refl eq_refl)).
  reflexivity.
Defined.

(** *** The microphone check, case by case *)

(** Every field of a device, one case each. *)
Ltac device_cases d :=
  let os := fresh "os" in
  let st := fresh "st" in
  let ac := fresh "ac" in
  let ar := fresh "ar" in
  let ic := fresh "ic" in
  let ir := fresh "ir" in
  destruct d as [os st ac ar ic ir];
  destruct os, ac as [[]|], ar as [[]|], ic as [[]|], ir as [[]|].

Lemma gateDecision_denied (d : Device) :
  gateDecision d = if permissionDenied d then Dropped else Proceed.
Proof. device_cases d; reflexivity. Qed.

Lemma gateEffects_counts (d : Device) :
  permissionChecks (gateEffects d) = 1
  /\ permissionRequests (gateEffects d) = (if checkRefused d then 1 else 0)
  /\ length (loggedErrors PermissionCheckFailed (gateEffects d))
     = (if permissionFails d then 1 else 0)
  /\ notifications (gateEffects d) = []
  /\ connects (gateEffects d) = [].
Proof. device_cases d; repeat split; reflexivity. Qed.

Lemma permission_trichotomy (d : Device) :
  (permissionGranted d = true /\ permissionDenied d = false
   /\ permissionFails d = false)
  \/ (permissionGranted d = false /\ permissionDenied d = true
      /\ permissionFails d = false)
  \/ (permissionGranted d = false /\ permissionDenied d = false
      /\ permissionFails d = true).
Proof. device_cases d; auto. Qed.

Lemma permissionChecks_app (t1 t2 : list Effect) :
  permissionChecks (t1 ++ t2) = permissionChecks t1 + permissionChecks t2.
Proof. unfold permissionChecks. by rewrite List.filter_app, length_app. Qed.

Lemma permissionRequests_app (t1 t2 : list Effect) :
  permissionRequests (t1 ++ t2)
  = permissionRequests t1 + permissionRequests t2.
Proof. unfold permissionRequests. by rewrite List.filter_app, length_app. Qed.

Lemma notifications_app (t1 t2 : list Effect) :
  notifications (t1 ++ t2) = notifications t1 ++ notifications t2.
Proof. apply omap_app. Qed.

Lemma connects_app (t1 t2 : list Effect) :
  connects (t1 ++ t2) = connects t1 ++ connects t2.
Proof. apply omap_app. Qed.

Lemma disconnects_app (t1 t2 : list Effect) :
  disconnects (t1 ++ t2) = disconnects t1 ++ disconnects t2.
Proof. apply omap_app. Qed.

(** A dispatch writes invocations and error logs only. *)
Lemma dispatchEffects_only_calls
    (behaviour : Callback -> JsArg -> Completion unit) (cat : Category)
    (site : LogSite) (arg : JsArg) (subscribers : JsSet.t) :
  permissionChecks (dispatchEffects behaviour cat site arg subscribers) = 0
  /\ permissionRequests (dispatchEffects behaviour cat site arg subscribers)
     = 0
  /\ notifications (dispatchEffects behaviour cat site arg subscribers) = []
  /\ connects (dispatchEffects behaviour cat site arg subscribers) = []
  /\ disconnects (dispatchEffects behaviour cat site arg subscribers) = [].
Proof.
  induction subscribers as [|callback rest (IH1 & IH2 & IH3 & IH4 & IH5)];
    [repeat split; reflexivity|].
  rewrite dispatchEffects_cons, permissionChecks_app, permissionRequests_app,
    notifications_app, connects_app, disconnects_app, IH1, IH2, IH3, IH4, IH5.
  unfold iterationEffects.
  destruct (behaviour callback arg); repeat split; reflexivity.
Qed.

Lemma fastPathEffects_shape (d : Device) (callData : JsArg) (w : World) :
  permissionChecks (fastPathEffects d callData w) = 0
  /\ permissionRequests (fastPathEffects d callData w) = 0
  /\ notifications (fastPathEffects d callData w)
     = (if isIOS d && negb (isActive d) then [callData] else [])
  /\ connects (fastPathEffects d callData w)
     = (if isIOS d && isActive d
        then match socketRef w with
             | Some s => if disconnected s then [sock_id s] else []
             | None => []
             end
        else []).
Proof.
  unfold fastPathEffects, isIOS, isActive.
  destruct (OS d); try (repeat split; reflexivity).
  destruct (currentState d); try (repeat split; reflexivity).
  destruct (socketRef w) as [s|]; [destruct (disconnected s)|];
    repeat split; reflexivity.
Qed.

Section IncomingCallCases.

Variable behaviour : Callback -> JsArg -> Completion unit.

Lemma handleIncomingCall_timers (d : Device) (callData : JsArg) (w : World) :
  timers (exec (handleIncomingCall behaviour d callData) w)
  = (if isIOS d && negb (isActive d) && negb (permissionDenied d)
     then enqueue {| due := (now w + 50)%N; task := WarmUp |} (timers w)
     else timers w)
  /\ now (exec (handleIncomingCall behaviour d callData) w) = now w.
Proof.
  unfold exec, handleIncomingCall, mbind, M_bind.
  rewrite microphoneGate_run, gateDecision_denied.
  destruct (permissionDenied d);
    [by rewrite andb_false_r|].
  rewrite andb_true_r. unfold iosFastPath, isIOS, isActive, warmUp.
  destruct (OS d); run_m; try (by rewrite notifyCallSubscribers_run).
  destruct (currentState d); run_m; rewrite notifyCallSubscribers_run;
    simpl; try done.
  destruct (socketRef w) as [s|]; [destruct (disconnected s)|]; done.
Qed.

End IncomingCallCases.

Section IncomingCallTail.

Variable behaviour : Callback -> JsArg -> Completion unit.

(** What follows the microphone check in the trace of one run. *)
Lemma handleIncomingCall_tail (d : Device) (callData : JsArg) (w : World) :
  exists tail,
    produced (handleIncomingCall behaviour d callData) w
    = gateEffects d ++ tail
    /\ permissionChecks tail = 0
    /\ permissionRequests tail = 0
    /\ loggedErrors PermissionCheckFailed tail = []
    /\ notifications tail
       = (if isIOS d && negb (isActive d) && negb (permissionDenied d)
          then [callData] else [])
    /\ connects tail
       = (if isIOS d && isActive d && negb (permissionDenied d)
          then match socketRef w with
               | Some s => if disconnected s then [sock_id s] else []
               | None => []
               end
          else []).
Proof.
  eexists. split; [apply handleIncomingCall_produced|].
  rewrite gateDecision_denied.
  destruct (permissionDenied d);
    [rewrite !andb_false_r; repeat split; reflexivity|].
  rewrite !andb_true_r.
  destruct (fastPathEffects_shape d callData (logs (gateEffects d) w))
    as (Hfc & Hfr & Hfn & Hfk).
  destruct (dispatchEffects_only_calls behaviour CallCategory
              CallSubscriberFailed callData (callSubscribersRef w))
    as (Hdc & Hdr & Hdn & Hdk & _).
  rewrite permissionChecks_app, permissionRequests_app, loggedErrors_app,
    notifications_app, connects_app.
  rewrite Hfc, Hfr, Hfn, Hfk, Hdc, Hdr, Hdn, Hdk.
  rewrite fastPathEffects_no_errors.
  rewrite loggedErrors_dispatchEffects_other by discriminate.
  rewrite !app_nil_r. repeat split; reflexivity.
Qed.

End IncomingCallTail.

(** X3. Whether an incoming call reaches the subscribers is decided by
    the permission answers alone: the call is dropped, with exactly one
    prompt, exactly when the check and the request that follows both
    resolve without the permission; in every other case (granted at the
    check, granted at the request, or a round trip that throws) no prompt
    is shown and every registered call subscriber is called, in order,
    with the payload as received. *)
Theorem incoming_call_dropped_iff_denied
    (behaviour : Callback -> JsArg -> Completion unit)
    (d : Device) (callData : JsArg) (w : World) :
  calls CallCategory (produced (handleIncomingCall behaviour d callData) w)
  = (if permissionDenied d then []
     else map (fun callback => (callback, callData)) (callSubscribersRef w))
  /\ alerts (produced (handleIncomingCall behaviour d callData) w)
     = (if permissionDenied d then 1 else 0).
Proof.
  rewrite calls_incoming_call, alerts_incoming_call, gateDecision_denied.
  by destruct (permissionDenied d).
Qed.

(** X4. One run of the incoming-call handler makes exactly one permission
    check; it makes the permission request exactly when that check
    resolved without granting (a granted or a throwing check asks nothing
    more); and it logs a permission error exactly when one of the two
    round trips throws.  The three outcomes (granted, denied, failed)
    exclude each other and cover every answer of the device. *)
Theorem permission_round_trips
    (behaviour : Callback -> JsArg -> Completion unit)
    (d : Device) (callData : JsArg) (w : World) :
  permissionChecks (produced (handleIncomingCall behaviour d callData) w) = 1
  /\ permissionRequests
       (produced (handleIncomingCall behaviour d callData) w)
     = (if checkRefused d then 1 else 0)
  /\ length (loggedErrors PermissionCheckFailed
               (produced (handleIncomingCall behaviour d callData) w))
     = (if permissionFails d then 1 else 0)
  /\ ((permissionGranted d = true /\ permissionDenied d = false
       /\ permissionFails d = false)
      \/ (permissionGranted d = false /\ permissionDenied d = true
          /\ permissionFails d = false)
      \/ (permissionGranted d = false /\ permissionDenied d = false
          /\ permissionFails d = true)).
Proof.
  destruct (handleIncomingCall_tail behaviour d callData w)
    as (tail & -> & Hc & Hr & He & _).
  destruct (gateEffects_counts d) as (Hgc & Hgr & Hge & _).
  rewrite permissionChecks_app, permissionRequests_app, loggedErrors_app,
    length_app, Hc, Hr, He, Hgc, Hgr, Hge.
  split; [reflexivity|]. split; [lia|]. split; [simpl; lia|].
  apply permission_trichotomy.
Qed.

(** X5. The platform block of the incoming-call handler.  The local
    notification is shown, once and with the payload as received, exactly
    when the platform is iOS, the application is not active and the call
    is not dropped; in that case a reconnection attempt is scheduled 50 ms
    later.  In the foreground on iOS the handler calls [connect()] at once,
    and only if the current socket exists and is disconnected.  On any
    other platform, and for a dropped call, there is no notification, no
    [connect()] and no timer. *)
Theorem incoming_call_platform_block
    (behaviour : Callback -> JsArg -> Completion unit)
    (d : Device) (callData : JsArg) (w : World) :
  notifications (produced (handleIncomingCall behaviour d callData) w)
  = (if isIOS d && negb (isActive d) && negb (permissionDenied d)
     then [callData] else [])
  /\ connects (produced (handleIncomingCall behaviour d callData) w)
     = (if isIOS d && isActive d && negb (permissionDenied d)
        then match socketRef w with
             | Some s => if disconnected s then [sock_id s] else []
             | None => []
             end
        else [])
  /\ timers (exec (handleIncomingCall behaviour d callData) w)
     = (if isIOS d && negb (isActive d) && negb (permissionDenied d)
        then enqueue {| due := (now w + 50)%N; task := WarmUp |} (timers w)
        else timers w).
Proof.
  destruct (handleIncomingCall_tail behaviour d callData w)
    as (tail & -> & _ & _ & _ & Hn & Hk).
  destruct (gateEffects_counts d) as (_ & _ & _ & Hgn & Hgk).
  rewrite notifications_app, connects_app, Hgn, Hgk, Hn, Hk.
  split; [reflexivity|]. split; [reflexivity|].
  apply handleIncomingCall_timers.
Qed.

(** *** Packets nobody listens to *)

Lemma filter_unbound (bs : list (string * Handler)) (eventName : string) :
  ~ In eventName (map fst bs) ->
  List.filter (fun b => String.eqb (fst b) eventName) bs = [].
Proof.
  induction bs as [|b rest IH]; intros Hnot; [reflexivity|].
  cbn [List.filter].
  destruct (String.eqb_spec (fst b) eventName) as [Heq|_].
  - exfalso. apply Hnot. left. exact Heq.
  - apply IH. intros Hin. apply Hnot. by right.
Qed.

Lemma listeners_unbound (eventName : string) :
  ~ In eventName (map fst bindings) -> listeners eventName = [].
Proof.
  intros Hnot. unfold listeners. by rewrite filter_unbound.
Qed.

(** X6. A packet whose event name has no [socket.on] binding is ignored:
    neither the named listeners nor the catch-all listener touch the
    state, call a subscriber or throw. *)
Theorem unbound_event_is_ignored
    (behaviour : Callback -> JsArg -> Completion unit)
    (socket : nat) (d : Device) (eventName : string) (args : list JsArg)
    (w : World) :
  ~ In eventName (map fst bindings) ->
  onevent behaviour socket d eventName args w = (w, Normal tt).
Proof.
  intros Hnot. unfold onevent, onAnyListener.
  rewrite (listeners_unbound eventName Hnot).
  destruct (String.eqb_spec eventName "incoming_call") as [->|_].
  { exfalso. apply Hnot. cbn [map fst bindings]. unfold bindings.
    cbn [map fst]. do 5 right. by left. }
  destruct (String.eqb_spec eventName "call_cancelled") as [->|_].
  { exfalso. apply Hnot. unfold bindings. cbn [map fst].
    do 6 right. by left. }
  reflexivity.
Qed.

Lemma unbound_event_is_ignored_witness :
  onevent sampleBehaviour 0 grantedDevice "typing" [Some samplePayload]
          sampleWorld
  = (sampleWorld, Normal tt).
Proof.
  apply unbound_event_is_ignored. simpl.
  intros [H|[H|[H|[H|[H|[H|[H|[H|[]]]]]]]]]; discriminate H.
Defined.

(** *** Subscribing and unsubscribing *)

Lemma delete_add (cb : Callback) (s : JsSet.t) :
  JsSet.delete cb (JsSet.add cb s) = JsSet.delete cb s.
Proof.
  unfold JsSet.add. destruct (JsSet.has cb s); [reflexivity|].
  unfold JsSet.delete. rewrite List.filter_app. simpl.
  rewrite Nat.eqb_refl. simpl. by rewrite app_nil_r.
Qed.

Lemma delete_absent (cb : Callback) (s : JsSet.t) :
  ~ In cb s -> JsSet.delete cb s = s.
Proof.
  intros Hnot. unfold JsSet.delete.
  induction s as [|x s IH]; [reflexivity|].
  simpl. destruct (Nat.eqb_spec cb x) as [->|_].
  - exfalso. apply Hnot. by left.
  - simpl. f_equal. apply IH. intros Hin. apply Hnot. by right.
Qed.

Lemma delete_removes (cb : Callback) (s : JsSet.t) :
  ~ In cb (JsSet.delete cb s).
Proof.
  unfold JsSet.delete. intros Hin. apply List.filter_In in Hin as [_ Hne].
  by rewrite Nat.eqb_refl in Hne.
Qed.

Lemma delete_delete (cb : Callback) (s : JsSet.t) :
  JsSet.delete cb (JsSet.delete cb s) = JsSet.delete cb s.
Proof. apply delete_absent, delete_removes. Qed.

Lemma add_member (cb : Callback) (s : JsSet.t) : In cb (JsSet.add cb s).
Proof.
  unfold JsSet.add. destruct (JsSet.has cb s) eqn:Hhas.
  - by apply has_true_iff.
  - apply in_or_app. right. by left.
Qed.

Lemma setMessageSubscribers_same (w : World) :
  setMessageSubscribers (messageSubscribersRef w) w = w.
Proof. by destruct w. Qed.

Lemma setCallSubscribers_same (w : World) :
  setCallSubscribers (callSubscribersRef w) w = w.
Proof. by destruct w. Qed.

(** X7. Subscribing and then calling the returned function.  After
    [subscribeToMessages callback] the callback is registered; calling the
    returned function leaves the message set as the old one without the
    callback, whether or not the callback had been registered before (the
    set does not count registrations), and leaves everything else alone.
    If the callback was not registered before, the state is exactly what
    it was; calling the function a second time changes nothing.  The same
    holds for [subscribeToIncomingCalls] and the call set. *)
Theorem subscribe_then_unsubscribe (callback : Callback) (w : World) :
  (exists w1 unsubscribe,
     subscribeToMessages callback w = (w1, Normal unsubscribe)
     /\ In callback (messageSubscribersRef w1)
     /\ callSubscribersRef w1 = callSubscribersRef w
     /\ completion unsubscribe w1 = Normal tt
     /\ messageSubscribersRef (exec unsubscribe w1)
        = JsSet.delete callback (messageSubscribersRef w)
     /\ ~ In callback (messageSubscribersRef (exec unsubscribe w1))
     /\ callSubscribersRef (exec unsubscribe w1) = callSubscribersRef w
     /\ (~ In callback (messageSubscribersRef w) ->
         exec unsubscribe w1 = w)
     /\ exec unsubscribe (exec unsubscribe w1) = exec unsubscribe w1)
  /\ (exists w1 unsubscribe,
        subscribeToIncomingCalls callback w = (w1, Normal unsubscribe)
        /\ In callback (callSubscribersRef w1)
        /\ messageSubscribersRef w1 = messageSubscribersRef w
        /\ completion unsubscribe w1 = Normal tt
        /\ callSubscribersRef (exec unsubscribe w1)
           = JsSet.delete callback (callSubscribersRef w)
        /\ ~ In callback (callSubscribersRef (exec unsubscribe w1))
        /\ messageSubscribersRef (exec unsubscribe w1)
           = messageSubscribersRef w
        /\ (~ In callback (callSubscribersRef w) ->
            exec unsubscribe w1 = w)
        /\ exec unsubscribe (exec unsubscribe w1) = exec unsubscribe w1).
Proof.
  split.
  - eexists _, _. split; [reflexivity|]. unfold exec, completion. simpl.
    rewrite delete_add, delete_delete.
    repeat split; try reflexivity.
    + apply add_member.
    + apply delete_removes.
    + intros Hnot. rewrite delete_absent by exact Hnot. by destruct w.
  - eexists _, _. split; [reflexivity|]. unfold exec, completion. simpl.
    rewrite delete_add, delete_delete.
    repeat split; try reflexivity.
    + apply add_member.
    + apply delete_removes.
    + intros Hnot. rewrite delete_absent by exact Hnot. by destruct w.
Qed.

Lemma subscribe_then_unsubscribe_witness :
  exists w1 unsubscribe,
    subscribeToMessages 7 sampleWorld = (w1, Normal unsubscribe)
    /\ exec unsubscribe w1 = sampleWorld.
Proof.
  destruct (proj1 (subscribe_then_unsubscribe 7 sampleWorld))
    as (w1 & unsubscribe & Hsub & _ & _ & _ & _ & _ & _ & Hback & _).
  exists w1, unsubscribe. split; [exact Hsub|].
  apply Hback. simpl. intros [H|[H|[]]]; discriminate H.
Defined.

(** *** Logging out *)

(** X8. When the token is absent or empty the effect tears the connection
    down: if a socket is held it is disconnected exactly once, the
    reference is cleared and the connection flag is set to false; if no
    socket is held nothing at all happens, so running the effect again is
    harmless.  No connection is opened, and the subscriber sets, the
    unread counter and the pending timers are kept. *)
Theorem logout_tears_down (userToken : option string) (w : World) :
  userToken = None \/ userToken = Some "" ->
  completion (connectEffect userToken) w = Normal None
  /\ socketRef (exec (connectEffect userToken) w) = None
  /\ disconnects (produced (connectEffect userToken) w)
     = match socketRef w with
       | Some s => [sock_id s]
       | None => []
       end
  /\ (forall s, socketRef w = Some s ->
        isConnected (exec (connectEffect userToken) w) = false)
  /\ (socketRef w = None -> exec (connectEffect userToken) w = w)
  /\ exec (connectEffect userToken) (exec (connectEffect userToken) w)
     = exec (connectEffect userToken) w
  /\ messageSubscribersRef (exec (connectEffect userToken) w)
     = messageSubscribersRef w
  /\ callSubscribersRef (exec (connectEffect userToken) w)
     = callSubscribersRef w
  /\ unreadMessageCount (exec (connectEffect userToken) w)
     = unreadMessageCount w
  /\ timers (exec (connectEffect userToken) w) = timers w.
Proof.
  intros Htoken. rewrite connectEffect_completion, connectEffect_produced.
  assert (Hrun :
    exec (connectEffect userToken) w
    = match socketRef w with
      | Some s =>
          setIsConnected false
            (setSocketRef None (log (SocketDisconnect (sock_id s)) w))
      | None => w
      end).
  { unfold exec, connectEffect.
    destruct Htoken as [-> | ->]; run_m; by destruct (socketRef w). }
  assert (Hagain :
    forall w', socketRef w' = None ->
               exec (connectEffect userToken) w' = w').
  { intros w' Hnone. unfold exec, connectEffect.
    destruct Htoken as [-> | ->]; run_m; by rewrite Hnone. }
  rewrite Hrun.
  destruct Htoken as [-> | ->]; destruct (socketRef w) as [s|] eqn:Hs;
    simpl; repeat split; try reflexivity; try done;
    try (rewrite Hagain; reflexivity).
Qed.

Lemma logout_tears_down_witness :
  socketRef (exec (connectEffect None)
               (exec (connectEffect (Some "Bearer U_abc")) sampleWorld))
  = None.
Proof.
  apply (logout_tears_down None
           (exec (connectEffect (Some "Bearer U_abc")) sampleWorld)).
  left. reflexivity.
Defined.

(** *** The two categories *)

Section Categories.

Variable behaviour : Callback -> JsArg -> Completion unit.

Lemma handleIncomingCall_other_category (d : Device) (callData : JsArg)
    (w : World) :
  calls MessageCategory (produced (handleIncomingCall behaviour d callData) w)
  = [].
Proof.
  rewrite calls_incoming_call_any. by destruct (gateDecision d).
Qed.

(** The state after an incoming-call packet, whatever its arguments. *)
Lemma onevent_incoming_call_any (socket : nat) (d : Device)
    (args : list JsArg) (w : World) :
  onevent behaviour socket d "incoming_call" args w
  = (exec (handleIncomingCall behaviour d (arg0 args))
       (if truthy (arg0 args)
        then exec (handleIncomingCall behaviour d (arg0 args)) w
        else w),
     Normal tt).
Proof.
  unfold onevent, onAnyListener; run_m.
  by destruct (truthy (arg0 args)).
Qed.

Lemma onevent_call_cancelled_any (socket : nat) (d : Device)
    (args : list JsArg) (w : World) :
  onevent behaviour socket d "call_cancelled" args w
  = (exec (handleCallCancelled behaviour (arg0 args))
       (if truthy (arg0 args)
        then exec (handleCallCancelled behaviour (arg0 args)) w
        else w),
     Normal tt).
Proof.
  unfold onevent, onAnyListener, exec; run_m.
  destruct (truthy (arg0 args)); by rewrite !handleCallCancelled_run.
Qed.

Lemma handleCallCancelled_frame (callData : JsArg) (w : World) :
  trace (exec (handleCallCancelled behaviour callData) w)
  = trace w ++ produced (handleCallCancelled behaviour callData) w
  /\ cells (exec (handleCallCancelled behaviour callData) w) = cells w.
Proof.
  rewrite handleCallCancelled_produced. unfold exec.
  by rewrite handleCallCancelled_run.
Qed.

End Categories.

Lemma produced_of_exec {A B : Type} (m1 : M A) (m2 : M B) (w : World) :
  exec m1 w = exec m2 w -> produced m1 w = produced m2 w.
Proof. unfold produced. by intros ->. Qed.

Lemma produced_twice {A : Type} (m : M A) (w : World) (p1 p2 : list Effect) :
  trace (exec m w) = trace w ++ p1 ->
  trace (exec m (exec m w)) = trace (exec m w) ++ p2 ->
  drop (length (trace w)) (trace (exec m (exec m w))) = p1 ++ p2.
Proof.
  intros H1 H2. rewrite H2, H1, <- app_assoc. apply drop_app_length.
Qed.

Section PacketsByCategory.

Variable behaviour : Callback -> JsArg -> Completion unit.

Lemma onevent_message_produced (socket : nat) (d : Device)
    (eventName : string) (args : list JsArg) (w : World) :
  eventName = "receive_message" \/ eventName = "message" ->
  produced (onevent behaviour socket d eventName args) w
  = dispatchEffects behaviour MessageCategory MessageCallbackFailed
      (arg0 args) (messageSubscribersRef w).
Proof.
  intros Hname. rewrite <- handleReceiveMessage_produced.
  apply produced_of_exec. unfold exec at 1.
  by rewrite onevent_message.
Qed.

Lemma onevent_incoming_call_trace (socket : nat) (d : Device)
    (args : list JsArg) (w : World) :
  produced (onevent behaviour socket d "incoming_call" args) w
  = (if truthy (arg0 args)
     then produced (handleIncomingCall behaviour d (arg0 args)) w
     else [])
    ++ produced (handleIncomingCall behaviour d (arg0 args))
         (if truthy (arg0 args)
          then exec (handleIncomingCall behaviour d (arg0 args)) w
          else w).
Proof.
  apply produced_of_trace. unfold exec at 1.
  rewrite onevent_incoming_call_any. cbn [fst].
  destruct (truthy (arg0 args)).
  - destruct (handleIncomingCall_frame behaviour d (arg0 args)
                (exec (handleIncomingCall behaviour d (arg0 args)) w))
      as [-> _].
    destruct (handleIncomingCall_frame behaviour d (arg0 args) w) as [-> _].
    by rewrite <- app_assoc.
  - by destruct (handleIncomingCall_frame behaviour d (arg0 args) w)
      as [-> _].
Qed.

Lemma onevent_call_cancelled_trace (socket : nat) (d : Device)
    (args : list JsArg) (w : World) :
  produced (onevent behaviour socket d "call_cancelled" args) w
  = (if truthy (arg0 args)
     then produced (handleCallCancelled behaviour (arg0 args)) w
     else [])
    ++ produced (handleCallCancelled behaviour (arg0 args))
         (if truthy (arg0 args)
          then exec (handleCallCancelled behaviour (arg0 args)) w
          else w).
Proof.
  apply produced_of_trace. unfold exec at 1.
  rewrite onevent_call_cancelled_any. cbn [fst].
  destruct (truthy (arg0 args)).
  - destruct (handleCallCancelled_frame behaviour (arg0 args)
                (exec (handleCallCancelled behaviour (arg0 args)) w))
      as [-> _].
    destruct (handleCallCancelled_frame behaviour (arg0 args) w) as [-> _].
    by rewrite <- app_assoc.
  - by destruct (handleCallCancelled_frame behaviour (arg0 args) w)
      as [-> _].
Qed.

End PacketsByCategory.

(** A run of the incoming-call handler logs a permission error exactly
    when a round trip throws. *)
Lemma handleIncomingCall_permission_errors
    (behaviour : Callback -> JsArg -> Completion unit)
    (d : Device) (callData : JsArg) (w : World) :
  length (loggedErrors PermissionCheckFailed
            (produced (handleIncomingCall behaviour d callData) w))
  = (if permissionFails d then 1 else 0).
Proof.
  destruct (handleIncomingCall_tail behaviour d callData w)
    as (tail & -> & _ & _ & Htail & _).
  rewrite loggedErrors_app, length_app, Htail. simpl. rewrite Nat.add_0_r.
  apply gateEffects_counts.
Qed.

(** C3. One inbound [incoming_call] packet, as socket.io hands it to the
    catch-all listener and to the named listener.  When the permission
    check and the request that follows both resolve without the
    permission, no subscriber of either category is called and the
    delivery completes; the prompt is shown by every run of the handler,
    which is once for a packet without a payload and twice for a packet
    with one.  When the check, or the request, throws, no prompt is
    shown, every run logs the error and goes on to call every registered
    call subscriber, in order, with the unchanged payload. *)
Theorem C3_incoming_call_event
    (behaviour : Callback -> JsArg -> Completion unit)
    (socket : nat) (d : Device) (args : list JsArg) (w : World) :
  (permissionDenied d = true ->
   (forall cat,
      calls cat (produced (onevent behaviour socket d "incoming_call" args) w)
      = [])
   /\ alerts (produced (onevent behaviour socket d "incoming_call" args) w)
      = (if truthy (arg0 args) then 2 else 1)
   /\ completion (onevent behaviour socket d "incoming_call" args) w
      = Normal tt)
  /\ (permissionFails d = true ->
      calls CallCategory
        (produced (onevent behaviour socket d "incoming_call" args) w)
      = (if truthy (arg0 args)
         then map (fun callback => (callback, arg0 args))
                  (callSubscribersRef w)
              ++ map (fun callback => (callback, arg0 args))
                     (callSubscribersRef w)
         else map (fun callback => (callback, arg0 args))
                  (callSubscribersRef w))
      /\ alerts (produced (onevent behaviour socket d "incoming_call" args) w)
         = 0
      /\ length (loggedErrors PermissionCheckFailed
                   (produced (onevent behaviour socket d "incoming_call"
                                args) w))
         = (if truthy (arg0 args) then 2 else 1)
      /\ completion (onevent behaviour socket d "incoming_call" args) w
         = Normal tt).
Proof.
  assert (Hdone :
    completion (onevent behaviour socket d "incoming_call" args) w
    = Normal tt).
  { unfold completion. by rewrite onevent_incoming_call_any. }
  rewrite onevent_incoming_call_trace.
  split; intros H.
  - apply permissionDenied_dropped in H as [Hg _].
    split; [|split; [|exact Hdone]].
    + intros cat. rewrite calls_app.
      destruct (truthy (arg0 args));
        by rewrite ?calls_incoming_call_any, Hg.
    + rewrite alerts_app.
      destruct (truthy (arg0 args));
        by rewrite ?alerts_incoming_call, Hg.
  - pose proof H as Hfails.
    apply permissionFails_proceed in H as [Hg _].
    split; [|split; [|split; [|exact Hdone]]].
    + rewrite calls_app. destruct (truthy (arg0 args)).
      * rewrite !calls_incoming_call, Hg.
        by destruct (handleIncomingCall_frame behaviour d (arg0 args) w)
          as [_ ->].
      * by rewrite calls_incoming_call, Hg.
    + rewrite alerts_app.
      destruct (truthy (arg0 args));
        by rewrite ?alerts_incoming_call, Hg.
    + rewrite loggedErrors_app, length_app.
      destruct (truthy (arg0 args));
        by rewrite ?handleIncomingCall_permission_errors, Hfails.
Qed.

Lemma C3_incoming_call_event_witness :
  alerts
    (produced (onevent sampleBehaviour 0 deniedDevice "incoming_call"
                 [Some samplePayload]) sampleWorld) = 2
  /\ calls CallCategory
       (produced (onevent sampleBehaviour 0 failingDevice "incoming_call"
                    [Some samplePayload]) sampleWorld)
     = [(1, Some samplePayload); (2, Some samplePayload);
        (1, Some samplePayload); (2, Some samplePayload)].
Proof.
  split.
  - exact (proj1 (proj2 (proj1 (C3_incoming_call_event sampleBehaviour 0
                                  deniedDevice [Some samplePayload]
                                  sampleWorld) eq_refl))).
  - exact (proj1 (proj2 (C3_incoming_call_event sampleBehaviour 0
                           failingDevice [Some samplePayload]
                           sampleWorld) eq_refl)).
Defined.

(** C4. One inbound [call_cancelled] packet, as socket.io hands it to the
    catch-all listener and to the named listener, from any state (so also
    without an earlier incoming call).  Every run of the handler calls
    every registered call subscriber, and nobody else, in registration
    order; there is one run for a packet without a payload and there are
    two for a packet with one, so with a payload every subscriber is
    called twice.  What a subscriber gets holds the tag
    [eventType = "call_cancelled"] and, under every other key, what the
    payload of the packet holds.  No permission round trip is made and no
    prompt is shown, and the device (platform, application state,
    permission answers) makes no difference to what happens. *)
Theorem C4_call_cancelled_event
    (behaviour : Callback -> JsArg -> Completion unit)
    (socket : nat) (d1 d2 : Device) (args : list JsArg) (w : World) :
  NoDup (callSubscribersRef w) ->
  calls CallCategory
    (produced (onevent behaviour socket d1 "call_cancelled" args) w)
  = (if truthy (arg0 args)
     then map (fun callback => (callback, cancellation (arg0 args)))
              (callSubscribersRef w)
          ++ map (fun callback => (callback, cancellation (arg0 args)))
                 (callSubscribersRef w)
     else map (fun callback => (callback, cancellation (arg0 args)))
              (callSubscribersRef w))
  /\ (forall callback,
        In callback (callSubscribersRef w) ->
        deliveries CallCategory callback
          (produced (onevent behaviour socket d1 "call_cancelled" args) w)
        = (if truthy (arg0 args)
           then [cancellation (arg0 args); cancellation (arg0 args)]
           else [cancellation (arg0 args)]))
  /\ (forall callback,
        ~ In callback (callSubscribersRef w) ->
        deliveries CallCategory callback
          (produced (onevent behaviour socket d1 "call_cancelled" args) w)
        = [])
  /\ (exists tagged : Obj,
        cancellation (arg0 args) = Some tagged
        /\ tagged !! "eventType" = Some (PStr "call_cancelled")
        /\ forall key : string,
             key <> "eventType" ->
             tagged !! key = match arg0 args with
                             | Some payload => payload !! key
                             | None => None
                             end)
  /\ permissionCalls
       (produced (onevent behaviour socket d1 "call_cancelled" args) w) = 0
  /\ alerts (produced (onevent behaviour socket d1 "call_cancelled" args) w)
     = 0
  /\ onevent behaviour socket d1 "call_cancelled" args w
     = onevent behaviour socket d2 "call_cancelled" args w.
Proof.
  intros Hnd.
  destruct (handleCallCancelled_frame behaviour (arg0 args) w)
    as [_ Hcells].
  assert (Hsubs :
    callSubscribersRef (exec (handleCallCancelled behaviour (arg0 args)) w)
    = callSubscribersRef w) by (by injection Hcells).
  assert (Hrun : forall w0,
    calls CallCategory
      (produced (handleCallCancelled behaviour (arg0 args)) w0)
    = map (fun callback => (callback, cancellation (arg0 args)))
          (callSubscribersRef w0)).
  { intros w0. rewrite handleCallCancelled_produced.
    apply calls_dispatchEffects. }
  rewrite onevent_call_cancelled_trace.
  split; [|split; [|split; [|split; [|split; [|split]]]]].
  - rewrite calls_app.
    destruct (truthy (arg0 args)); by rewrite !Hrun, ?Hsubs.
  - intros callback Hin. apply has_true_iff in Hin.
    rewrite deliveries_app. destruct (truthy (arg0 args)).
    + rewrite !(deliveries_of_calls _ _ _ _ _ (Hrun _)), Hsubs, Hin
        by (rewrite ?Hsubs; exact Hnd).
      reflexivity.
    + rewrite (deliveries_of_calls _ _ _ _ _ (Hrun _) Hnd), Hin.
      reflexivity.
  - intros callback Hin. apply has_false_iff in Hin.
    rewrite deliveries_app. destruct (truthy (arg0 args)).
    + rewrite !(deliveries_of_calls _ _ _ _ _ (Hrun _)), Hsubs, Hin
        by (rewrite ?Hsubs; exact Hnd).
      reflexivity.
    + rewrite (deliveries_of_calls _ _ _ _ _ (Hrun _) Hnd), Hin.
      reflexivity.
  - apply cancellation_tagged.
  - rewrite permissionCalls_app.
    destruct (truthy (arg0 args));
      by rewrite !handleCallCancelled_produced,
        ?permissionCalls_dispatchEffects.
  - rewrite alerts_app.
    destruct (truthy (arg0 args));
      by rewrite !handleCallCancelled_produced, ?alerts_dispatchEffects.
  - by rewrite !onevent_call_cancelled_any.
Qed.

Lemma C4_call_cancelled_event_witness :
  deliveries CallCategory 2
    (produced (onevent sampleBehaviour 0 grantedDevice "call_cancelled"
                 [Some samplePayload]) sampleWorld)
  = [cancellation (Some samplePayload); cancellation (Some samplePayload)].
Proof.
  refine (proj1 (proj2 (C4_call_cancelled_event sampleBehaviour 0
                          grantedDevice deniedDevice [Some samplePayload]
                          sampleWorld sampleWorld_call_NoDup)) 2 _).
  simpl. right. left. reflexivity.
Defined.

(** X9. The two categories do not interfere.  A message packet (under
    either name) calls no call subscriber; an [incoming_call] or
    [call_cancelled] packet, whatever its arguments and however often its
    handler runs, calls no message subscriber and leaves the unread
    counter as it was. *)
Theorem categories_are_independent
    (behaviour : Callback -> JsArg -> Completion unit)
    (socket : nat) (d : Device) (args : list JsArg) (w : World) :
  (forall eventName,
     eventName = "receive_message" \/ eventName = "message" ->
     calls CallCategory
       (produced (onevent behaviour socket d eventName args) w) = [])
  /\ (forall eventName,
        eventName = "incoming_call" \/ eventName = "call_cancelled" ->
        calls MessageCategory
          (produced (onevent behaviour socket d eventName args) w) = []
        /\ unreadMessageCount
             (exec (onevent behaviour socket d eventName args) w)
           = unreadMessageCount w).
Proof.
  split.
  - intros eventName Hname. rewrite onevent_message_produced by exact Hname.
    by apply calls_dispatchEffects_other.
  - intros eventName [-> | ->]; split.
    + rewrite onevent_incoming_call_trace, calls_app.
      destruct (truthy (arg0 args));
        by rewrite ?handleIncomingCall_other_category.
    + unfold exec at 1. rewrite onevent_incoming_call_any. cbn [fst].
      pose proof (handleIncomingCall_cells behaviour d (arg0 args)) as Hc.
      destruct (truthy (arg0 args)).
      * pose proof (Hc (exec (handleIncomingCall behaviour d (arg0 args)) w))
          as H1.
        pose proof (Hc w) as H2. unfold cells in H1, H2.
        injection H1. injection H2. congruence.
      * pose proof (Hc w) as H2. unfold cells in H2. injection H2.
        congruence.
    + rewrite onevent_call_cancelled_trace, calls_app.
      destruct (truthy (arg0 args));
        rewrite ?handleCallCancelled_produced;
        by rewrite ?calls_dispatchEffects_other by discriminate.
    + unfold exec at 1. rewrite onevent_call_cancelled_any. cbn [fst].
      pose proof (fun w => proj2 (handleCallCancelled_frame behaviour
                                    (arg0 args) w)) as Hc.
      destruct (truthy (arg0 args)).
      * pose proof (Hc (exec (handleCallCancelled behaviour (arg0 args)) w))
          as H1.
        pose proof (Hc w) as H2. unfold cells in H1, H2.
        injection H1. injection H2. congruence.
      * pose proof (Hc w) as H2. unfold cells in H2. injection H2.
        congruence.
Qed.

(** X10. One message packet, under either name, calls every registered
    message subscriber exactly once, in registration order, with the
    packet's first argument: the catch-all listener does not repeat the
    delivery of messages. *)
Theorem message_packet_delivered_once
    (behaviour : Callback -> JsArg -> Completion unit)
    (socket : nat) (d : Device) (args : list JsArg) (w : World) :
  calls MessageCategory
    (produced (onevent behaviour socket d "receive_message" args) w)
  = map (fun callback => (callback, arg0 args)) (messageSubscribersRef w)
  /\ calls MessageCategory
       (produced (onevent behaviour socket d "message" args) w)
     = map (fun callback => (callback, arg0 args)) (messageSubscribersRef w).
Proof.
  split; rewrite onevent_message_produced by auto;
    apply calls_dispatchEffects.
Qed.

(** X11. A call packet that carries no payload takes the named listener
    only, so its handler runs once: a cancellation reaches every call
    subscriber once with an object that holds nothing but the tag
    [eventType], an incoming call reaches them once with [undefined]
    unless the microphone is denied. *)
Theorem call_packet_without_payload
    (behaviour : Callback -> JsArg -> Completion unit)
    (socket : nat) (d : Device) (args : list JsArg) (w : World) :
  arg0 args = None ->
  calls CallCategory
    (produced (onevent behaviour socket d "call_cancelled" args) w)
  = map (fun callback =>
           (callback,
            Some ({["eventType" := PStr "call_cancelled"]} : Obj)))
        (callSubscribersRef w)
  /\ calls CallCategory
       (produced (onevent behaviour socket d "incoming_call" args) w)
     = (if permissionDenied d then []
        else map (fun callback => (callback, None)) (callSubscribersRef w)).
Proof.
  intros Hargs. split.
  - rewrite onevent_call_cancelled_trace, Hargs. cbn [truthy app].
    rewrite handleCallCancelled_produced. apply calls_dispatchEffects.
  - rewrite onevent_incoming_call_trace, Hargs. cbn [truthy app].
    rewrite calls_incoming_call, gateDecision_denied.
    by destruct (permissionDenied d).
Qed.

Lemma call_packet_without_payload_witness :
  calls CallCategory
    (produced (onevent sampleBehaviour 0 grantedDevice "incoming_call" [])
              sampleWorld)
  = [(1, None); (2, None)].
Proof.
  exact (proj2 (call_packet_without_payload sampleBehaviour 0 grantedDevice
                  [] sampleWorld eq_refl)).
Defined.

(** X12. The [offline_messages_delivered] packet is informational: with
    an object payload it changes nothing and calls nobody.  Without a
    payload the handler reads [data.count] of [undefined]: the delivery
    ends with a [TypeError], which no [try] catches, and still changes
    nothing. *)
Theorem offline_messages_delivered_is_informational
    (behaviour : Callback -> JsArg -> Completion unit)
    (socket : nat) (d : Device) (args : list JsArg) (w : World) :
  onevent behaviour socket d "offline_messages_delivered" args w
  = (w, if truthy (arg0 args) then Normal tt else Throw TypeError).
Proof.
  unfold onevent, onAnyListener; run_m.
  unfold handleOfflineMessagesDelivered.
  by destruct (arg0 args).
Qed.

(** ** The login screen *)

Section LoginScreen.
Import AuthScreen.

Lemma isDigit_spec (c : ascii) : isDigit c = true <-> In c decimalDigits.
Proof.
  destruct c as [[] [] [] [] [] [] [] []]; vm_compute;
    (split; [ first [ discriminate | intros _; tauto ]
            | first [ reflexivity | intros H; exfalso;
                      repeat (destruct H as [H|H]; [discriminate H|]);
                      exact H ] ]).
Qed.

Lemma test_digits (n : nat) (s : string) :
  test (repeat Digit n) s = true <->
  String.length s = n /\
  Forall (fun c => In c decimalDigits) (list_ascii_of_string s).
Proof.
  revert s; induction n as [|n IH]; intros [|c s]; simpl.
  - split; [ intros _; split; [reflexivity | constructor] | reflexivity ].
  - split; [ discriminate | intros [H _]; discriminate H ].
  - split; [ discriminate | intros [H _]; discriminate H ].
  - rewrite andb_true_iff, IH, isDigit_spec, Forall_cons. split.
    + intros (Hc & Hl & Hs). split; [ by rewrite Hl | by split ].
    + intros (Hl & Hc & Hs). split; [ exact Hc | split; [ lia | exact Hs ] ].
Qed.

Lemma test_phonePattern (p : string) :
  test phonePattern p = true <-> mainlandNumber p.
Proof.
  unfold phonePattern, mainlandNumber. destruct p as [|c rest].
  - split; [ discriminate | intros (r & H & _); discriminate H ].
  - cbn [test atomMatches]. rewrite andb_true_iff, test_digits. split.
    + intros (Hc & Hl & Hd). apply Ascii.eqb_eq in Hc. subst c.
      by exists rest.
    + intros (r & Heq & Hl & Hd). injection Heq as -> ->.
      split; [ reflexivity | by split ].
Qed.

Lemma validatePhone_run (p : string) (s : Screen) :
  validatePhone p s =
  (fst (setErrors (withPhoneError (phoneVerdict p)) s),
   Returned (test phonePattern p)).
Proof.
  unfold validatePhone, phoneVerdict. destruct p as [|c rest];
    [ reflexivity |].
  by destruct (test phonePattern (String c rest)).
Qed.

Lemma validateInviteCode_run (c : string) (s : Screen) :
  validateInviteCode c s =
  (fst (setErrors (withInviteError (inviteVerdict c)) s),
   Returned (4 <=? String.length c)%nat).
Proof.
  unfold validateInviteCode, inviteVerdict. destruct c as [|a rest];
    [ reflexivity |].
  destruct (Nat.ltb_spec (String.length (String a rest)) 4) as [H|H].
  - by rewrite (proj2 (Nat.leb_gt _ _) H).
  - by rewrite (proj2 (Nat.leb_le _ _) H).
Qed.

Lemma performed_spec {A : Type} (m : Step A) (s : Screen)
    (l : list Action) :
  actions (fst (m s)) = actions s ++ l -> performed m s = l.
Proof. unfold performed. intros ->. apply drop_app_length. Qed.

Ltac step_m :=
  repeat (progress (cbv beta iota delta
    [mbind Step_bind mret Step_ret act awaiting raise attempt setLoading
     setErrors setPhoneNumber setInviteCode fst snd state actions errors
     loading phoneNumber inviteCode errors_phoneNumber errors_inviteCode
     withPhoneError withInviteError]; cbn [negb])).

Lemma handleLogin_invalid_phone (env : Environment) (p c : string)
    (s : Screen) :
  test phonePattern p = false ->
  handleLogin env p c s =
  (fst (setErrors (withPhoneError (phoneVerdict p)) s), Returned tt).
Proof.
  intros H. unfold handleLogin. cbv [mbind Step_bind].
  rewrite validatePhone_run, H. reflexivity.
Qed.

Lemma handleLogin_invalid_code (env : Environment) (p c : string)
    (s : Screen) :
  test phonePattern p = true -> (String.length c < 4)%nat ->
  handleLogin env p c s =
  (fst (setErrors (withInviteError (inviteVerdict c))
          (fst (setErrors (withPhoneError None) s))), Returned tt).
Proof.
  intros H Hc. unfold handleLogin. cbv [mbind Step_bind].
  rewrite validatePhone_run, H. cbn [negb fst].
  rewrite validateInviteCode_run, (proj2 (Nat.leb_gt _ _) Hc).
  unfold phoneVerdict. rewrite H. by destruct p.
Qed.

Lemma phoneVerdict_valid (p : string) :
  test phonePattern p = true -> phoneVerdict p = None.
Proof.
  intros H. destruct p as [|a r]; [ discriminate H |].
  unfold phoneVerdict. by rewrite H.
Qed.

Lemma inviteVerdict_valid (c : string) :
  (4 <= String.length c)%nat -> inviteVerdict c = None.
Proof.
  unfold inviteVerdict. intros H. destruct c as [|a r]; [ simpl in H; lia |].
  by rewrite (proj2 (Nat.ltb_ge _ _) H).
Qed.

Lemma handleLogin_success (env : Environment) (p c : string) (s : Screen)
    (body : Body) (token : option JsPrim) :
  test phonePattern p = true -> (4 <= String.length c)%nat ->
  post env = Returned body -> named body "token" = Returned token ->
  login env = Returned tt ->
  exists push,
    pushSteps push = push /\
    (push = [] <-> OS env <> ios) /\
    handleLogin env p c s =
    ({| state :=
          {| phoneNumber := phoneNumber (state s);
             inviteCode := inviteCode (state s);
             errors :=
               {| errors_phoneNumber := None; errors_inviteCode := None |};
             loading := false |};
        actions :=
          actions s ++
          [Post (if String.eqb c "1332" then CUSTOMER_SERVICE_LOGIN
                 else USER_LOGIN) p "1332" c;
           Login token
             (<["userType" :=
                  PStr (if String.eqb c "1332" then "customerService"
                        else "user")]> (spreadBody body))] ++
          push ++
          [if String.eqb c "1332" then ResetTo MainTabs
           else if String.eqb (afterLogin env) "MainTabs"
                then ResetTo MainTabs
                else Navigate (Permissions p c)] |},
     Returned tt).
Proof.
  intros Hp Hc Hpost Htoken Hlogin. unfold handleLogin.
  cbv [mbind Step_bind].
  rewrite validatePhone_run, Hp. cbn [negb fst].
  rewrite validateInviteCode_run, (proj2 (Nat.leb_le _ _) Hc).
  rewrite phoneVerdict_valid, inviteVerdict_valid by assumption.
  unfold configurePush. destruct env as [os po lo cf rq al].
  simpl in Hpost, Hlogin. subst po lo.
  destruct os; [ exists [] | | exists [] ].
  1,3: split; [ reflexivity | split; [ by split | ] ];
       step_m; cbv [OS afterLogin post login]; step_m;
       rewrite Htoken; step_m;
       destruct (String.eqb c "1332"), (String.eqb al "MainTabs");
       step_m; rewrite <- ?app_assoc; reflexivity.
  destruct cf as [[]|e1]; [ destruct rq as [[]|e2] |].
  - exists [ConfigurePushNotifications; RequestPushPermissions].
    split; [ reflexivity | split; [ by split | ] ].
    step_m; cbv [OS afterLogin post login
      configurePushNotificationsAfterLogin requestPermissionsAfterLogin];
      step_m; rewrite Htoken; step_m.
    destruct (String.eqb c "1332"), (String.eqb al "MainTabs");
      step_m; rewrite <- ?app_assoc; reflexivity.
  - exists [ConfigurePushNotifications; RequestPushPermissions;
            LogPushFailure].
    split; [ reflexivity | split; [ by split | ] ].
    step_m; cbv [OS afterLogin post login
      configurePushNotificationsAfterLogin requestPermissionsAfterLogin];
      step_m; rewrite Htoken; step_m.
    destruct (String.eqb c "1332"), (String.eqb al "MainTabs");
      step_m; rewrite <- ?app_assoc; reflexivity.
  - exists [ConfigurePushNotifications; LogPushFailure].
    split; [ reflexivity | split; [ by split | ] ].
    step_m; cbv [OS afterLogin post login
      configurePushNotificationsAfterLogin requestPermissionsAfterLogin];
      step_m; rewrite Htoken; step_m.
    destruct (String.eqb c "1332"), (String.eqb al "MainTabs");
      step_m; rewrite <- ?app_assoc; reflexivity.
Qed.

Lemma handleLogin_failure (env : Environment) (p c : string) (s : Screen)
    (e : Thrown) :
  test phonePattern p = true -> (4 <= String.length c)%nat ->
  loginError env = Some e ->
  handleLogin env p c s =
  loginFailed e
    {| state :=
         {| phoneNumber := phoneNumber (state s);
            inviteCode := inviteCode (state s);
            errors :=
              {| errors_phoneNumber := None; errors_inviteCode := None |};
            loading := true |};
       actions :=
         actions s ++
         Post (if String.eqb c "1332" then CUSTOMER_SERVICE_LOGIN
               else USER_LOGIN) p "1332" c ::
         match post env with
         | Returned body =>
             match named body "token" with
             | Returned token =>
                 [Login token
                    (<["userType" :=
                         PStr (if String.eqb c "1332"
                               then "customerService" else "user")]>
                       (spreadBody body))]
             | Raised _ => []
             end
         | Raised _ => []
         end |}.
Proof.
  intros Hp Hc He. unfold handleLogin. cbv [mbind Step_bind].
  rewrite validatePhone_run, Hp. cbn [negb fst].
  rewrite validateInviteCode_run, (proj2 (Nat.leb_le _ _) Hc).
  rewrite phoneVerdict_valid, inviteVerdict_valid by assumption.
  unfold loginError in He. destruct env as [os po lo cf rq al].
  simpl in He. cbv [post].
  destruct po as [[o|[| |b|z|str]]|e0];
    try (injection He as <-; step_m; cbv [post login named]; step_m;
         reflexivity);
    (destruct lo as [[]|e1]; [ discriminate He |];
     injection He as ->; step_m; cbv [post login named]; step_m;
     rewrite <- ?app_assoc; reflexivity).
Qed.

Lemma test_phonePattern_false (p : string) :
  test phonePattern p = false <-> ~ mainlandNumber p.
Proof.
  rewrite <- test_phonePattern. by destruct (test phonePattern p).
Qed.

(** X13 (validatePhone).  The phone validator accepts exactly the digit
    [1] followed by ten decimal digits: it returns [true] and clears the
    phone message for such a value, and returns [false] otherwise, with
    the "enter a number" message for the empty string and the "invalid
    number" message for anything else.  It never throws, does nothing
    outside the component and touches nothing but the phone message. *)
Theorem phone_validation (p : string) (s : Screen) :
  (snd (validatePhone p s) = Returned true <-> mainlandNumber p) /\
  (snd (validatePhone p s) = Returned false <-> ~ mainlandNumber p) /\
  (errors_phoneNumber (errors (state (fst (validatePhone p s)))) = None <->
   mainlandNumber p) /\
  (p = EmptyString ->
   errors_phoneNumber (errors (state (fst (validatePhone p s)))) =
   Some EnterPhoneNumber) /\
  (p <> EmptyString -> ~ mainlandNumber p ->
   errors_phoneNumber (errors (state (fst (validatePhone p s)))) =
   Some InvalidPhoneNumber) /\
  errors_inviteCode (errors (state (fst (validatePhone p s)))) =
  errors_inviteCode (errors (state s)) /\
  phoneNumber (state (fst (validatePhone p s))) = phoneNumber (state s) /\
  inviteCode (state (fst (validatePhone p s))) = inviteCode (state s) /\
  loading (state (fst (validatePhone p s))) = loading (state s) /\
  actions (fst (validatePhone p s)) = actions s.
Proof.
  rewrite validatePhone_run. cbn [fst snd].
  destruct (test phonePattern p) eqn:E.
  - assert (mainlandNumber p) as Hm by by apply test_phonePattern.
    destruct p as [|a r]; [ discriminate E |].
    unfold phoneVerdict. rewrite E. step_m.
    split_and!; try done; try (split; [ done | by intros H ]).
  - assert (~ mainlandNumber p) as Hn by by apply test_phonePattern_false.
    destruct p as [|a r]; unfold phoneVerdict; rewrite ?E; step_m;
      split_and!; try done;
      split; first [ discriminate | by intros H | done ].
Qed.

(** X14 (handleLogin, validatePhone, validateInviteCode).  Pressing the
    login button with a phone number that is not [1] plus ten digits, or
    with an invite code shorter than four code units, does nothing
    outside the component: no request, no navigation, no alert, and the
    loading flag is not touched.  The phone message is set from the phone
    number; the invite code is validated only when the phone number is
    valid, otherwise its message is left as it was. *)
Theorem login_needs_valid_fields (env : Environment) (s : Screen) :
  ~ (mainlandNumber (phoneNumber (state s)) /\
     (4 <= String.length (inviteCode (state s)))%nat) ->
  performed (pressLogin env) s = [] /\
  snd (pressLogin env s) = Returned tt /\
  loading (state (fst (pressLogin env s))) = loading (state s) /\
  errors_phoneNumber (errors (state (fst (pressLogin env s)))) =
  phoneVerdict (phoneNumber (state s)) /\
  (~ mainlandNumber (phoneNumber (state s)) ->
   errors_inviteCode (errors (state (fst (pressLogin env s)))) =
   errors_inviteCode (errors (state s))) /\
  (mainlandNumber (phoneNumber (state s)) ->
   errors_inviteCode (errors (state (fst (pressLogin env s)))) =
   inviteVerdict (inviteCode (state s)) /\
   inviteVerdict (inviteCode (state s)) <> None).
Proof.
  destruct s as [[p c [ep ec] ld] acts]. unfold performed, pressLogin.
  cbn [state actions phoneNumber inviteCode errors loading].
  intros Hbad. destruct (test phonePattern p) eqn:E.
  - assert (mainlandNumber p) as Hm by by apply test_phonePattern.
    assert (String.length c < 4)%nat as Hc
      by (destruct (Nat.lt_ge_cases (String.length c) 4);
          [ done | exfalso; by apply Hbad ]).
    rewrite handleLogin_invalid_code by assumption. step_m.
    rewrite drop_all, phoneVerdict_valid by assumption.
    split_and!; try done.
    intros _. split; [ done |]. unfold inviteVerdict.
    destruct c as [|a r]; [ done |].
    by rewrite (proj2 (Nat.ltb_lt _ _) Hc).
  - assert (~ mainlandNumber p) as Hn by by apply test_phonePattern_false.
    rewrite handleLogin_invalid_phone by assumption. step_m.
    rewrite drop_all. split_and!; done.
Qed.

Lemma login_needs_valid_fields_witness :
  performed (pressLogin sampleEnvironment) (typed "13800138000" "123") = [] /\
  performed (pressLogin sampleEnvironment) (typed "2380013800" "6969") = [].
Proof.
  split.
  - apply (login_needs_valid_fields sampleEnvironment
             (typed "13800138000" "123")).
    intros [_ H]. simpl in H. lia.
  - apply (login_needs_valid_fields sampleEnvironment
             (typed "2380013800" "6969")).
    intros [H _]. apply test_phonePattern in H. discriminate H.
Defined.

(** X15 (handleLogin).  With valid fields, a request that is answered
    with an object, and a session that is saved: exactly one request is
    posted, to the customer-service endpoint when the invite code is
    [1332] and to the user endpoint otherwise, always with the password
    [1332]; the session is saved once with the token of the answer and
    the answer extended by the user type; no alert is shown; exactly one
    navigation follows, a reset to the main tabs for a customer-service
    login or when the platform flow says so, and otherwise a move to the
    permissions screen with the two field values.  The push-notification
    set-up runs on iOS only and cannot prevent the navigation, whatever
    it returns or throws.  Both messages are cleared and the loading
    flag is off. *)
Theorem login_success (env : Environment) (s : Screen) (data : Obj) :
  mainlandNumber (phoneNumber (state s)) ->
  (4 <= String.length (inviteCode (state s)))%nat ->
  post env = Returned (ObjectBody data) ->
  login env = Returned tt ->
  snd (pressLogin env s) = Returned tt /\
  posts (performed (pressLogin env) s) =
  [Post (if String.eqb (inviteCode (state s)) "1332"
         then CUSTOMER_SERVICE_LOGIN else USER_LOGIN)
     (phoneNumber (state s)) "1332" (inviteCode (state s))] /\
  logins (performed (pressLogin env) s) =
  [Login (data !! "token")
     (<["userType" :=
          PStr (if String.eqb (inviteCode (state s)) "1332"
                then "customerService" else "user")]> data)] /\
  loginAlerts (performed (pressLogin env) s) = [] /\
  (inviteCode (state s) = "1332" \/ afterLogin env = "MainTabs" ->
   navigations (performed (pressLogin env) s) = [ResetTo MainTabs]) /\
  (inviteCode (state s) <> "1332" -> afterLogin env <> "MainTabs" ->
   navigations (performed (pressLogin env) s) =
   [Navigate (Permissions (phoneNumber (state s)) (inviteCode (state s)))])
  /\
  (pushSteps (performed (pressLogin env) s) = [] <-> OS env <> ios) /\
  errors (state (fst (pressLogin env s))) =
  {| errors_phoneNumber := None; errors_inviteCode := None |} /\
  loading (state (fst (pressLogin env s))) = false.
Proof.
  intros Hp Hc Hpost Hlogin. apply test_phonePattern in Hp.
  destruct (handleLogin_success env _ _ s (ObjectBody data)
              (data !! "token") Hp Hc Hpost eq_refl Hlogin)
    as (push & Hpush & Hios & Hrun).
  cbn [spreadBody] in Hrun.
  assert (posts push = [] /\ logins push = [] /\ loginAlerts push = [] /\
          navigations push = []) as (Hpp & Hpl & Hpa & Hpn).
  { clear -Hpush. rewrite <- Hpush. clear Hpush.
    induction push as [|a l (IH1 & IH2 & IH3 & IH4)]; [ done |].
    destruct a; cbn; rewrite ?IH1, ?IH2, ?IH3, ?IH4; done. }
  unfold performed, pressLogin. rewrite Hrun. cbn [fst snd state actions].
  rewrite drop_app_length.
  set (dest := if String.eqb (inviteCode (state s)) "1332"
               then ResetTo MainTabs else _).
  assert (posts [dest] = [] /\ logins [dest] = [] /\
          loginAlerts [dest] = [] /\ pushSteps [dest] = [] /\
          navigations [dest] = [dest]) as (Hdp & Hdl & Hda & Hdq & Hdn).
  { subst dest.
    by destruct (String.eqb (inviteCode (state s)) "1332"),
                (String.eqb (afterLogin env) "MainTabs"). }
  unfold posts, logins, navigations, loginAlerts, pushSteps in *.
  rewrite !List.filter_app, !omap_app.
  rewrite Hpp, Hpl, Hpa, Hpn, Hdp, Hdl, Hda, Hdq, Hdn, Hpush.
  cbn [List.filter omap app mbind option_bind].
  rewrite !app_nil_r.
  split_and!; try done.
  - intros [Hcs | Hflow]; subst dest.
    + by rewrite Hcs.
    + rewrite Hflow. by destruct (String.eqb (inviteCode (state s)) "1332").
  - intros Hcs Hflow. subst dest.
    apply String.eqb_neq in Hcs, Hflow. by rewrite Hcs, Hflow.
Qed.

Lemma login_success_witness :
  navigations (performed (pressLogin sampleEnvironment)
                 (typed "13800138000" "6969")) =
  [Navigate (Permissions "13800138000" "6969")].
Proof.
  apply (login_success sampleEnvironment (typed "13800138000" "6969")
           {["token" := PStr "t"]}).
  - apply test_phonePattern. reflexivity.
  - simpl. lia.
  - reflexivity.
  - reflexivity.
  - discriminate.
  - discriminate.
Defined.

Lemma login_failure_loading (env : Environment) (s : Screen) (e : Thrown) :
  test phonePattern (phoneNumber (state s)) = true ->
  (4 <= String.length (inviteCode (state s)))%nat ->
  loginError env = Some e ->
  loading (state (fst (pressLogin env s))) = false.
Proof.
  intros Hp Hc He. unfold pressLogin.
  rewrite (handleLogin_failure env _ _ s e Hp Hc He).
  destruct s as [[p c ers ld] acts].
  destruct (post env) as [[o|[| |b|z|str]]|e0];
    destruct e as [m [[body|[| |b'|z'|str']]|]|m]; unfold loginFailed;
    step_m; cbv [named]; step_m; done.
Qed.

(** X16 (handleLogin).  With valid fields, when the request fails, its
    answer is [null] or [undefined], or saving the session fails: the
    request has been posted once, the session is saved at most once (only
    when the request was answered with something other than [null] or
    [undefined]), nothing is navigated to, the push set-up is not run and
    the loading flag is switched off.  An axios error whose response body
    is an object shows one alert with the server's message, or the retry
    text when that message is missing or falsy; a response body that is
    not an object (the empty string of an answer without a body, a
    number, a text) shows one alert with the retry text; an error without
    a response shows one alert with the network text and the error's own
    message; in all these cases the handler returns.  Only an axios error
    whose response body is [null] or [undefined] shows no alert and makes
    the handler itself fail. *)
Theorem login_failure (env : Environment) (s : Screen) (e : Thrown) :
  mainlandNumber (phoneNumber (state s)) ->
  (4 <= String.length (inviteCode (state s)))%nat ->
  loginError env = Some e ->
  length (posts (performed (pressLogin env) s)) = 1%nat /\
  (length (logins (performed (pressLogin env) s)) =
   match post env with
   | Raised _ => 0%nat
   | Returned (PlainBody PUndefined) | Returned (PlainBody PNull) => 0%nat
   | Returned _ => 1%nat
   end) /\
  navigations (performed (pressLogin env) s) = [] /\
  pushSteps (performed (pressLogin env) s) = [] /\
  loading (state (fst (pressLogin env s))) = false /\
  match e with
  | AxiosError _ (Some (PlainBody PUndefined))
  | AxiosError _ (Some (PlainBody PNull)) =>
      loginAlerts (performed (pressLogin env) s) = [] /\
      snd (pressLogin env s) = Raised typeError
  | AxiosError _ (Some (ObjectBody body)) =>
      loginAlerts (performed (pressLogin env) s) =
      [if truthyPrim (body !! "message")
       then ServerMessage (default PUndefined (body !! "message"))
       else LoginFailedRetry] /\
      snd (pressLogin env s) = Returned tt
  | AxiosError _ (Some (PlainBody _)) =>
      loginAlerts (performed (pressLogin env) s) = [LoginFailedRetry] /\
      snd (pressLogin env s) = Returned tt
  | _ =>
      loginAlerts (performed (pressLogin env) s) =
      [NetworkFailure (messageOf e)] /\
      snd (pressLogin env s) = Returned tt
  end.
Proof.
  intros Hp Hc He. apply test_phonePattern in Hp.
  unfold performed, pressLogin.
  rewrite (handleLogin_failure env _ _ s e Hp Hc He).
  destruct s as [[p c ers ld] acts]. cbn [state actions phoneNumber
    inviteCode errors loading] in *.
  destruct (post env) as [[o|[| |b|z|str]]|e0];
    destruct e as [m [[body|[| |b'|z'|str']]|]|m]; unfold loginFailed;
    step_m; cbv [named]; step_m;
    rewrite <- ?app_assoc, drop_app_length; cbn; done.
Qed.

Lemma login_failure_witness :
  loginAlerts
    (performed (pressLogin refusedWithoutBody)
       (typed "13800138000" "6969")) = [LoginFailedRetry]
  /\ snd (pressLogin refusedWithoutBody (typed "13800138000" "6969"))
     = Returned tt.
Proof.
  assert (mainlandNumber "13800138000") as Hp
    by (apply test_phonePattern; reflexivity).
  assert (4 <= String.length "6969")%nat as Hc by (simpl; lia).
  exact (proj2 (proj2 (proj2 (proj2 (proj2
    (login_failure refusedWithoutBody (typed "13800138000" "6969")
       (AxiosError "Request failed with status code 500"
          (Some (PlainBody (PStr "")))) Hp Hc eq_refl)))))).
Defined.

(** An answer with status 200 and no body is no failure: the session is
    saved without a token and the screen moves on. *)
Example login_answer_without_body :
  performed (pressLogin (answering (Returned (PlainBody (PStr "")))))
    (typed "13800138000" "6969")
  = [Post USER_LOGIN "13800138000" "1332" "6969";
     Login None {["userType" := PStr "user"]};
     Navigate (Permissions "13800138000" "6969")].
Proof. vm_compute. reflexivity. Qed.

(** X17 (handleLogin).  The login handler never leaves the loading flag
    on: whatever the collaborators return or throw, and whether the
    handler returns or fails, a flag that was off before the press is off
    when the handler has settled. *)
Theorem login_never_leaves_loading (env : Environment) (s : Screen) :
  loading (state s) = false ->
  loading (state (fst (pressLogin env s))) = false.
Proof.
  intros Hl.
  destruct (test phonePattern (phoneNumber (state s))) eqn:Hp.
  - destruct (Nat.lt_ge_cases (String.length (inviteCode (state s))) 4)
      as [Hc|Hc].
    + unfold pressLogin. by rewrite handleLogin_invalid_code.
    + destruct (loginError env) as [e|] eqn:He.
      * exact (login_failure_loading env s e Hp Hc He).
      * unfold loginError in He.
        destruct (post env) as [body|e0] eqn:Hpost; try discriminate He.
        destruct (named body "token") as [token|e1] eqn:Htoken.
        2: { by destruct body as [o|[| |b|z|str]]. }
        assert (login env = Returned tt) as Hlogin.
        { destruct (login env) as [[]|e1]; [ done |].
          by destruct body as [o|[| |b|z|str]]. }
        destruct (handleLogin_success env _ _ s body token Hp Hc Hpost
                    Htoken Hlogin) as (push & _ & _ & Hrun).
        unfold pressLogin. by rewrite Hrun.
  - unfold pressLogin. by rewrite handleLogin_invalid_phone.
Qed.

Lemma login_never_leaves_loading_witness :
  loading
    (state (fst (pressLogin sampleEnvironment
                   (typed "13800138000" "6969")))) = false
  /\ loading
       (state (fst (pressLogin refusedWithNull
                      (typed "13800138000" "6969")))) = false.
Proof.
  split.
  - apply (login_never_leaves_loading sampleEnvironment). reflexivity.
  - apply (login_never_leaves_loading refusedWithNull). reflexivity.
Defined.

(** In both runs above the flag was switched on in between: the request
    was posted, and in the second the handler itself failed. *)
Example loading_witness_runs :
  posts (performed (pressLogin sampleEnvironment)
           (typed "13800138000" "6969"))
  = [Post USER_LOGIN "13800138000" "1332" "6969"]
  /\ snd (pressLogin refusedWithNull (typed "13800138000" "6969"))
     = Raised typeError.
Proof. vm_compute. split; reflexivity. Qed.

(** X18 (onChangeText of the two inputs).  Editing a field stores the new
    text.  While the field shows a message, the edit re-validates it with
    the validator of the current render, which reads the value the field
    held before the edit: the message after the edit is the verdict on
    the previous value and does not depend on the text just typed.  While
    no message is shown, the edit validates nothing.  The other field's
    value and message are never touched. *)
Theorem edit_validates_previous_value (text : string) (s : Screen) :
  phoneNumber (state (fst (changePhoneText text s))) = text /\
  errors_phoneNumber (errors (state (fst (changePhoneText text s)))) =
  match errors_phoneNumber (errors (state s)) with
  | Some _ => phoneVerdict (phoneNumber (state s))
  | None => None
  end /\
  inviteCode (state (fst (changePhoneText text s))) = inviteCode (state s) /\
  errors_inviteCode (errors (state (fst (changePhoneText text s)))) =
  errors_inviteCode (errors (state s)) /\
  inviteCode (state (fst (changeInviteCodeText text s))) = text /\
  errors_inviteCode (errors (state (fst (changeInviteCodeText text s)))) =
  match errors_inviteCode (errors (state s)) with
  | Some _ => inviteVerdict (inviteCode (state s))
  | None => None
  end /\
  phoneNumber (state (fst (changeInviteCodeText text s))) =
  phoneNumber (state s) /\
  errors_phoneNumber (errors (state (fst (changeInviteCodeText text s)))) =
  errors_phoneNumber (errors (state s)).
Proof.
  destruct s as [[p c [ep ec] ld] acts].
  unfold changePhoneText, changeInviteCodeText.
  cbn [state actions phoneNumber inviteCode errors loading
       errors_phoneNumber errors_inviteCode].
  cbv [mbind Step_bind]. cbn [setPhoneNumber setInviteCode].
  destruct ep as [mp|], ec as [mc|];
    rewrite ?validatePhone_run, ?validateInviteCode_run; done.
Qed.

End LoginScreen.

(** ** The upload service *)

Section UploadService.
Import MediaUploadService.
Local Open Scope Z_scope.

Lemma carriedOut_spec {A : Type} (m : Run A) (s : Service)
    (l : list Step) :
  steps (fst (m s)) = steps s ++ l -> carriedOut m s = l.
Proof. unfold carriedOut. intros ->. apply drop_app_length. Qed.

Lemma requests_app (l k : list Step) :
  requests (l ++ k) = requests l ++ requests k.
Proof. apply omap_app. Qed.

Lemma backoffs_app (l k : list Step) :
  backoffs (l ++ k) = backoffs l ++ backoffs k.
Proof. apply omap_app. Qed.

Lemma retryNotices_app (l k : list Step) :
  retryNotices (l ++ k) = retryNotices l ++ retryNotices k.
Proof. apply omap_app. Qed.

Lemma probing_app (l k : list Step) :
  probing l -> probing k -> probing (l ++ k).
Proof. unfold probing. intros. by apply Forall_app. Qed.

Lemma probing_silent (l : list Step) :
  probing l -> requests l = [] /\ backoffs l = [] /\ retryNotices l = [].
Proof.
  induction 1 as [|x l [-> | ->] _ (IH1 & IH2 & IH3)]; [ done | |];
    cbn; by rewrite ?IH1, ?IH2, ?IH3.
Qed.

(** One health check: a request, the time it takes, and whether the
    status was 200. *)
Lemma checkNetworkConnection_run (net : Network) (s : Service) :
  checkNetworkConnection net s =
  ({| clock := clock s + Z.of_N (healthTime net (healthChecks s));
      healthChecks := S (healthChecks s);
      uploads := uploads s;
      steps := steps s ++ [HealthCheck] |},
   Returned match healthAnswer net (healthChecks s) with
            | HealthStatus status => status =? 200
            | HealthFailed _ => false
            end).
Proof.
  unfold checkNetworkConnection, tryCatch, getHealth.
  cbv [mbind Run_bind mret Run_ret].
  by destruct (healthAnswer net (healthChecks s)).
Qed.

(** The probing loop returns within its bound, makes no upload request,
    gives up only when the time is over and succeeds only on a health
    check answered with status 200. *)
Lemma waitLoop_returns (fuel : nat) (net : Network) (startTime maxWait : Z)
    (s : Service) :
  startTime <= clock s ->
  maxWait - (clock s - startTime) <= 1000 * Z.of_nat fuel ->
  exists s' found l,
    waitLoop fuel net startTime maxWait s = (s', Returned found) /\
    steps s' = steps s ++ l /\ probing l /\
    uploads s' = uploads s /\ clock s <= clock s' /\
    (found = false -> maxWait <= clock s' - startTime) /\
    (found = true -> exists k, healthAnswer net k = HealthStatus 200).
Proof.
  revert s. induction fuel as [|fuel IH]; intros s Hstart Hfuel.
  - cbn [waitLoop]. destruct (Z.ltb_spec (clock s - startTime) maxWait).
    + lia.
    + exists s, false, []. rewrite app_nil_r.
      split_and!; try done. constructor.
  - cbn [waitLoop]. destruct (Z.ltb_spec (clock s - startTime) maxWait).
    + cbv [mbind Run_bind]. rewrite checkNetworkConnection_run.
      set (s1 := {| clock := _ |}).
      destruct (healthAnswer net (healthChecks s)) as [status|e] eqn:Hk;
        [ destruct (Z.eqb_spec status 200) as [->|Hne] |].
      * exists s1, true, [HealthCheck]. cbn.
        split_and!; try done; try lia.
        -- constructor; [ by left | constructor ].
        -- intros _. by exists (healthChecks s).
      * cbn [negb]. cbv [sleep].
        set (s2 := {| clock := clock s1 + _ |}).
        destruct (IH s2) as (s' & found & l & Hrun & Hsteps & Hpoll
                             & Hup & Hclock & Hgive & Hfound).
        { subst s2 s1. cbn. lia. }
        { subst s2 s1. cbn. lia. }
        exists s', found, ([HealthCheck; Sleep NetworkPoll 1000] ++ l).
        rewrite Hrun. subst s2 s1. cbn in *.
        split_and!; try done; try lia.
        -- by rewrite Hsteps, <- !app_assoc.
        -- constructor; [ by left |].
           constructor; [ by right | done ].
      * cbn [negb]. cbv [sleep].
        set (s2 := {| clock := clock s1 + _ |}).
        destruct (IH s2) as (s' & found & l & Hrun & Hsteps & Hpoll
                             & Hup & Hclock & Hgive & Hfound).
        { subst s2 s1. cbn. lia. }
        { subst s2 s1. cbn. lia. }
        exists s', found, ([HealthCheck; Sleep NetworkPoll 1000] ++ l).
        rewrite Hrun. subst s2 s1. cbn in *.
        split_and!; try done; try lia.
        -- by rewrite Hsteps, <- !app_assoc.
        -- constructor; [ by left |].
           constructor; [ by right | done ].
    + exists s, false, []. rewrite app_nil_r.
      split_and!; try done. constructor.
Qed.

Lemma waitForNetwork_returns (net : Network) (maxWait : option Z)
    (s : Service) :
  exists s' found l,
    waitForNetwork net maxWait s = (s', Returned found) /\
    steps s' = steps s ++ l /\ probing l /\
    uploads s' = uploads s /\ clock s <= clock s' /\
    (found = false -> default 30000 maxWait <= clock s' - clock s) /\
    (found = true -> exists k, healthAnswer net k = HealthStatus 200).
Proof.
  unfold waitForNetwork. apply waitLoop_returns; [ lia |].
  set (w := default 30000 maxWait).
  destruct (Z.le_gt_cases 0 w) as [Hw|Hw]; [| lia ].
  rewrite Z2Nat.id by (pose proof (Z.div_pos w 1000 Hw); lia).
  pose proof (Z.mul_succ_div_gt w 1000). lia.
Qed.

Lemma networkFound_returns (net : Network) (s : Service) :
  exists s' found l,
    networkFound net s = (s', Returned found) /\
    steps s' = steps s ++ l /\ probing l /\
    uploads s' = uploads s /\ clock s <= clock s' /\
    (found = false -> 30000 <= clock s' - clock s) /\
    (found = true -> exists k, healthAnswer net k = HealthStatus 200).
Proof.
  unfold networkFound. cbv [mbind Run_bind].
  rewrite checkNetworkConnection_run. set (s1 := {| clock := _ |}).
  destruct (healthAnswer net (healthChecks s)) as [status|e] eqn:Hk;
    [ destruct (Z.eqb_spec status 200) as [->|Hne] |]; cbn [negb].
  - exists s1, true, [HealthCheck]. subst s1. cbn.
    split_and!; try done; try lia.
    + constructor; [ by left | constructor ].
    + intros _. by exists (healthChecks s).
  - destruct (waitForNetwork_returns net None s1)
      as (s' & found & l & Hrun & Hsteps & Hpoll & Hup & Hclock & Hgive
          & Hfound).
    exists s', found, (HealthCheck :: l). rewrite Hrun.
    subst s1. cbn in *. split_and!; try done; try lia.
    + by rewrite Hsteps, <- app_assoc.
    + constructor; [ by left | done ].
    + intros Hf. specialize (Hgive Hf). lia.
  - destruct (waitForNetwork_returns net None s1)
      as (s' & found & l & Hrun & Hsteps & Hpoll & Hup & Hclock & Hgive
          & Hfound).
    exists s', found, (HealthCheck :: l). rewrite Hrun.
    subst s1. cbn in *. split_and!; try done; try lia.
    + by rewrite Hsteps, <- app_assoc.
    + constructor; [ by left | done ].
    + intros Hf. specialize (Hgive Hf). lia.
Qed.

(** [uploadWithRetry] is the opening check followed by the loop. *)
Lemma uploadWithRetry_unfold (net : Network) (endpoint : string)
    (formData : FormData) (options : UploadOptions) (s : Service) :
  uploadWithRetry net endpoint formData options s =
  match networkFound net s with
  | (s1, Returned true) =>
      attemptLoop (Z.to_nat (default 3 (maxRetries options))) net endpoint
        formData (token options) (onRetry options)
        (default 3 (maxRetries options)) (default 30000 (timeout options))
        (default 2000 (retryDelay options)) 1 None s1
  | (s1, Returned false) => (s1, Returned (failed NetworkUnavailable 0))
  | (s1, Raised e) => (s1, Raised e)
  | (s1, OutOfFuel) => (s1, OutOfFuel)
  end.
Proof.
  unfold uploadWithRetry, networkFound. cbv [mbind Run_bind].
  rewrite checkNetworkConnection_run.
  destruct (match healthAnswer net (healthChecks s) with
            | HealthStatus status => status =? 200
            | HealthFailed _ => false
            end); cbn [negb]; [ reflexivity |].
  destruct (waitForNetwork net None _) as [s1 [[]|e|]]; reflexivity.
Qed.

Lemma recover_returns (net : Network) (maxRetries retryDelay a : Z)
    (error : UploadError) (s : Service) :
  exists s' l,
    recover net maxRetries retryDelay a error s = (s', Returned tt) /\
    steps s' =
    steps s ++ l ++
    (if a <? maxRetries then [Sleep Backoff (retryDelay * 2 ^ (a - 1))]
     else []) /\
    probing l /\ uploads s' = uploads s /\ clock s <= clock s'.
Proof.
  unfold recover. destruct (isNetworkError error).
  - cbv [mbind Run_bind]. rewrite checkNetworkConnection_run.
    set (s2 := {| clock := _ |}).
    destruct (match healthAnswer net (healthChecks s) with
              | HealthStatus status => status =? 200
              | HealthFailed _ => false
              end); cbn [negb].
    + cbv [mret Run_ret]. exists
        (if a <? maxRetries
         then fst (sleep Backoff (retryDelay * 2 ^ (a - 1)) s2) else s2),
        [HealthCheck].
      destruct (a <? maxRetries); (split; [ reflexivity |]);
        subst s2; cbn; rewrite <- ?app_assoc, ?app_nil_r;
        (split_and!; try done; try lia;
         constructor; [ by left | constructor ]).
    + destruct (waitForNetwork_returns net (Some 10000) s2)
        as (s3 & found & l & Hrun & Hsteps & Hpoll & Hup & Hclock & _ & _).
      rewrite Hrun. cbv [mret Run_ret]. exists
        (if a <? maxRetries
         then fst (sleep Backoff (retryDelay * 2 ^ (a - 1)) s3) else s3),
        (HealthCheck :: l).
      destruct (a <? maxRetries); (split; [ reflexivity |]);
        subst s2; cbn in *; rewrite Hsteps, <- ?app_assoc, ?app_nil_r;
        (split_and!; try done; try lia;
         constructor; [ by left | done ]).
  - cbv [mbind Run_bind mret Run_ret]. exists
      (if a <? maxRetries
       then fst (sleep Backoff (retryDelay * 2 ^ (a - 1)) s) else s), [].
    destruct (a <? maxRetries); (split; [ reflexivity |]);
      cbn; rewrite ?app_nil_r;
      (split_and!; try done; try lia; constructor).
Qed.

Lemma tryUpload_run (net : Network) (endpoint : string)
    (formData : FormData) (token : string)
    (onRetry : option (Z -> Z -> option UploadError))
    (maxRetries timeout a : Z) (s : Service) :
  (forall callback, onRetry = Some callback ->
     forall attempt maxAttempts, callback attempt maxAttempts = None) ->
  exists s',
    tryUpload net endpoint formData token onRetry maxRetries timeout a s =
    (s', match accepted (postAnswer net (uploads s)) with
         | Some data => Returned (uploaded data a)
         | None => Raised (failureOf (postAnswer net (uploads s)))
         end) /\
    steps s' =
    steps s ++
    (if 1 <? a
     then match onRetry with
          | Some _ => [RetryNotified a maxRetries]
          | None => []
          end
     else []) ++
    [Upload endpoint formData token (timeout + (a - 1) * 10000)] /\
    uploads s' = S (uploads s) /\ clock s <= clock s'.
Proof.
  intros Hquiet. unfold tryUpload, accepted, failureOf, uploaded.
  destruct (1 <? a); [ destruct onRetry as [callback|] |];
    cbv [mbind Run_bind mret Run_ret notifyRetry postUpload raise];
    rewrite ?(Hquiet callback eq_refl); cbn [uploads];
    destruct (postAnswer net (uploads s)) as [status [data|]|e];
    cbn [fst snd]; try destruct (status =? 200);
    (eexists; split; [ reflexivity |]; cbn;
     rewrite <- ?app_assoc; split_and!; try done; lia).
Qed.

Lemma map_seq_shift {B : Type} (f g : nat -> B) (n : nat) :
  (forall k, f (S k) = g k) ->
  map f (seq 0 (S n)) = f O :: map g (seq 0 n).
Proof.
  intros H. cbn [seq map]. f_equal.
  rewrite <- seq_shift, map_map. apply map_ext. exact H.
Qed.

Lemma firstAccepted_bound (net : Network) (from n i : nat) (data : Obj) :
  firstAccepted net from n = Some (i, data) -> (i < n)%nat.
Proof.
  revert from i data.
  induction n as [|n IH]; intros from i data; cbn; [ done |].
  destruct (accepted (postAnswer net from)).
  - intros [= <- _]. lia.
  - destruct (firstAccepted net (S from) n) as [[j d]|] eqn:E; [| done ].
    intros [= <- _]. apply IH in E. lia.
Qed.

Section Loop.
Variable net : Network.
Variable endpoint : string.
Variable formData : FormData.
Variable token : string.
Variable onRetry : option (Z -> Z -> option UploadError).
Variables maxRetries timeout retryDelay : Z.
Hypothesis Hquiet :
  forall callback, onRetry = Some callback ->
    forall attempt maxAttempts, callback attempt maxAttempts = None.

(** The loop, attempt by attempt: it returns; it stops at the first
    accepted answer; every attempt makes one request. *)
Lemma attemptLoop_run (fuel : nat) :
  forall (a : Z) (lastError : option UploadError) (s : Service),
    Z.of_nat fuel = Z.max 0 (maxRetries - a + 1) ->
    exists s' l,
      steps s' = steps s ++ l /\ clock s <= clock s' /\
      match firstAccepted net (uploads s) fuel with
      | Some (i, data) =>
          attemptLoop fuel net endpoint formData token onRetry maxRetries
            timeout retryDelay a lastError s =
          (s', Returned (uploaded data (a + Z.of_nat i))) /\
          requests l =
          map (fun k => (endpoint, formData, token,
                         timeout + (a - 1 + Z.of_nat k) * 10000))
            (seq 0 (S i)) /\
          backoffs l =
          map (fun k => retryDelay * 2 ^ (a - 1 + Z.of_nat k)) (seq 0 i) /\
          retryNotices l =
          match onRetry with
          | Some _ => noticesFrom maxRetries a (S i)
          | None => []
          end
      | None =>
          attemptLoop fuel net endpoint formData token onRetry maxRetries
            timeout retryDelay a lastError s =
          (s', Returned
                 (failed
                    (getErrorMessage
                       match fuel with
                       | O => lastError
                       | S n =>
                           Some (failureOf
                                   (postAnswer net (uploads s + n)%nat))
                       end)
                    (a + Z.of_nat fuel))) /\
          requests l =
          map (fun k => (endpoint, formData, token,
                         timeout + (a - 1 + Z.of_nat k) * 10000))
            (seq 0 fuel) /\
          backoffs l =
          map (fun k => retryDelay * 2 ^ (a - 1 + Z.of_nat k))
            (seq 0 (pred fuel)) /\
          retryNotices l =
          match onRetry with
          | Some _ => noticesFrom maxRetries a fuel
          | None => []
          end
      end.
Proof.
  induction fuel as [|fuel IH]; intros a lastError s Hfuel.
  - exists s, []. rewrite app_nil_r. cbn [firstAccepted attemptLoop].
    destruct (Z.leb_spec a maxRetries); [ lia |].
    rewrite Z.add_0_r. split_and!; try done; try lia.
    by destruct onRetry.
  - cbn [firstAccepted attemptLoop].
    destruct (Z.leb_spec a maxRetries); [| lia ].
    destruct (tryUpload_run net endpoint formData token onRetry maxRetries
                timeout a s Hquiet) as (s1 & Hrun & Hsteps & Hup & Hclock).
    cbv [mbind Run_bind tryCatch]. rewrite Hrun.
    destruct (accepted (postAnswer net (uploads s))) as [data|] eqn:Hacc.
    + (* accepted at once *)
      eexists s1, _. split; [ exact Hsteps |]. split; [ exact Hclock |].
      rewrite Z.add_0_r. split; [ reflexivity |].
      rewrite !requests_app, !backoffs_app, !retryNotices_app.
      cbn [seq map noticesFrom]. rewrite Z.add_0_r.
      destruct (1 <? a), onRetry; cbn; by rewrite ?app_nil_r.
    + (* not accepted: recover, wait, next attempt *)
      destruct (recover_returns net maxRetries retryDelay a
                  (failureOf (postAnswer net (uploads s))) s1)
        as (s2 & lp & Hrec & Hsteps2 & Hpoll & Hup2 & Hclock2).
      rewrite Hrec. cbv [mret Run_ret].
      destruct (IH (a + 1) (Some (failureOf (postAnswer net (uploads s))))
                  s2 ltac:(lia))
        as (s3 & l3 & Hsteps3 & Hclock3 & Hrest).
      rewrite Hup2, Hup in Hrest.
      destruct (probing_silent lp Hpoll) as (Hq1 & Hq2 & Hq3).
      eexists s3, _. split.
      { rewrite Hsteps3, Hsteps2, Hsteps, <- !app_assoc. reflexivity. }
      split; [ lia |].
      rewrite !requests_app, !backoffs_app, !retryNotices_app.
      rewrite Hq1, Hq2, Hq3.
      assert (requests
                (if 1 <? a
                 then match onRetry with
                      | Some _ => [RetryNotified a maxRetries]
                      | None => []
                      end
                 else []) = [] /\
              backoffs
                (if 1 <? a
                 then match onRetry with
                      | Some _ => [RetryNotified a maxRetries]
                      | None => []
                      end
                 else []) = [] /\
              retryNotices
                (if 1 <? a
                 then match onRetry with
                      | Some _ => [RetryNotified a maxRetries]
                      | None => []
                      end
                 else []) =
              match onRetry with
              | Some _ => if 1 <? a then [(a, maxRetries)] else []
              | None => []
              end) as (Hn1 & Hn2 & Hn3)
        by (by destruct (1 <? a), onRetry).
      rewrite Hn1, Hn2, Hn3.
      assert (requests
                (if a <? maxRetries
                 then [Sleep Backoff (retryDelay * 2 ^ (a - 1))]
                 else []) = [] /\
              retryNotices
                (if a <? maxRetries
                 then [Sleep Backoff (retryDelay * 2 ^ (a - 1))]
                 else []) = []) as (Hb1 & Hb3)
        by (by destruct (a <? maxRetries)).
      rewrite Hb1, Hb3. cbn [requests backoffs retryNotices omap app].
      destruct (firstAccepted net (S (uploads s)) fuel) as [[i data]|]
        eqn:Hfirst.
      * destruct Hrest as (Hrun3 & Hr & Hb & Hn).
        pose proof (firstAccepted_bound _ _ _ _ _ Hfirst) as Hi.
        destruct (Z.ltb_spec a maxRetries); [| lia ].
        rewrite Hrun3, Hr, Hb, Hn. split_and!.
        -- do 3 f_equal. lia.
        -- rewrite (map_seq_shift
                     (fun k => (endpoint, formData, token,
                                timeout + (a - 1 + Z.of_nat k) * 10000))
                     (fun k => (endpoint, formData, token,
                                timeout + (a + 1 - 1 + Z.of_nat k) * 10000)))
             by (intros k; do 2 f_equal; lia).
           cbn. do 3 f_equal. lia.
        -- rewrite (map_seq_shift
                     (fun k => retryDelay * 2 ^ (a - 1 + Z.of_nat k))
                     (fun k => retryDelay * 2 ^ (a + 1 - 1 + Z.of_nat k)))
             by (intros k; do 2 f_equal; lia).
           cbn. do 3 f_equal. lia.
        -- destruct onRetry; [| done ]. reflexivity.
      * destruct Hrest as (Hrun3 & Hr & Hb & Hn).
        rewrite Hrun3, Hr, Hb, Hn. split_and!.
        -- replace (a + 1 + Z.of_nat fuel) with (a + Z.of_nat (S fuel))
             by lia.
           destruct fuel as [|n]; [ by rewrite Nat.add_0_r |].
           by replace (S (uploads s) + n)%nat with (uploads s + S n)%nat
             by lia.
        -- rewrite (map_seq_shift
                     (fun k => (endpoint, formData, token,
                                timeout + (a - 1 + Z.of_nat k) * 10000))
                     (fun k => (endpoint, formData, token,
                                timeout + (a + 1 - 1 + Z.of_nat k) * 10000)))
             by (intros k; do 2 f_equal; lia).
           cbn. do 3 f_equal. lia.
        -- destruct fuel as [|n].
           ++ destruct (Z.ltb_spec a maxRetries); [ lia | done ].
           ++ destruct (Z.ltb_spec a maxRetries); [| lia ].
              cbn [pred].
              rewrite (map_seq_shift
                         (fun k => retryDelay * 2 ^ (a - 1 + Z.of_nat k))
                         (fun k => retryDelay
                                   * 2 ^ (a + 1 - 1 + Z.of_nat k)))
                by (intros k; do 2 f_equal; lia).
              cbn. do 3 f_equal. lia.
        -- destruct onRetry; [| done ]. reflexivity.
Qed.

End Loop.

Lemma tryUpload_settles (net : Network) (endpoint : string)
    (formData : FormData) (token : string)
    (onRetry : option (Z -> Z -> option UploadError))
    (maxRetries timeout a : Z) (s : Service) :
  exists s' o l,
    tryUpload net endpoint formData token onRetry maxRetries timeout a s =
    (s', o) /\ o <> OutOfFuel /\
    steps s' = steps s ++ l /\ (length (requests l) <= 1)%nat /\
    clock s <= clock s' /\
    (forall result, o = Returned result -> attempts result <> None).
Proof.
  unfold tryUpload.
  destruct (1 <? a); [ destruct onRetry as [callback|] |];
    cbv [mbind Run_bind mret Run_ret notifyRetry postUpload raise];
    try destruct (callback a maxRetries);
    cbn [uploads];
    try destruct (postAnswer net (uploads s)) as [status [data|]|e];
    cbn [fst snd]; try destruct (status =? 200);
    (eexists _, _, _; split; [ reflexivity |]; cbn;
     rewrite <- ?app_assoc;
     split_and!;
       [ done | reflexivity | cbn; lia | lia
       | by intros result [= <-] ]).
Qed.

Lemma attemptLoop_returns (net : Network) (endpoint : string)
    (formData : FormData) (token : string)
    (onRetry : option (Z -> Z -> option UploadError))
    (maxRetries timeout retryDelay : Z) (fuel : nat) :
  forall (a : Z) (lastError : option UploadError) (s : Service),
    Z.of_nat fuel = Z.max 0 (maxRetries - a + 1) ->
    exists s' result l,
      attemptLoop fuel net endpoint formData token onRetry maxRetries
        timeout retryDelay a lastError s = (s', Returned result) /\
      steps s' = steps s ++ l /\
      (length (requests l) <= fuel)%nat /\ clock s <= clock s' /\
      attempts result <> None.
Proof.
  induction fuel as [|fuel IH]; intros a lastError s Hfuel.
  - cbn [attemptLoop]. destruct (Z.leb_spec a maxRetries); [ lia |].
    eexists s, _, []. rewrite app_nil_r.
    split_and!; [ reflexivity | done | cbn; lia | lia | done ].
  - cbn [attemptLoop]. destruct (Z.leb_spec a maxRetries); [| lia ].
    destruct (tryUpload_settles net endpoint formData token onRetry
                maxRetries timeout a s)
      as (s1 & o & l1 & Hrun & Ho & Hsteps & Hlen & Hclock & Hatt).
    cbv [mbind Run_bind tryCatch]. rewrite Hrun.
    destruct o as [result|e|]; [ | | done ].
    + eexists s1, _, l1. cbv [mret Run_ret].
      split_and!; [ reflexivity | done | lia | lia | by apply Hatt ].
    + destruct (recover_returns net maxRetries retryDelay a e s1)
        as (s2 & lp & Hrec & Hsteps2 & Hpoll & Hup2 & Hclock2).
      rewrite Hrec. cbv [mret Run_ret].
      destruct (IH (a + 1) (Some e) s2 ltac:(lia))
        as (s3 & result & l3 & Hrun3 & Hsteps3 & Hlen3 & Hclock3 & Hatt3).
      rewrite Hrun3. eexists s3, result, _. split; [ reflexivity |].
      split.
      { rewrite Hsteps3, Hsteps2, Hsteps, <- !app_assoc. reflexivity. }
      destruct (probing_silent lp Hpoll) as (Hq1 & _ & _).
      rewrite !requests_app, Hq1, !length_app.
      assert (requests
                (if a <? maxRetries
                 then [Sleep Backoff (retryDelay * 2 ^ (a - 1))]
                 else []) = []) as -> by (by destruct (a <? maxRetries)).
      cbn [length]. split_and!; [ lia | lia | done ].
Qed.

Lemma uploadWithRetry_returns (net : Network) (endpoint : string)
    (formData : FormData) (options : UploadOptions) (s : Service) :
  exists s' result l,
    uploadWithRetry net endpoint formData options s =
    (s', Returned result) /\
    steps s' = steps s ++ l /\
    (length (requests l) <= Z.to_nat (default 3%Z (maxRetries options)))%nat
    /\ clock s <= clock s' /\
    (exists lp l', l = HealthCheck :: lp ++ l') /\
    attempts result <> None.
Proof.
  rewrite uploadWithRetry_unfold.
  destruct (networkFound_returns net s)
    as (s1 & found & l & Hrun & Hsteps & Hpoll & Hup & Hclock & _).
  assert (exists lp, l = HealthCheck :: lp) as (lp & ->).
  { revert Hrun. unfold networkFound. cbv [mbind Run_bind].
    rewrite checkNetworkConnection_run.
    destruct (match healthAnswer net (healthChecks s) with
              | HealthStatus status => status =? 200
              | HealthFailed _ => false
              end); cbn [negb].
    - intros [= <- _]. cbn in Hsteps. apply app_inv_head in Hsteps.
      subst l. by exists [].
    - intros Hw.
      destruct (waitForNetwork_returns net None
                  {| clock :=
                       clock s
                       + Z.of_N (healthTime net (healthChecks s));
                     healthChecks := S (healthChecks s);
                     uploads := uploads s;
                     steps := steps s ++ [HealthCheck] |})
        as (s2 & f2 & l2 & Hrun2 & Hsteps2 & _).
      rewrite Hrun2 in Hw. injection Hw as -> _.
      cbn in Hsteps2. rewrite Hsteps2, <- app_assoc in Hsteps.
      apply app_inv_head in Hsteps. subst l. by exists l2. }
  rewrite Hrun. destruct (probing_silent _ Hpoll) as (Hq & _ & _).
  destruct found.
  - destruct (attemptLoop_returns net endpoint formData (token options)
                (onRetry options) (default 3 (maxRetries options))
                (default 30000 (timeout options))
                (default 2000 (retryDelay options))
                (Z.to_nat (default 3 (maxRetries options))) 1 None s1
                ltac:(lia))
      as (s2 & result & l2 & Hrun2 & Hsteps2 & Hlen & Hclock2 & Hatt).
    rewrite Hrun2. exists s2, result, ((HealthCheck :: lp) ++ l2).
    rewrite Hsteps2, Hsteps, <- app_assoc.
    rewrite requests_app, Hq. split_and!; try done; try lia.
    by exists lp, l2.
  - exists s1, (failed NetworkUnavailable 0), (HealthCheck :: lp).
    rewrite Hq. split_and!; try done; try (cbn; lia).
    exists lp, []. by rewrite app_nil_r.
Qed.

(** X19 (uploadWithRetry, waitForNetwork, checkNetworkConnection).  The
    upload always settles with a result: for every server, every option
    and every [onRetry] callback, even a throwing one, the probing loop
    and the retry loop end, nothing is thrown to the caller, and no more
    upload requests are made than [maxRetries] (3 when absent; none when
    it is zero or negative). *)
Theorem upload_always_returns (net : Network) (endpoint : string)
    (formData : FormData) (options : UploadOptions) (s : Service) :
  exists s' result,
    uploadWithRetry net endpoint formData options s =
    (s', Returned result) /\
    (length (requests (carriedOut
                         (uploadWithRetry net endpoint formData options) s))
     <= Z.to_nat (default 3%Z (maxRetries options)))%nat /\
    clock s <= clock s'.
Proof.
  destruct (uploadWithRetry_returns net endpoint formData options s)
    as (s' & result & l & Hrun & Hsteps & Hlen & Hclock & _ & _).
  exists s', result. unfold carriedOut. rewrite Hrun. cbn [fst].
  by rewrite Hsteps, drop_app_length.
Qed.

Lemma noticesFrom_later (maxAttempts a : Z) (n : nat) :
  1 < a ->
  noticesFrom maxAttempts a n =
  map (fun k => (a + Z.of_nat k, maxAttempts)) (seq 0 n).
Proof.
  revert a. induction n as [|n IH]; intros a Ha; [ done |].
  cbn [noticesFrom]. destruct (Z.ltb_spec 1 a); [| lia ].
  rewrite IH by lia.
  rewrite (map_seq_shift (fun k => (a + Z.of_nat k, maxAttempts))
             (fun k => (a + 1 + Z.of_nat k, maxAttempts)))
    by (intros k; f_equal; lia).
  cbn. do 2 f_equal. lia.
Qed.

Lemma noticesFrom_first (maxAttempts : Z) (n : nat) :
  noticesFrom maxAttempts 1 n =
  map (fun k => (Z.of_nat k + 1, maxAttempts)) (seq 1 (pred n)).
Proof.
  destruct n as [|n]; [ done |]. cbn [noticesFrom pred].
  rewrite noticesFrom_later by lia. cbn [Z.ltb Z.compare app].
  rewrite <- seq_shift, map_map. apply map_ext. intros k. f_equal. lia.
Qed.

(** The loop of [uploadWithRetry], from the first attempt. *)
Lemma uploadWithRetry_loop (net : Network) (endpoint : string)
    (formData : FormData) (options : UploadOptions) (s : Service) :
  quietRetries options ->
  snd (networkFound net s) = Returned true ->
  exists s' l,
    carriedOut (uploadWithRetry net endpoint formData options) s = l /\
    match
      firstAccepted net (uploads s)
        (Z.to_nat (default 3 (maxRetries options)))
    with
    | Some (i, data) =>
        uploadWithRetry net endpoint formData options s =
        (s', Returned (uploaded data (Z.of_nat i + 1))) /\
        requests l =
        map (fun k => (endpoint, formData, token options,
                       default 30000 (timeout options)
                       + Z.of_nat k * 10000)) (seq 0 (S i)) /\
        backoffs l =
        map (fun k => default 2000 (retryDelay options) * 2 ^ Z.of_nat k)
          (seq 0 i) /\
        retryNotices l =
        match onRetry options with
        | Some _ =>
            map (fun k => (Z.of_nat k + 1, default 3 (maxRetries options)))
              (seq 1 i)
        | None => []
        end
    | None =>
        uploadWithRetry net endpoint formData options s =
        (s', Returned
               (failed
                  (getErrorMessage
                     match Z.to_nat (default 3 (maxRetries options)) with
                     | O => None
                     | S n =>
                         Some (failureOf
                                 (postAnswer net (uploads s + n)%nat))
                     end)
                  (Z.of_nat (Z.to_nat (default 3 (maxRetries options)))
                   + 1))) /\
        requests l =
        map (fun k => (endpoint, formData, token options,
                       default 30000 (timeout options)
                       + Z.of_nat k * 10000))
          (seq 0 (Z.to_nat (default 3 (maxRetries options)))) /\
        backoffs l =
        map (fun k => default 2000 (retryDelay options) * 2 ^ Z.of_nat k)
          (seq 0 (pred (Z.to_nat (default 3 (maxRetries options))))) /\
        retryNotices l =
        match onRetry options with
        | Some _ =>
            map (fun k => (Z.of_nat k + 1, default 3 (maxRetries options)))
              (seq 1 (pred (Z.to_nat (default 3 (maxRetries options)))))
        | None => []
        end
    end.
Proof.
  intros Hquiet Hfound. unfold carriedOut.
  rewrite uploadWithRetry_unfold.
  destruct (networkFound_returns net s)
    as (s1 & found & lp & Hrun & Hsteps & Hpoll & Hup & Hclock & _).
  rewrite Hrun in Hfound |- *. cbn in Hfound.
  injection Hfound as ->.
  destruct (probing_silent lp Hpoll) as (Hq1 & Hq2 & Hq3).
  destruct (attemptLoop_run net endpoint formData (token options)
              (onRetry options) (default 3 (maxRetries options))
              (default 30000 (timeout options))
              (default 2000 (retryDelay options)) Hquiet
              (Z.to_nat (default 3 (maxRetries options))) 1 None s1
              ltac:(lia))
    as (s2 & l & Hsteps2 & Hclock2 & Hrest).
  rewrite Hup in Hrest. exists s2, (lp ++ l).
  assert (forall o : Outcome UploadResult,
            attemptLoop (Z.to_nat (default 3 (maxRetries options))) net
              endpoint formData (token options) (onRetry options)
              (default 3 (maxRetries options))
              (default 30000 (timeout options))
              (default 2000 (retryDelay options)) 1 None s1 = (s2, o) ->
            drop (length (steps s))
              (steps
                 (fst
                    (attemptLoop
                       (Z.to_nat (default 3 (maxRetries options))) net
                       endpoint formData (token options) (onRetry options)
                       (default 3 (maxRetries options))
                       (default 30000 (timeout options))
                       (default 2000 (retryDelay options)) 1 None s1)))
            = lp ++ l) as Hdrop.
  { intros o ->. cbn [fst].
    by rewrite Hsteps2, Hsteps, <- app_assoc, drop_app_length. }
  rewrite !requests_app, !backoffs_app, !retryNotices_app, Hq1, Hq2, Hq3.
  cbn [app].
  destruct (firstAccepted net (uploads s)
              (Z.to_nat (default 3 (maxRetries options))))
    as [[i data]|].
  - destruct Hrest as (Hrun2 & Hr & Hb & Hn).
    split; [ by eapply Hdrop |]. rewrite Hrun2, Hr, Hb, Hn.
    split_and!.
    + do 3 f_equal; lia.
    + apply map_ext. intros k. do 2 f_equal; lia.
    + apply map_ext. intros k. do 2 f_equal; lia.
    + destruct (onRetry options); [| done ].
      by rewrite noticesFrom_first.
  - destruct Hrest as (Hrun2 & Hr & Hb & Hn).
    split; [ by eapply Hdrop |]. rewrite Hrun2, Hr, Hb, Hn.
    split_and!.
    + do 3 f_equal; lia.
    + apply map_ext. intros k. do 2 f_equal; lia.
    + apply map_ext. intros k. do 2 f_equal; lia.
    + destruct (onRetry options); [| done ].
      by rewrite noticesFrom_first.
Qed.

(** X20 (uploadWithRetry, waitForNetwork).  When no health check is
    answered with status 200, the upload is never attempted: the service
    polls for at least 30 seconds, makes no upload request, calls no
    [onRetry], and returns the failure "network unavailable" with zero
    attempts. *)
Theorem upload_without_network (net : Network) (endpoint : string)
    (formData : FormData) (options : UploadOptions) (s : Service) :
  (forall k, healthAnswer net k <> HealthStatus 200) ->
  snd (uploadWithRetry net endpoint formData options s) =
  Returned (failed NetworkUnavailable 0) /\
  requests (carriedOut (uploadWithRetry net endpoint formData options) s) =
  [] /\
  retryNotices
    (carriedOut (uploadWithRetry net endpoint formData options) s) = [] /\
  backoffs (carriedOut (uploadWithRetry net endpoint formData options) s) =
  [] /\
  30000 <=
  clock (fst (uploadWithRetry net endpoint formData options s)) - clock s.
Proof.
  intros Hdown. unfold carriedOut. rewrite uploadWithRetry_unfold.
  destruct (networkFound_returns net s)
    as (s1 & found & l & Hrun & Hsteps & Hpoll & Hup & Hclock & Hgive
        & Hfound).
  rewrite Hrun. destruct found.
  - destruct (Hfound eq_refl) as (k & Hk). by destruct (Hdown k).
  - cbn [fst snd]. rewrite Hsteps, drop_app_length.
    destruct (probing_silent l Hpoll) as (-> & -> & ->).
    split_and!; try done. by apply Hgive.
Qed.

Lemma upload_without_network_witness :
  snd (uploadWithRetry unreachableNetwork "/api/upload/audio" []
         defaultOptions idleService) =
  Returned (failed NetworkUnavailable 0).
Proof.
  apply (upload_without_network unreachableNetwork "/api/upload/audio" []
           defaultOptions idleService).
  intros k. discriminate.
Defined.

(** X21 (uploadWithRetry).  With the network found and an [onRetry] that
    returns: if the i-th of the first [maxRetries] answers (counting from
    zero) is the first with status 200 and a body, the upload returns
    success with [attempts = i + 1] and the URL and file name of that
    body, after exactly [i + 1] requests.  The k-th request carries the
    timeout [timeout + k * 10000]; between two attempts the service waits
    [retryDelay * 2 ^ k]; [onRetry] is called before every request but
    the first with the attempt number and [maxRetries]. *)
Theorem upload_stops_at_first_accepted_answer (net : Network)
    (endpoint : string) (formData : FormData) (options : UploadOptions)
    (s : Service) (i : nat) (data : Obj) :
  quietRetries options ->
  snd (networkFound net s) = Returned true ->
  firstAccepted net (uploads s)
    (Z.to_nat (default 3 (maxRetries options))) = Some (i, data) ->
  snd (uploadWithRetry net endpoint formData options s) =
  Returned (uploaded data (Z.of_nat i + 1)) /\
  requests (carriedOut (uploadWithRetry net endpoint formData options) s) =
  map (fun k => (endpoint, formData, token options,
                 default 30000 (timeout options) + Z.of_nat k * 10000))
    (seq 0 (S i)) /\
  backoffs (carriedOut (uploadWithRetry net endpoint formData options) s) =
  map (fun k => default 2000 (retryDelay options) * 2 ^ Z.of_nat k)
    (seq 0 i) /\
  retryNotices
    (carriedOut (uploadWithRetry net endpoint formData options) s) =
  match onRetry options with
  | Some _ =>
      map (fun k => (Z.of_nat k + 1, default 3 (maxRetries options)))
        (seq 1 i)
  | None => []
  end.
Proof.
  intros Hquiet Hfound Hfirst.
  destruct (uploadWithRetry_loop net endpoint formData options s Hquiet
              Hfound) as (s' & l & Hl & Hrest).
  rewrite Hfirst in Hrest. destruct Hrest as (Hrun & Hr & Hb & Hn).
  rewrite Hl, Hrun. by split_and!.
Qed.

Lemma upload_stops_at_first_accepted_answer_witness :
  snd (uploadWithRetry recoveringNetwork "/api/upload/audio" []
         defaultOptions idleService) =
  Returned (uploaded {["audioUrl" := PStr "/uploads/a.m4a"]} 3).
Proof.
  apply (upload_stops_at_first_accepted_answer recoveringNetwork
           "/api/upload/audio" [] defaultOptions idleService 2%nat
           {["audioUrl" := PStr "/uploads/a.m4a"]}).
  - intros callback H. discriminate H.
  - reflexivity.
  - reflexivity.
Defined.

(** X22 (uploadWithRetry, getErrorMessage).  With the network found and
    an [onRetry] that returns: if none of the first [maxRetries] answers
    is accepted, the upload makes exactly [maxRetries] requests (none
    when [maxRetries] is zero or negative), waits between them but not
    after the last one, and returns a failure whose text is that of the
    last error, or "unknown error" when no request was made.  The
    reported [attempts] is one more than the number of requests made.  An
    answer that arrives with another status than 200, or without a body,
    counts as a failure and is reported as a network failure. *)
Theorem upload_gives_up_after_maxRetries (net : Network)
    (endpoint : string) (formData : FormData) (options : UploadOptions)
    (s : Service) (n : nat) :
  quietRetries options ->
  snd (networkFound net s) = Returned true ->
  n = Z.to_nat (default 3 (maxRetries options)) ->
  firstAccepted net (uploads s) n = None ->
  snd (uploadWithRetry net endpoint formData options s) =
  Returned
    (failed
       (getErrorMessage
          match n with
          | O => None
          | S m => Some (failureOf (postAnswer net (uploads s + m)%nat))
          end)
       (Z.of_nat n + 1)) /\
  requests (carriedOut (uploadWithRetry net endpoint formData options) s) =
  map (fun k => (endpoint, formData, token options,
                 default 30000 (timeout options) + Z.of_nat k * 10000))
    (seq 0 n) /\
  backoffs (carriedOut (uploadWithRetry net endpoint formData options) s) =
  map (fun k => default 2000 (retryDelay options) * 2 ^ Z.of_nat k)
    (seq 0 (pred n)) /\
  (forall m status data,
     n = S m ->
     postAnswer net (uploads s + m)%nat = Responded status data ->
     snd (uploadWithRetry net endpoint formData options s) =
     Returned (failed NetworkFailed (Z.of_nat n + 1))).
Proof.
  intros Hquiet Hfound -> Hfirst.
  destruct (uploadWithRetry_loop net endpoint formData options s Hquiet
              Hfound) as (s' & l & Hl & Hrest).
  rewrite Hfirst in Hrest. destruct Hrest as (Hrun & Hr & Hb & _).
  rewrite Hl, Hrun. split_and!; try done.
  intros m status data Hm Hlast. cbn [snd]. rewrite Hm, Hlast.
  reflexivity.
Qed.

Lemma upload_gives_up_after_maxRetries_witness :
  snd (uploadWithRetry failingNetwork "/api/upload/audio" []
         defaultOptions idleService) =
  Returned (failed ServerInternalError 4).
Proof.
  apply (upload_gives_up_after_maxRetries failingNetwork
           "/api/upload/audio" [] defaultOptions idleService 3%nat).
  - intros callback H. discriminate H.
  - reflexivity.
  - reflexivity.
  - reflexivity.
Defined.

(** X23 (getErrorMessage).  Every error is classified before the last
    line of [getErrorMessage]: the fallback to the error's own message,
    or to "upload failed", is never the result.  An error without a
    response is a timeout (code [ECONNABORTED]) or a network failure; an
    error with a response is classified by its code first and by its
    status otherwise. *)
Theorem error_text_never_falls_through (error : option UploadError) :
  getErrorMessage error <> UploadFailed /\
  (forall e, getErrorMessage error <> OwnMessage e) /\
  (forall e, error = Some e -> response e = None ->
     getErrorMessage error = UploadTimedOut \/
     getErrorMessage error = NetworkFailed) /\
  (forall e status, error = Some e -> response e = Some status ->
     code e <> Some "ECONNABORTED" -> code e <> Some "NETWORK_ERROR" ->
     getErrorMessage error =
     if status =? 400 then BadFile
     else if status =? 401 then AuthenticationFailed
     else if status =? 413 then FileTooLarge
     else if status =? 500 then ServerInternalError
     else ServerError status).
Proof.
  assert (forall e name,
            code e <> Some name -> hasCode e name = false) as Hcode.
  { intros e name H. unfold hasCode. destruct (code e) as [c|]; [| done ].
    destruct (String.eqb_spec c name) as [->|]; [ by destruct H | done ]. }
  destruct error as [e|]; cbn [getErrorMessage].
  - split_and!.
    + destruct (hasCode e "ECONNABORTED"); [ done |].
      unfold hasResponse. destruct (response e) as [status|] eqn:Hr.
      * destruct (hasCode e "NETWORK_ERROR"); [ done |]. cbn.
        by repeat case_match.
      * by rewrite orb_true_r.
    + intros e'. destruct (hasCode e "ECONNABORTED"); [ done |].
      unfold hasResponse. destruct (response e) as [status|] eqn:Hr.
      * destruct (hasCode e "NETWORK_ERROR"); [ done |]. cbn.
        by repeat case_match.
      * by rewrite orb_true_r.
    + intros e' [= <-] Hr. unfold hasResponse. rewrite Hr.
      rewrite orb_true_r. destruct (hasCode e "ECONNABORTED"); tauto.
    + intros e' status [= <-] Hr Hc1 Hc2. unfold hasResponse.
      rewrite Hr, (Hcode _ _ Hc1), (Hcode _ _ Hc2). reflexivity.
  - split_and!; done.
Qed.

(** A valid audio path goes to the retry loop, with the options
    completed by the voice defaults. *)
Lemma performVoiceUpload_valid (net : Network) (audioUri duration : string)
    (options : UploadOptions) (s : Service) :
  audioUri <> EmptyString -> audioUri <> "Already recording" ->
  exists fileName,
    performVoiceUpload net audioUri duration options s =
    uploadWithRetry net "/api/upload/audio"
      (("audio", FilePart audioUri (voiceMimeType fileName) fileName)
       :: match duration with
          | EmptyString => []
          | _ => [("duration", TextPart duration)]
          end)
      {| token := token options;
         onRetry := onRetry options;
         maxRetries := Some (orNumber (maxRetries options) 5);
         timeout := Some (orNumber (timeout options) 30000);
         retryDelay := Some (orNumber (retryDelay options) 2000) |} s.
Proof.
  intros Hne Hrec. unfold performVoiceUpload, tryCatch.
  destruct audioUri as [|c rest]; [ done |].
  apply String.eqb_neq in Hrec. rewrite Hrec.
  cbv [mbind Run_bind mret Run_ret dateNow processFileUri].
  exists (match lastPiece "/" EmptyString (String c rest) with
          | EmptyString => "voice_message_" +:+ decimal (clock s) +:+ ".mp3"
          | name => name
          end).
  match goal with
  | |- context [uploadWithRetry ?n ?e ?f ?o s] =>
      destruct (uploadWithRetry_returns n e f o s)
        as (s' & result & l & Hrun & _)
  end.
  rewrite Hrun. reflexivity.
Qed.

Lemma performImageUpload_run (net : Network) (imageUri : string)
    (options : UploadOptions) (s : Service) :
  exists fileName,
    performImageUpload net imageUri options s =
    uploadWithRetry net "/api/upload/image"
      [("image", FilePart imageUri "image/jpeg" fileName)]
      {| token := token options;
         onRetry := onRetry options;
         maxRetries := Some (orNumber (maxRetries options) 3);
         timeout := Some (orNumber (timeout options) 40000);
         retryDelay := retryDelay options |} s.
Proof.
  unfold performImageUpload, tryCatch.
  cbv [mbind Run_bind mret Run_ret dateNow processFileUri].
  exists ("image_" +:+ decimal (clock s) +:+ "." +:+
          match lastPiece "." EmptyString imageUri with
          | EmptyString => "jpg"
          | ext => ext
          end).
  match goal with
  | |- context [uploadWithRetry ?n ?e ?f ?o s] =>
      destruct (uploadWithRetry_returns n e f o s)
        as (s' & result & l & Hrun & _)
  end.
  rewrite Hrun. reflexivity.
Qed.

(** X24 (performVoiceUpload).  An empty audio path, or the path
    [Already recording], is refused before anything is done: no health
    check, no request, no time passes, and the result is the failure
    "voice file processing failed" without an attempt count.  Any other
    path reaches the network: the first thing done is a health check and
    the result carries an attempt count. *)
Theorem voice_upload_refuses_invalid_path (net : Network)
    (audioUri duration : string) (options : UploadOptions) (s : Service) :
  (audioUri = EmptyString \/ audioUri = "Already recording" ->
   performVoiceUpload net audioUri duration options s =
   (s, Returned refused)) /\
  (audioUri <> EmptyString -> audioUri <> "Already recording" ->
   exists result l,
     snd (performVoiceUpload net audioUri duration options s) =
     Returned result /\
     attempts result <> None /\
     carriedOut (performVoiceUpload net audioUri duration options) s =
     HealthCheck :: l).
Proof.
  split.
  - intros [-> | ->]; reflexivity.
  - intros Hne Hrec.
    destruct (performVoiceUpload_valid net audioUri duration options s
                Hne Hrec) as (fileName & Hrun).
    unfold carriedOut. rewrite Hrun.
    match goal with
    | |- context [uploadWithRetry ?n ?e ?f ?o s] =>
        destruct (uploadWithRetry_returns n e f o s)
          as (s' & result & l & Hrun' & Hsteps & _ & _
              & (lp & l' & ->) & Hatt)
    end.
    rewrite Hrun'. exists result, (lp ++ l'). cbn [fst snd].
    by rewrite Hsteps, drop_app_length.
Qed.

Lemma destinations_map (endpoint token : string) (formData : FormData)
    (f : nat -> Z) (l : list Step) (n : nat) :
  requests l = map (fun k => (endpoint, formData, token, f k)) (seq 0 n) ->
  destinations l = map (fun k => (endpoint, token, f k)) (seq 0 n) /\
  forms l = repeat formData n.
Proof.
  unfold destinations, forms. intros ->. rewrite !map_map. split.
  - reflexivity.
  - cbn. generalize 0%nat. induction n as [|n IH]; intros k; [ done |].
    cbn. by rewrite IH.
Qed.

(** X25 (performVoiceUpload, uploadWithRetry).  A voice upload replaces
    falsy options by its own defaults: with a valid path, the network
    found and no answer accepted, it makes [maxRetries || 5] requests to
    the audio endpoint, the k-th with the timeout
    [(timeout || 30000) + k * 10000], and waits
    [(retryDelay || 2000) * 2 ^ k] between them; in particular a caller
    that passes [maxRetries: 0] gets five attempts.  Every request
    carries the same form: the audio part with the path as given, then
    the duration part if the duration is not empty. *)
Theorem voice_upload_attempts (net : Network) (audioUri duration : string)
    (options : UploadOptions) (s : Service) (n : nat) :
  audioUri <> EmptyString -> audioUri <> "Already recording" ->
  quietRetries options ->
  snd (networkFound net s) = Returned true ->
  n = Z.to_nat (orNumber (maxRetries options) 5) ->
  firstAccepted net (uploads s) n = None ->
  destinations
    (carriedOut (performVoiceUpload net audioUri duration options) s) =
  map (fun k => ("/api/upload/audio", token options,
                 orNumber (timeout options) 30000 + Z.of_nat k * 10000))
    (seq 0 n) /\
  backoffs
    (carriedOut (performVoiceUpload net audioUri duration options) s) =
  map (fun k => orNumber (retryDelay options) 2000 * 2 ^ Z.of_nat k)
    (seq 0 (pred n)) /\
  (exists type name,
     forms
       (carriedOut (performVoiceUpload net audioUri duration options) s) =
     repeat
       (("audio", FilePart audioUri type name)
        :: match duration with
           | EmptyString => []
           | _ => [("duration", TextPart duration)]
           end) n) /\
  (exists text,
     snd (performVoiceUpload net audioUri duration options s) =
     Returned (failed text (Z.of_nat n + 1))) /\
  (maxRetries options = None \/ maxRetries options = Some 0 ->
   n = 5%nat).
Proof.
  intros Hne Hrec Hquiet Hfound -> Hfirst.
  destruct (performVoiceUpload_valid net audioUri duration options s
              Hne Hrec) as (fileName & Hrun).
  unfold carriedOut. rewrite Hrun.
  match goal with
  | |- context [uploadWithRetry ?n ?e ?f ?o s] =>
      destruct (uploadWithRetry_loop n e f o s Hquiet Hfound)
        as (s' & l & Hl & Hrest)
  end.
  cbn [maxRetries timeout retryDelay token default from_option id]
    in Hrest.
  rewrite Hfirst in Hrest. destruct Hrest as (Hrun' & Hr & Hb & _).
  unfold carriedOut in Hl. rewrite Hl, Hrun'. cbn [snd].
  destruct (destinations_map _ _ _ _ _ _ Hr) as (Hd & Hf).
  split_and!; try done.
  - by eexists _, _.
  - by eexists.
  - intros [-> | ->]; reflexivity.
Qed.

Lemma voice_upload_attempts_witness :
  destinations
    (carriedOut
       (performVoiceUpload failingNetwork "file:///tmp/voice.m4a" "3"
          zeroOptions) idleService) =
  map (fun k => ("/api/upload/audio", "t", 30000 + Z.of_nat k * 10000))
    (seq 0 5).
Proof.
  apply (voice_upload_attempts failingNetwork "file:///tmp/voice.m4a" "3"
           zeroOptions idleService 5%nat).
  - discriminate.
  - discriminate.
  - intros callback H. discriminate H.
  - reflexivity.
  - reflexivity.
  - reflexivity.
Defined.

(** X26 (performImageUpload, uploadWithRetry).  An image upload checks
    nothing about the path: every path, the empty one included, reaches
    the network.  With the network found and no answer accepted it makes
    [maxRetries || 3] requests to the image endpoint, the k-th with the
    timeout [(timeout || 40000) + k * 10000].  The retry delay is not
    completed with [||]: a delay of zero is kept, and only a missing
    delay becomes 2000.  Every request carries one part, typed
    [image/jpeg], with the path as given. *)
Theorem image_upload_attempts (net : Network) (imageUri : string)
    (options : UploadOptions) (s : Service) (n : nat) :
  quietRetries options ->
  snd (networkFound net s) = Returned true ->
  n = Z.to_nat (orNumber (maxRetries options) 3) ->
  firstAccepted net (uploads s) n = None ->
  destinations (carriedOut (performImageUpload net imageUri options) s) =
  map (fun k => ("/api/upload/image", token options,
                 orNumber (timeout options) 40000 + Z.of_nat k * 10000))
    (seq 0 n) /\
  backoffs (carriedOut (performImageUpload net imageUri options) s) =
  map (fun k => default 2000 (retryDelay options) * 2 ^ Z.of_nat k)
    (seq 0 (pred n)) /\
  (exists name,
     forms (carriedOut (performImageUpload net imageUri options) s) =
     repeat [("image", FilePart imageUri "image/jpeg" name)] n) /\
  (exists text,
     snd (performImageUpload net imageUri options s) =
     Returned (failed text (Z.of_nat n + 1))) /\
  (maxRetries options = None \/ maxRetries options = Some 0 ->
   n = 3%nat).
Proof.
  intros Hquiet Hfound -> Hfirst.
  destruct (performImageUpload_run net imageUri options s)
    as (fileName & Hrun).
  unfold carriedOut. rewrite Hrun.
  match goal with
  | |- context [uploadWithRetry ?n ?e ?f ?o s] =>
      destruct (uploadWithRetry_loop n e f o s Hquiet Hfound)
        as (s' & l & Hl & Hrest)
  end.
  cbn [maxRetries timeout retryDelay token default from_option id]
    in Hrest.
  rewrite Hfirst in Hrest. destruct Hrest as (Hrun' & Hr & Hb & _).
  unfold carriedOut in Hl. rewrite Hl, Hrun'. cbn [snd].
  destruct (destinations_map _ _ _ _ _ _ Hr) as (Hd & Hf).
  split_and!; try done.
  - by eexists.
  - by eexists.
  - intros [-> | ->]; reflexivity.
Qed.

Lemma image_upload_attempts_witness :
  backoffs
    (carriedOut (performImageUpload failingNetwork "" zeroOptions)
       idleService) = [0; 0].
Proof.
  apply (image_upload_attempts failingNetwork "" zeroOptions idleService
           3%nat).
  - intros callback H. discriminate H.
  - reflexivity.
  - reflexivity.
  - reflexivity.
Defined.

Lemma append_cons (c : ascii) (a b : string) :
  String c a +:+ b = String c (a +:+ b).
Proof. reflexivity. Qed.

Lemma toLowerCase_app (a b : string) :
  toLowerCase (a +:+ b) = toLowerCase a +:+ toLowerCase b.
Proof.
  induction a as [|c a IH]; [ reflexivity |].
  rewrite append_cons. cbn [toLowerCase]. by rewrite append_cons, IH.
Qed.

Lemma includes_here (s pattern : string) :
  String.prefix pattern s = true -> includes s pattern = true.
Proof. intros H. destruct s; cbn [includes]; by rewrite H. Qed.

Lemma includes_app (a pattern b : string) :
  includes (a +:+ pattern +:+ b) pattern = true.
Proof.
  induction a as [|c a IH].
  - change (includes (pattern +:+ b) pattern = true).
    apply includes_here. apply prefix_app.
  - rewrite append_cons. cbn [includes]. by rewrite IH, orb_true_r.
Qed.

Lemma lowerUnit_dot (c : ascii) :
  lowerUnit c = "."%char -> c = "."%char.
Proof.
  destruct c as [[] [] [] [] [] [] [] []]; vm_compute;
    first [ discriminate | reflexivity ].
Qed.

Lemma includes_no_dot (s pattern : string) :
  Forall (fun c => c <> "."%char) (list_ascii_of_string s) ->
  includes (toLowerCase s) (String "." pattern) = false.
Proof.
  induction s as [|c s IH]; intros H; [ reflexivity |].
  cbn [list_ascii_of_string] in H. apply Forall_cons in H as (Hc & Hs).
  cbn [toLowerCase includes String.prefix]. rewrite (IH Hs).
  destruct (Ascii.ascii_dec "." (lowerUnit c)) as [Heq|]; [| done ].
  symmetry in Heq. by apply lowerUnit_dot in Heq.
Qed.

(** X27 (performVoiceUpload).  The type of the audio part is found by
    containment, without regard to letter case: a name that contains
    [.m4a], [.M4a], [.m4A] or [.M4A] anywhere is typed [audio/m4a],
    whatever precedes or follows it; a name without a dot is typed
    [audio/mp3]. *)
Theorem voice_type_by_containment (before extension after : string) :
  (In extension [".m4a"; ".M4a"; ".m4A"; ".M4A"] ->
   voiceMimeType (before +:+ extension +:+ after) = "audio/m4a") /\
  (Forall (fun c => c <> "."%char) (list_ascii_of_string before) ->
   voiceMimeType before = "audio/mp3").
Proof.
  split.
  - intros H. unfold voiceMimeType.
    assert (toLowerCase extension = ".m4a") as Hlower.
    { cbn [In] in H. by destruct H as [<-|[<-|[<-|[<-|[]]]]]. }
    by rewrite !toLowerCase_app, Hlower, includes_app.
  - intros H. unfold voiceMimeType.
    by rewrite !includes_no_dot.
Qed.

Lemma voice_type_by_containment_witness :
  voiceMimeType "REC.M4A" = "audio/m4a" /\
  voiceMimeType "voice.M4a.bak" = "audio/m4a" /\
  voiceMimeType "voice" = "audio/mp3".
Proof.
  split_and!.
  - apply (proj1 (voice_type_by_containment "REC" ".M4A" "")).
    do 3 right. left. reflexivity.
  - apply (proj1 (voice_type_by_containment "voice" ".M4a" ".bak")).
    right. left. reflexivity.
  - apply (proj2 (voice_type_by_containment "voice" "" "")).
    repeat constructor; discriminate.
Defined.

End UploadService.

(** ** The voice recorder *)

Section Recorder.
Import VoiceRecorder.

Lemma to_uint_no_leading_zero (p : positive) (d : Decimal.uint) :
  Pos.to_uint p <> Decimal.D0 d.
Proof.
  intros H.
  assert (Decimal.unorm (Pos.to_uint p) = Pos.to_uint p) as Hnorm.
  { change (Pos.to_uint p) with (N.to_uint (N.pos p)).
    rewrite <- DecimalN.Unsigned.to_of.
    by rewrite DecimalN.Unsigned.of_to. }
  rewrite H, DecimalFacts.unorm_D0 in Hnorm.
  destruct (Decimal.uint_eq_dec d Decimal.Nil) as [->|Hd].
  - by apply (DecimalPos.Unsigned.to_uint_nonzero p).
  - pose proof (DecimalFacts.nb_digits_unorm d Hd) as Hlen.
    rewrite Hnorm in Hlen. cbn in Hlen. lia.
Qed.

(** The decimal text of a positive number does not start with a zero. *)
Lemma decimal_leading (m : Z) :
  (0 < m)%Z ->
  exists c rest, decimal m = String c rest /\ c <> "0"%char.
Proof.
  intros Hm. destruct m as [|p|p]; try lia.
  unfold decimal. cbn [Z.to_int NilZero.string_of_int].
  pose proof (to_uint_no_leading_zero p) as Hz.
  pose proof (DecimalPos.Unsigned.to_uint_nonnil p) as Hn.
  destruct (Pos.to_uint p) as [|d|d|d|d|d|d|d|d|d|d];
    [ done | by destruct (Hz d) | ..];
    cbn; eexists _, _; (split; [ reflexivity | discriminate ]).
Qed.

Lemma small_cases (P : Z -> Z -> bool) (a b : nat) :
  forallb (fun m => forallb (fun r => P (Z.of_nat m) (Z.of_nat r))
                      (seq 0 b)) (seq 0 a) = true ->
  forall m r, (0 <= m < Z.of_nat a)%Z -> (0 <= r < Z.of_nat b)%Z ->
    P m r = true.
Proof.
  intros H m r Hm Hr. rewrite forallb_forall in H.
  specialize (H (Z.to_nat m)). rewrite forallb_forall in H.
  specialize (H ltac:(apply in_seq; lia) (Z.to_nat r)
                ltac:(apply in_seq; lia)).
  by rewrite !Z2Nat.id in H by lia.
Qed.

Lemma formatRecordTime_parts (p : Z) :
  (0 <= p)%Z ->
  (0 <= p / 1000 / 60)%Z /\
  (0 <= Z.rem (p / 1000) 60 < 60)%Z /\
  ((p / 1000 / 60 = 0 /\ Z.rem (p / 1000) 60 = 0)%Z <-> (p < 1000)%Z) /\
  (p < 6000000 -> p / 1000 / 60 < 100)%Z.
Proof.
  intros Hp.
  assert (0 <= p / 1000)%Z as Hs by (apply Z.div_pos; lia).
  rewrite Z.rem_mod_nonneg by lia.
  pose proof (Z.mod_pos_bound (p / 1000) 60 ltac:(lia)) as Hr.
  pose proof (Z.div_mod (p / 1000) 60 ltac:(lia)) as Hdm.
  pose proof (Z.div_mod p 1000 ltac:(lia)) as Hdp.
  pose proof (Z.mod_pos_bound p 1000 ltac:(lia)) as Hrp.
  assert (0 <= p / 1000 / 60)%Z as Hm by (apply Z.div_pos; lia).
  split_and!; try lia.
Qed.

(** X28 (the record-back listener of startRecording, stopRecording).
    For a position of at least zero the recorder shows minutes and
    seconds, each with at least two digits.  The text is [00:00] exactly
    when less than one second has been recorded, so the "too short" test
    of [stopRecording] separates recordings under one second from the
    rest; the text is never [0:00], the second spelling that test looks
    for; and below one hundred minutes the text has exactly five
    characters. *)
Theorem record_time_format (p : Z) :
  (0 <= p)%Z ->
  (formatRecordTime p = "00:00" <-> (p < 1000)%Z) /\
  formatRecordTime p <> "0:00" /\
  ((p < 6000000)%Z -> String.length (formatRecordTime p) = 5%nat).
Proof.
  intros Hp.
  destruct (formatRecordTime_parts p Hp) as (Hm & Hr & Hzero & Hlong).
  unfold formatRecordTime.
  set (m := (p / 1000 / 60)%Z) in *. set (r := Z.rem (p / 1000) 60) in *.
  assert ((10 <= m)%Z ->
          exists c rest,
            twoDigits m +:+ ":" +:+ twoDigits r = String c rest /\
            c <> "0"%char) as Hbig.
  { intros Hten. unfold twoDigits at 1.
    destruct (Z.ltb_spec m 10); [ lia |].
    destruct (decimal_leading m ltac:(lia)) as (c & rest & -> & Hc).
    by exists c, (rest +:+ ":" +:+ twoDigits r). }
  split_and!.
  - split.
    + intros Htext. apply Hzero.
      destruct (Z.le_gt_cases 10 m) as [Hten|Hten].
      * destruct (Hbig Hten) as (c & rest & Heq & Hc).
        rewrite Heq in Htext. by injection Htext as -> _.
      * pose proof (small_cases
                      (fun m r =>
                         implb
                           (String.eqb
                              (twoDigits m +:+ ":" +:+ twoDigits r)
                              "00:00")
                           ((m =? 0)%Z && (r =? 0)%Z)) 10 60
                      ltac:(vm_compute; reflexivity) m r
                      ltac:(lia) ltac:(lia)) as Hcase.
        cbv beta in Hcase. rewrite Htext in Hcase. cbn in Hcase.
        apply andb_true_iff in Hcase as (H1 & H2). lia.
    + intros Hshort. apply Hzero in Hshort as (-> & ->). reflexivity.
  - intros Htext. destruct (Z.le_gt_cases 10 m) as [Hten|Hten].
    + destruct (Hbig Hten) as (c & rest & Heq & Hc).
      rewrite Heq in Htext. by injection Htext as -> _.
    + pose proof (small_cases
                    (fun m r =>
                       negb (String.eqb
                               (twoDigits m +:+ ":" +:+ twoDigits r)
                               "0:00")) 10 60
                    ltac:(vm_compute; reflexivity) m r
                    ltac:(lia) ltac:(lia)) as Hcase.
      cbv beta in Hcase. by rewrite Htext in Hcase.
  - intros Hshort. specialize (Hlong Hshort).
    pose proof (small_cases
                  (fun m r =>
                     Nat.eqb
                       (String.length
                          (twoDigits m +:+ ":" +:+ twoDigits r)) 5)
                  100 60 ltac:(vm_compute; reflexivity) m r
                  ltac:(lia) ltac:(lia)) as Hcase.
    by apply Nat.eqb_eq in Hcase.
Qed.

Lemma record_time_format_witness :
  formatRecordTime 61500 <> "0:00".
Proof. apply (record_time_format 61500). lia. Defined.

Ltac run_task :=
  repeat (progress (cbv beta iota delta
    [mbind Task_bind mret Task_ret act awaiting raise attempt update
     setIsRecording setRecordTime setShowPreview setRecordingUri
     setIsPlaying fst snd state actions isRecording recordTime showPreview
     recordingUri isPlaying stopRecorder exists_ unlink stopPlayer onError
     default from_option id negb invalidResult]));
  rewrite <- ?app_assoc, ?drop_app_length; cbn [app].

(** X29 (stopRecording).  When no recording is running, stopping does
    nothing at all.  When one is running and [onError] returns, the
    recorder is stopped exactly once, the recording flag ends up off and
    the handler returns; what else happens follows the verdict.  A
    recording is kept for the preview only if the recorder returned a
    usable path, the file exists and the time shown is not [00:00]: then
    nothing is deleted and nothing reported.  A too short recording is
    deleted, announced by one alert and never reported as an error, even
    when the deletion fails.  In every other case the error is handed to
    [onError] exactly once, no file is deleted, no preview is shown, and
    the time and the path are reset. *)
Theorem stop_recording_outcomes (env : Environment) (h : Hook) :
  (isRecording (state h) = false ->
   stopRecording env h = (h, Returned tt)) /\
  (isRecording (state h) = true -> onError env = Returned tt ->
   snd (stopRecording env h) = Returned tt /\
   isRecording (state (fst (stopRecording env h))) = false /\
   isPlaying (state (fst (stopRecording env h))) = isPlaying (state h) /\
   recorderStops (recorded (stopRecording env) h) = 1%nat /\
   match verdict env (recordTime (state h)) with
   | Kept path =>
       showPreview (state (fst (stopRecording env h))) = true /\
       recordTime (state (fst (stopRecording env h))) =
       recordTime (state h) /\
       recordingUri (state (fst (stopRecording env h))) =
       recordingUri (state h) /\
       reported (recorded (stopRecording env) h) = [] /\
       deleted (recorded (stopRecording env) h) = [] /\
       tooShortAlerts (recorded (stopRecording env) h) = 0%nat
   | TooShort path =>
       showPreview (state (fst (stopRecording env h))) =
       showPreview (state h) /\
       recordTime (state (fst (stopRecording env h))) = "00:00" /\
       recordingUri (state (fst (stopRecording env h))) = "" /\
       reported (recorded (stopRecording env) h) = [] /\
       deleted (recorded (stopRecording env) h) = [path] /\
       tooShortAlerts (recorded (stopRecording env) h) = 1%nat
   | Lost e =>
       showPreview (state (fst (stopRecording env h))) =
       showPreview (state h) /\
       recordTime (state (fst (stopRecording env h))) = "00:00" /\
       recordingUri (state (fst (stopRecording env h))) = "" /\
       reported (recorded (stopRecording env) h) = [e] /\
       deleted (recorded (stopRecording env) h) = [] /\
       tooShortAlerts (recorded (stopRecording env) h) = 0%nat
   end).
Proof.
  destruct h as [[rec time prev uri play] acts].
  destruct env as [sr ex ul sp oe].
  unfold stopRecording, recorded, verdict.
  cbn [state isRecording recordTime showPreview recordingUri isPlaying
       actions stopRecorder exists_ onError].
  split.
  - intros ->. reflexivity.
  - intros -> ->. destruct sr as [[path|]|e]; [| run_task; done.. ].
    destruct (includes path "Already stopped" || includes path "error"
              || (String.length path <? 10)%nat) eqn:Hinv;
      [ run_task; rewrite ?Hinv; run_task; done |].
    destruct (ex path) as [[]|e] eqn:Hex;
      [ | run_task; rewrite ?Hinv, ?Hex; run_task; done.. ].
    destruct (String.eqb time "00:00" || String.eqb time "0:00") eqn:Ht;
      [ destruct (ul path) as [[]|e] eqn:Hul |];
      run_task; rewrite ?Hinv; run_task; rewrite ?Hex; run_task;
      rewrite ?Ht; run_task; rewrite ?Hul; run_task; done.
Qed.

(** X30 (cancelRecording).  Cancelling never fails and never calls
    [onError], whatever the recorder, the file system and the player
    do.  If a recording is running and stopping the recorder throws,
    nothing else is done: the state, the recording flag included, is
    left as it was and the file is not deleted.  In every other case the
    preview is closed, the path and the time are reset, the playing and
    recording flags are off, the recorder is stopped only if it was
    running, and the file is deleted exactly when a path was stored; a
    failing deletion or a failing player changes none of this. *)
Theorem cancel_recording_outcomes (env : Environment) (h : Hook) :
  snd (cancelRecording env h) = Returned tt /\
  reported (recorded (cancelRecording env) h) = [] /\
  (isRecording (state h) = true ->
   (exists e, stopRecorder env = Raised e) ->
   state (fst (cancelRecording env h)) = state h /\
   recorded (cancelRecording env) h = [StopRecorder]) /\
  (isRecording (state h) = false \/
   (exists result, stopRecorder env = Returned result) ->
   state (fst (cancelRecording env h)) =
   {| isRecording := false; recordTime := "00:00"; showPreview := false;
      recordingUri := ""; isPlaying := false |} /\
   deleted (recorded (cancelRecording env) h) =
   match recordingUri (state h) with
   | EmptyString => []
   | uri => [uri]
   end /\
   recorderStops (recorded (cancelRecording env) h) =
   (if isRecording (state h) then 1%nat else 0%nat)).
Proof.
  destruct h as [[rec time prev uri play] acts].
  destruct env as [sr ex ul sp oe].
  unfold cancelRecording, recorded.
  cbn [state isRecording recordTime showPreview recordingUri isPlaying
       actions stopRecorder unlink stopPlayer].
  destruct rec, sr as [result|e], uri as [|c rest], sp as [[]|e'];
    try destruct (ul (String c rest)) as [[]|e''] eqn:Hul;
    run_task; rewrite ?Hul; run_task;
    (split_and!;
     [ done | done
     | first [ by intros _ [e0 [=]] | by intros [=] | done ]
     | first [ by intros [[=] | [r0 [=]]] | done ] ]).
Qed.

End Recorder.
